(** * MapLibre tile benchmark: a model of [js/bench/decode.ts] and of the
    [Feature] class it consumes

    The development follows the two source files:

    - [Js]          the JavaScript built-ins the code relies on (numbers,
                    [Number], [split], [Object.keys], [sort], [indexOf],
                    [splice], [JSON.stringify], the [console] object);
    - [Feature]     [Feature.loadGeometry] and [Feature.toGeoJSON];
    - [Bench]       [load], [validate], [runSuite] and [runSuites] of the
                    benchmark script, written in a small monad for the
                    process effects (console output, [process.exit],
                    uncaught exceptions).

    Strings are sequences of one-byte code units; on such strings the order
    used by [Array.prototype.sort] (UTF-16 code units) is the order of
    [String.compare]. *)

From Stdlib Require Import ZArith QArith Qcanon Ascii String List Lia.
From stdpp Require Import base option list gmap strings sorting pretty.

Local Open Scope string_scope.
Local Open Scope Z_scope.

(* ================================================================== *)
(** * JavaScript built-ins *)
(* ================================================================== *)

Module Js.

(** ** Numbers

    A finite number carries the exact rational value of the IEEE-754 double,
    as a reduced fraction; the sign of zero is not tracked ([0 === -0] in
    JavaScript). *)
Inductive JsNumber :=
  | NaN
  | Infinity (negative : bool)
  | Finite (q : Q).

Definition of_Z (z : Z) : JsNumber := Finite (inject_Z z).

(** [q * 2^e] for any integer [e]. *)
Definition scale2 (m : Z) (e : Z) : Q :=
  if 0 <=? e then inject_Z (m * 2 ^ e)
  else Qred (Qmake m (Z.to_pos (2 ^ (- e)))).

(** Rounding of a real to the nearest double, ties to even: the mantissa
    is the 53-bit quotient at the exponent of the value (not below the
    subnormal exponent -1074), corrected by the remainder. *)
Definition round_double (q : Q) : JsNumber :=
  let n := Qnum q in
  let d := Zpos (Qden q) in
  if n =? 0 then Finite 0
  else
    let a := Z.abs n in
    let e1 := Z.log2 a - Z.log2 d - 52 in
    let quot (e : Z) := if 0 <=? e then a / (d * 2 ^ e) else (a * 2 ^ (- e)) / d in
    let e2 := if quot e1 <? 2 ^ 52 then e1 - 1 else e1 in
    let e := Z.max e2 (-1074) in
    let num := if 0 <=? e then a else a * 2 ^ (- e) in
    let den := if 0 <=? e then d * 2 ^ e else d in
    let m := num / den in
    let r := num mod den in
    let m' := if 2 * r <? den then m
              else if den <? 2 * r then m + 1
              else if Z.even m then m else m + 1 in
    if 0 <=? e - 971
    then if 2 ^ 53 <=? m' * 2 ^ (e - 971)
         then Infinity (n <? 0)
         else Finite (scale2 (Z.sgn n * m') e)
    else Finite (scale2 (Z.sgn n * m') e).

(** ** [Number(string)]: the StringNumericLiteral grammar *)

Definition is_white (c : ascii) : bool :=
  match c with
  | "009" | "010" | "011" | "012" | "013" | " " | "160" => true
  | _ => false
  end%char.

Definition hex_digit_of (c : ascii) : option Z :=
  let n := Z.of_nat (nat_of_ascii c) in
  if (48 <=? n) && (n <=? 57) then Some (n - 48)
  else if (97 <=? n) && (n <=? 102) then Some (n - 87)
  else if (65 <=? n) && (n <=? 70) then Some (n - 55)
  else None.

Definition radix_digit (radix : Z) (c : ascii) : option Z :=
  match hex_digit_of c with
  | Some v => if v <? radix then Some v else None
  | None => None
  end.

Definition is_Some_b {A} (o : option A) : bool :=
  match o with Some _ => true | None => false end.

Fixpoint drop_white (s : string) : string :=
  match s with
  | String c s' => if is_white c then drop_white s' else s
  | EmptyString => s
  end.

Definition trim (s : string) : string :=
  String.rev (drop_white (String.rev (drop_white s))).

(** Longest prefix of digits in the given radix: its value, how many
    digits it has, and the rest of the input. *)
Fixpoint digits (radix : Z) (acc : Z) (len : nat) (s : string) : Z * nat * string :=
  match s with
  | String c s' =>
      match radix_digit radix c with
      | Some v => digits radix (acc * radix + v) (S len) s'
      | None => (acc, len, s)
      end
  | EmptyString => (acc, len, s)
  end.

(** A whole string of digits in the given radix (at least one). *)
Definition radix_literal (radix : Z) (s : string) : JsNumber :=
  match digits radix 0 0%nat s with
  | (v, S _, EmptyString) => round_double (inject_Z v)
  | _ => NaN
  end.

(** The optional exponent part [e±ddd]; [None] when what is left is not
    an exponent part. *)
Definition exponent_part (s : string) : option Z :=
  match s with
  | EmptyString => Some 0
  | String c s' =>
      if (Ascii.eqb c "e" || Ascii.eqb c "E")%char then
        let '(neg, s'') :=
          match s' with
          | String "+"%char t => (false, t)
          | String "-"%char t => (true, t)
          | _ => (false, s')
          end in
        match digits 10 0 0%nat s'' with
        | (v, S _, EmptyString) => Some (if neg : bool then - v else v)
        | _ => None
        end
      else None
  end.

Definition pow10 (q : Q) (e : Z) : Q :=
  if 0 <=? e then (q * inject_Z (10 ^ e))%Q
  else (q / inject_Z (10 ^ (- e)))%Q.

(** StrUnsignedDecimalLiteral: [Infinity], [ddd], [ddd.], [ddd.ddd],
    [.ddd], each of the digit forms with an optional exponent part. *)
Definition unsigned_decimal (neg : bool) (s : string) : JsNumber :=
  if String.eqb s "Infinity" then Infinity neg
  else
    let '(ip, ilen, r1) := digits 10 0 0%nat s in
    let '(fp, flen, r2) :=
      match r1 with
      | String "."%char t => digits 10 0 0%nat t
      | _ => (0, 0%nat, r1)
      end in
    let has_dot := match r1 with String "."%char _ => true | _ => false end in
    if (Nat.eqb ilen 0 && (negb has_dot || Nat.eqb flen 0))%bool then NaN
    else
      match exponent_part r2 with
      | None => NaN
      | Some e =>
          let mant := (inject_Z ip + inject_Z fp / inject_Z (10 ^ Z.of_nat flen))%Q in
          round_double (pow10 (if neg then - mant else mant)%Q e)
      end.

Definition Number_of_string (s : string) : JsNumber :=
  match trim s with
  | EmptyString => Finite 0
  | String "0"%char (String "x"%char t) | String "0"%char (String "X"%char t) =>
      radix_literal 16 t
  | String "0"%char (String "o"%char t) | String "0"%char (String "O"%char t) =>
      radix_literal 8 t
  | String "0"%char (String "b"%char t) | String "0"%char (String "B"%char t) =>
      radix_literal 2 t
  | String "+"%char t => unsigned_decimal false t
  | String "-"%char t => unsigned_decimal true t
  | t => unsigned_decimal false t
  end.

(** A string of decimal digits only. *)
Fixpoint digits_only (s : string) : bool :=
  match s with
  | EmptyString => true
  | String c s' => is_Some_b (radix_digit 10 c) && digits_only s'
  end.

(** [c] occurs in [s]. *)
Fixpoint has_char (c : ascii) (s : string) : bool :=
  match s with
  | EmptyString => false
  | String c' s' => Ascii.eqb c' c || has_char c s'
  end.

(** [Number(v)] on a value that is already a number, or a BigInt. *)
Inductive Numeric :=
  | number (n : JsNumber)
  | bigint (z : Z).

Definition Number (v : Numeric) : JsNumber :=
  match v with
  | number n => n
  | bigint z => round_double (inject_Z z)
  end.

(** An argument that may be [undefined]. *)
Definition Arg : Type := option JsNumber.
Abbreviation undefined := None (only parsing).

(** Property values: string | number | boolean | null. *)
Inductive Scalar :=
  | str (s : string)
  | num (n : JsNumber)
  | boolean (b : bool)
  | null.

(** ** Strings and arrays *)

(** [s.split(sep)] for a one-character separator. *)
Fixpoint split_go (sep : ascii) (cur : string) (s : string) : list string :=
  match s with
  | EmptyString => [String.rev cur]
  | String c s' =>
      if Ascii.eqb c sep then String.rev cur :: split_go sep EmptyString s'
      else split_go sep (String c cur) s'
  end.

Definition split (sep : ascii) (s : string) : list string :=
  split_go sep EmptyString s.

(** [Object.keys(o)]: the own keys, each once. Their order is the
    engine's; every use in the script sorts them at once. *)
Definition Object_keys {V} (o : gmap string V) : list string :=
  (map_to_list o).*1.

(** [a.sort()] on an array of strings: ascending code-unit order. *)
Definition sort (a : list string) : list string :=
  merge_sort String.le a.

(** [a.indexOf(x)]: the first index of [x], or -1. *)
Fixpoint indexOf (a : list string) (x : string) : Z :=
  match a with
  | [] => -1
  | y :: a' =>
      if String.eqb y x then 0
      else let i := indexOf a' x in if i =? -1 then -1 else i + 1
  end.

(** [a.splice(start, deleteCount)]: the array after the deletion. *)
Definition splice {A} (a : list A) (start deleteCount : Z) : list A :=
  let len := Z.of_nat (length a) in
  let from := if start <? 0 then Z.max (len + start) 0 else Z.min start len in
  let count := Z.min (Z.max deleteCount 0) (len - from) in
  take (Z.to_nat from) a ++ drop (Z.to_nat (from + count)) a.

(** ** [JSON.stringify] on an array of strings *)

Module JSON.

Definition quote : ascii := "034"%char.
Definition backslash : ascii := "092"%char.

Definition hex_char (n : N) : ascii :=
  ascii_of_N (if (n <? 10)%N then 48 + n else 87 + n)%N.

(** QuoteJSONString on one code unit. *)
Definition escape (c : ascii) : string :=
  let n := N_of_ascii c in
  if (n =? 8)%N then String backslash "b"
  else if (n =? 9)%N then String backslash "t"
  else if (n =? 10)%N then String backslash "n"
  else if (n =? 12)%N then String backslash "f"
  else if (n =? 13)%N then String backslash "r"
  else if (n =? 34)%N then String backslash (String quote "")
  else if (n =? 92)%N then String backslash (String backslash "")
  else if (n <? 32)%N then
    String backslash
      (String "u" (String "0" (String "0"
        (String (hex_char (n / 16)) (String (hex_char (n mod 16)) "")))))
  else String c "".

Fixpoint escape_all (s : string) : string :=
  match s with
  | EmptyString => ""
  | String c s' => escape c +:+ escape_all s'
  end.

Definition stringify_string (s : string) : string :=
  String quote (escape_all s +:+ String quote "").

Fixpoint stringify_elements (a : list string) : string :=
  match a with
  | [] => ""
  | [s] => stringify_string s
  | s :: a' => stringify_string s +:+ "," +:+ stringify_elements a'
  end.

Definition stringify (a : list string) : string :=
  "[" +:+ stringify_elements a +:+ "]".

(** Reading [escape] back: the code unit at the head of an escaped string
    and what follows it; [None] at a closing quote. It is used to show
    that [stringify] tells different arrays apart. *)
Definition hex_value (c : ascii) : N :=
  let n := N_of_ascii c in
  if (n <? 58)%N then (n - 48)%N else (n - 87)%N.

Definition unescape (s : string) : option (ascii * string) :=
  match s with
  | EmptyString => None
  | String c r =>
      if Ascii.eqb c quote then None
      else if Ascii.eqb c backslash then
        match r with
        | String "b" r' => Some ("008"%char, r')
        | String "t" r' => Some ("009"%char, r')
        | String "n" r' => Some ("010"%char, r')
        | String "f" r' => Some ("012"%char, r')
        | String "r" r' => Some ("013"%char, r')
        | String "u" (String _ (String _ (String h (String l r')))) =>
            Some (ascii_of_N (16 * hex_value h + hex_value l), r')
        | String c' r' => Some (c', r')
        | EmptyString => None
        end
      else Some (c, r)
  end.

End JSON.

End Js.

(* ================================================================== *)
(** * The process: console, exit and exceptions *)
(* ================================================================== *)

Module Process.

Inductive Stream := stdout | stderr.

Record Line := { stream : Stream; text : string }.

Inductive JsError :=
  | TypeError (message : string)
  | Error (message : string)
  | ENOENT (path : string).

(** What the operator sees, and how many decoder calls have been made so
    far (the decoders are external; one that is not a pure function may
    answer a later call differently). *)
Record World := {
  output : list Line;
  decodes : nat
}.

Definition start : World := {| output := []; decodes := 0 |}.

(** A computation returns, ends the process with [process.exit(code)],
    throws an exception that nothing in the script catches, or awaits a
    promise that nothing settles: then it never returns to its caller. *)
Inductive Outcome (A : Type) :=
  | Return (a : A)
  | Exit (code : Z)
  | Throw (e : JsError)
  | Pending.
Arguments Return {A} a.
Arguments Exit {A} code.
Arguments Throw {A} e.
Arguments Pending {A}.

Definition Proc (A : Type) : Type := World -> Outcome A * World.

Definition ret {A} (a : A) : Proc A := fun w => (Return a, w).

Definition bind {A B} (m : Proc A) (k : A -> Proc B) : Proc B :=
  fun w =>
    match m w with
    | (Return a, w') => k a w'
    | (Exit c, w') => (Exit c, w')
    | (Throw e, w') => (Throw e, w')
    | (Pending, w') => (Pending, w')
    end.

#[global] Instance Proc_ret : MRet Proc := @ret.
#[global] Instance Proc_bind : MBind Proc := fun A B k m => bind m k.

Definition throw {A} (e : JsError) : Proc A := fun w => (Throw e, w).

(** [await] of a promise that is never settled. *)
Definition pending {A} : Proc A := fun w => (Pending, w).

(** The world after some more lines of output. *)
Definition add_lines (w : World) (lines : list Line) : World :=
  {| output := output w ++ lines; decodes := decodes w |}.

(** The world after [n] more decoder calls. *)
Definition bump (n : nat) (w : World) : World :=
  {| output := output w; decodes := n + decodes w |}.

Definition print (st : Stream) (s : string) : Proc unit :=
  fun w => (Return tt, add_lines w [{| stream := st; text := s |}]).

Module console.
Definition log (s : string) : Proc unit := print stdout s.
Definition error (s : string) : Proc unit := print stderr s.
(** [console.assert] of Node's [console] module: a failed assertion
    writes a line to stderr and returns. *)
Definition assert (cond : bool) (message : string) : Proc unit :=
  if cond then ret tt else print stderr ("Assertion failed: " +:+ message).
End console.

Module process.
Definition exit {A} (code : Z) : Proc A := fun w => (Exit code, w).
End process.

(** The line a failed [console.assert] leaves on stderr. *)
Definition assertion_failed (message : string) : Line :=
  {| stream := stderr; text := "Assertion failed: " +:+ message |}.

Definition is_assertion (l : Line) : Prop :=
  exists message, l = assertion_failed message.

(** [contains needle s]: [needle] occurs somewhere in [s]. *)
Fixpoint contains (needle s : string) : bool :=
  String.prefix needle s ||
  match s with
  | EmptyString => false
  | String _ s' => contains needle s'
  end.

(** [for (const x of xs) body], with the loop's mutable variables as [s]. *)
Fixpoint for_of {A St} (xs : list A) (body : A -> St -> Proc St) (s : St)
    : Proc St :=
  match xs with
  | [] => ret s
  | x :: xs' => s' ← body x s; for_of xs' body s'
  end.

(** [for (let i = 0; i < n; i++) body]. *)
Definition for_range {St} (n : nat) (body : nat -> St -> Proc St) (s : St)
    : Proc St :=
  for_of (seq 0 n) body s.

(** [body] run [n] times in a row: what a loop whose body does not look
    at the loop variable amounts to. *)
Fixpoint times {St} (n : nat) (body : St -> Proc St) (s : St) : Proc St :=
  match n with
  | O => ret s
  | S n' => s' ← body s; times n' body s'
  end.

End Process.

Import Js.

(* ================================================================== *)
(** * GeoJSON objects *)
(* ================================================================== *)

Module GeoJSON.

(** [C] is the type of the values found under ["coordinates"]. *)
Module Geometry.
Record t (C : Type) := mk {
  type : string;
  coordinates : option C
}.
Arguments mk {C}.
Arguments type {C}.
Arguments coordinates {C}.
End Geometry.

Module Feature.
Record t (C : Type) := mk {
  type : string;
  id : JsNumber;
  geometry : Geometry.t C;
  properties : gmap string Scalar
}.
Arguments mk {C}.
Arguments type {C}.
Arguments id {C}.
Arguments geometry {C}.
Arguments properties {C}.
End Feature.

End GeoJSON.

(* ================================================================== *)
(** * [class Feature] *)
(* ================================================================== *)

Module Feature.

(** A property of an object that the code probes with
    [typeof o.p === 'function']. *)
Inductive Method (A : Type) :=
  | absent
  | not_a_function
  | function (f : A).
Arguments absent {A}.
Arguments not_a_function {A}.
Arguments function {A} f.

(** The [geometry] field: an object that may carry its own [loadGeometry]
    and [toGeoJSON] methods, and that is otherwise a coordinate pair. *)
Module Geometry.
#[local] Unset Elimination Schemes.
Inductive t (C : Type) := mk {
  x : JsNumber;
  y : JsNumber;
  loadGeometry : Method (unit -> list (list (t C)));
  toGeoJSON : Method (Arg -> Arg -> Arg -> GeoJSON.Geometry.t C)
}.
#[local] Set Elimination Schemes.
Arguments mk {C}.
Arguments x {C}.
Arguments y {C}.
Arguments loadGeometry {C}.
Arguments toGeoJSON {C}.

(** A bare coordinate pair. *)
Definition point {C} (x y : JsNumber) : t C :=
  mk x y absent absent.
End Geometry.

Record t (C : Type) := mk {
  id : Numeric;
  geometry : Geometry.t C;
  properties : gmap string Scalar
}.
Arguments mk {C}.
Arguments id {C}.
Arguments geometry {C}.
Arguments properties {C}.

Section methods.
Context {C : Type}.

(** [import { project } from './Projection']: the projection of
    tile-local points of tile (x, y, z) is taken as given. *)
Variable project : Arg -> Arg -> Arg -> list (Geometry.t C) -> list C.

Definition loadGeometry (this : t C) : list (list (Geometry.t C)) :=
  match Geometry.loadGeometry (geometry this) with
  | function f => f tt
  | _ => [[geometry this]]
  end.

Definition toGeoJSON (this : t C) (x y z : Arg) : GeoJSON.Feature.t C :=
  let geometry :=
    match Geometry.toGeoJSON (geometry this) with
    | function f => f x y z
    | _ =>
        let projected := project x y z [geometry this] in
        GeoJSON.Geometry.mk "Point" (projected !! 0%nat)
    end in
  GeoJSON.Feature.mk "Feature" (Number (id this)) geometry (properties this).
End methods.

End Feature.

(* ================================================================== *)
(** * The external decoders' views *)
(* ================================================================== *)

(** Modelled from the spec: the decoded tile and its layers ([decoded.layers],
    [layer.length], [layer.feature(i)]) come from [MltDecoder] in
    [../src/index] and from [@mapbox/vector-tile], neither of which is among
    the sources. A decoded tile maps layer names to layers; a layer is the
    sequence of its features, [length] their number and [feature(i)] the
    i-th of them. *)
Abbreviation Layers F := (gmap string (list F)).

Module VectorTile.
(** What the script reads of [mvtFeature.toGeoJSON(x, y, z)]. *)
Record Json (C : Type) := { geometry : GeoJSON.Geometry.t C }.
Arguments geometry {C}.

(** A feature of [@mapbox/vector-tile], by what the script uses of it. *)
Record Feature (C : Type) := {
  properties : gmap string Scalar;
  loadGeometry : unit -> list (list (Js.JsNumber * Js.JsNumber));
  toGeoJSON : Arg -> Arg -> Arg -> Json C
}.
Arguments properties {C}.
Arguments loadGeometry {C}.
Arguments toGeoJSON {C}.
End VectorTile.

(* ================================================================== *)
(** * [bench/decode.ts] *)
(* ================================================================== *)

Module Bench.
Import Process.

Definition Buffer : Type := list Byte.byte.

(** The flags read from the command line: [--validate], [--mlt], [--mvt],
    [--mltjson], [--mvtjson]. The top level of the script (the list of
    tiles and [--one], the generation of missing fixtures by the Java
    encoder, the usage error when no benchmark is requested) comes before
    [runSuites]; it is [Script.main] below. *)
Record Flags := {
  willValidate : bool;
  willRunMLT : bool;
  willRunMVT : bool;
  willRunMLTJSON : bool;
  willRunMVTJSON : bool
}.

Definition tiles : list string :=
  [ "bing/4-8-5"; "bing/4-12-6"; "bing/4-13-6"; "bing/5-15-10";
    "bing/5-16-11"; "bing/5-16-9"; "bing/5-17-10"; "bing/5-17-11" ].

Definition IN_LOOP_ITERATIONS : nat := 5.

Section script.
(** [C]: GeoJSON coordinate values; [TableMeta]: what
    [TileSetMetadata.fromBinary] returns. *)
Context {C TableMeta : Type}.

(** The collaborators of the script. A decoder is given the number of
    decoder calls made before this one, so that it need not be a pure
    function. [samples name] is how many times benchmark.js
    decides to call [fn] of the benchmark [name] (it depends on the
    clock and on [minTime] and [maxTime]); [cycle name] is the
    throughput line [String(event.target)]. *)
Record Env := {
  readFileSync : string -> option Buffer;
  fromBinary : Buffer -> TableMeta;
  decodeMlTile : nat -> Buffer -> TableMeta -> Layers (Feature.t C);
  VectorTile : nat -> Buffer -> Layers (VectorTile.Feature C);
  project : Arg -> Arg -> Arg -> list (Feature.Geometry.t C) -> list C;
  samples : string -> nat;
  cycle : string -> string
}.

Variable args : Flags.
Variable env : Env.

(** The object [load] returns. *)
Record Input := {
  tile : string;
  x : Arg;
  y : Arg;
  z : Arg;
  mltTile : Buffer;
  mvtTile : Buffer;
  tableMeta : TableMeta
}.

Definition readFile (path : string) : Proc Buffer :=
  match readFileSync env path with
  | Some b => mret b
  | None => throw (ENOENT path)
  end.

Definition load (tile : string) : Proc Input :=
  metadata ← readFile ("../test/expected/" +:+ tile +:+ ".mlt.meta.pbf");
  mvtTile ← readFile ("../test/fixtures/" +:+ tile +:+ ".mvt");
  mltTile ← readFile ("../test/expected/" +:+ tile +:+ ".mlt");
  match split "/" tile !! 1%nat with
  | None =>
      throw (TypeError "Cannot read properties of undefined (reading 'split')")
  | Some segment =>
      let uri := Number_of_string <$> split "-" segment in
      let z := uri !! 0%nat in
      let x := uri !! 1%nat in
      let y := uri !! 2%nat in
      let tableMeta := fromBinary env metadata in
      mret {| tile := tile; x := x; y := y; z := z; mltTile := mltTile;
              mvtTile := mvtTile; tableMeta := tableMeta |}
  end.

(** A call of a decoder. *)
Definition decode_with {F} (decoder : nat -> Layers F) : Proc (Layers F) :=
  fun w =>
    (Return (decoder (decodes w)),
     {| output := output w; decodes := S (decodes w) |}).

(** [MltDecoder.decodeMlTile(input.mltTile, input.tableMeta)] *)
Definition decodeMlt (input : Input) : Proc (Layers (Feature.t C)) :=
  decode_with (fun n => decodeMlTile env n (mltTile input) (tableMeta input)).

(** [new VectorTile(new Protobuf(input.mvtTile))] *)
Definition decodeMvt (input : Input) : Proc (Layers (VectorTile.Feature C)) :=
  decode_with (fun n => VectorTile env n (mvtTile input)).

(** [Object.keys(decoded.layers).sort()] *)
Definition layerNames {F} (decoded : Layers F) : list string :=
  sort (Object_keys decoded).

(** [layers[layerName]] followed by a property access or call on it. *)
Definition lookup_layer {F} (layers : Layers F) (layerName : string)
    : Proc (list F) :=
  match layers !! layerName with
  | Some layer => mret layer
  | None => throw (TypeError "Cannot read properties of undefined")
  end.

(** [layer.feature(i)] of the MLT layer: the i-th feature. *)
Definition mlt_feature (layer : list (Feature.t C)) (i : nat)
    : Proc (Feature.t C) :=
  match layer !! i with
  | Some f => mret f
  | None => throw (TypeError "Cannot read properties of undefined")
  end.

(** [mvtLayer.feature(i)] of [@mapbox/vector-tile]: it throws on an index
    outside the layer; [mvtLayer] itself is [undefined] when the
    reference tile has no layer of that name. *)
Definition mvt_feature (mvtLayer : option (list (VectorTile.Feature C)))
    (i : nat) : Proc (VectorTile.Feature C) :=
  match mvtLayer with
  | None => throw (TypeError "Cannot read properties of undefined (reading 'feature')")
  | Some l =>
      match l !! i with
      | Some f => mret f
      | None => throw (Error "feature index out of bounds")
      end
  end.

(** The workaround of issue 181 on the sorted keys of the MVT feature. *)
Definition drop_id (mvtFeatureKeys : list string) : list string :=
  if negb (indexOf mvtFeatureKeys "id" =? -1)
  then splice mvtFeatureKeys (indexOf mvtFeatureKeys "id") 1
  else mvtFeatureKeys.

(** The body of the loop over the features of one layer. *)
Definition validate_feature (input : Input)
    (layer : list (Feature.t C))
    (mvtLayer : option (list (VectorTile.Feature C)))
    (i : nat) : Proc unit :=
  feature ← mlt_feature layer i;
  mvtFeature ← mvt_feature mvtLayer i;
  let featureKeys := sort (Object_keys (Feature.properties feature)) in
  let mvtFeatureKeys := sort (Object_keys (VectorTile.properties mvtFeature)) in
  let mvtFeatureKeys := drop_id mvtFeatureKeys in
  console.assert (length featureKeys =? length mvtFeatureKeys)%nat
    ("Feature keys mismatch for " +:+ tile input);;
  let featureKeysStr := JSON.stringify featureKeys in
  let mvtFeatureKeysStr := JSON.stringify mvtFeatureKeys in
  (if negb (String.eqb featureKeysStr mvtFeatureKeysStr) then
     console.error ("Validation failed for " +:+ tile input +:+ " " +:+ pretty i);;
     console.log featureKeysStr;;
     console.log "  vs";;
     console.log mvtFeatureKeysStr;;
     process.exit 1
   else mret tt);;
  let json := Feature.toGeoJSON (project env) feature (x input) (y input) (z input) in
  let mvtJson := VectorTile.toGeoJSON mvtFeature (x input) (y input) (z input) in
  console.assert
    (String.eqb (GeoJSON.Geometry.type (GeoJSON.Feature.geometry json))
                (GeoJSON.Geometry.type (VectorTile.geometry mvtJson)))
    ("Geometry type mismatch for " +:+ tile input +:+ " " +:+ pretty i).

(** The body of the loop over the layer names; [count] is the loop's
    counter. *)
Definition validate_layer (input : Input)
    (decoded : Layers (Feature.t C))
    (mvtDecoded : Layers (VectorTile.Feature C))
    (layerName : string) (count : nat) : Proc nat :=
  layer ← lookup_layer decoded layerName;
  let mvtLayer := mvtDecoded !! layerName in
  for_range (length layer) (fun i _ => validate_feature input layer mvtLayer i) tt;;
  mret (count + 1)%nat.

Definition validate (input : Input) : Proc unit :=
  decoded ← decodeMlt input;
  mvtDecoded ← decodeMvt input;
  let layerNames := layerNames decoded in
  count ← for_of layerNames (validate_layer input decoded mvtDecoded) 0%nat;
  console.assert (0 <? count)%nat ("Validation count mismatch for " +:+ tile input);;
  mret tt.

(** [layer.feature(j)] in the loops of a benchmark. *)
Definition nth_feature {F} (layer : list F) (j : nat) : Proc F :=
  match layer !! j with
  | Some f => mret f
  | None => throw (TypeError "Cannot read properties of undefined")
  end.

(** The traversal of one pass of a benchmark: every feature of every
    layer is fetched, [op] is called on it and its result dropped;
    [count] is the number of features visited. *)
Definition traverse {F R} (op : F -> R) (decoded : Layers F) : Proc nat :=
  let layerNames := layerNames decoded in
  for_of layerNames (fun layerName count =>
    layer ← lookup_layer decoded layerName;
    for_range (length layer) (fun j count =>
      feature ← nth_feature layer j;
      let result := op feature in
      mret (count + 1)%nat) count) 0%nat.

(** The test on [opts] that ends each pass. *)
Definition check_count (tile : string) (count : nat) (opts : option nat)
    : Proc (option nat) :=
  match opts with
  | None => mret (Some count)
  | Some n =>
      if negb (count =? n)%nat || (count <? 1)%nat then
        console.error ("Feature count mismatch for " +:+ tile);;
        process.exit 1
      else mret opts
  end.

(** The [fn] of a benchmark: [IN_LOOP_ITERATIONS] passes. [opts] is the
    variable of the enclosing block, [null] until the first pass. The
    four blocks of [runSuite] differ in the decoder, in the operation and
    in their labels only. *)
Definition fn {F R} (decode : Proc (Layers F)) (op : F -> R) (tile : string)
    (opts : option nat) : Proc (option nat) :=
  for_range IN_LOOP_ITERATIONS (fun i opts =>
    decoded ← decode;
    count ← traverse op decoded;
    check_count tile count opts) opts.

(** benchmark.js runs one benchmark: it calls [fn] as often as it sees
    fit, then fires the suite's [cycle] event. *)
Definition run_benchmark (name : string)
    (fn : option nat -> Proc (option nat)) : Proc (option nat) :=
  opts ← for_range (samples env name) (fun _ opts => fn opts) None;
  console.log (cycle env name);;
  mret opts.

(** A block [if (willRun...) { ... suite.add(name, ...) }]: the final
    value of its [opts] if the benchmark was added. *)
Definition scenario (enabled : bool) (name : string)
    (fn : option nat -> Proc (option nat)) : Proc (option (option nat)) :=
  if enabled then opts ← run_benchmark name fn; mret (Some opts)
  else mret None.

(** The [complete] listener of a block. *)
Definition on_complete (label : string) (ran : option (option nat)) : Proc unit :=
  match ran with
  | Some opts =>
      console.log ("  Total " +:+ label +:+ " processed: " +:+
                   match opts with Some n => pretty n | None => "null" end)
  | None => mret tt
  end.

(** The promise that [runSuite] returns: [resolve] is called by the
    [complete] listeners and nowhere else, and a block that is skipped
    registers none. When no block is entered the promise stays
    pending. *)
Definition settled (ran : list (option (option nat))) : Proc unit :=
  if existsb is_Some_b ran then mret tt else pending.

Definition runSuite (input : Input) : Proc unit :=
  let tile := tile input in
  let x := x input in let y := y input in let z := z input in
  mvt ← scenario (willRunMVT args) ("MVT -> loadGeo " +:+ tile)
          (fn (decodeMvt input) (fun f => VectorTile.loadGeometry f tt) tile);
  mlt ← scenario (willRunMLT args) ("MLT -> loadGeo " +:+ tile)
          (fn (decodeMlt input) Feature.loadGeometry tile);
  mvtjson ← scenario (willRunMVTJSON args) ("MVT -> GeoJSON " +:+ tile)
          (fn (decodeMvt input) (fun f => VectorTile.toGeoJSON f x y z) tile);
  mltjson ← scenario (willRunMLTJSON args) ("MLT -> GeoJSON " +:+ tile)
          (fn (decodeMlt input)
              (fun f => Feature.toGeoJSON (project env) f x y z) tile);
  on_complete "MVT features(loadGeometry)" mvt;;
  on_complete "MLT features(loadGeometry)" mlt;;
  on_complete "MVT features(json)" mvtjson;;
  on_complete "MLT features(json)" mltjson;;
  settled [mvt; mlt; mvtjson; mltjson].

(** The check mark U+2714 of the success line, in UTF-8. *)
Definition check_mark : string :=
  String "226" (String "156" (String "148" EmptyString)).

Definition runSuites (tiles : list string) : Proc unit :=
  inputs ← for_of tiles (fun tile inputs =>
              input ← load tile; mret (inputs ++ [input])%list) [];
  (if willValidate args then
     for_of inputs (fun input _ =>
       console.log ("Validating result for " +:+ tile input);;
       validate input;;
       console.log (" " +:+ check_mark +:+ " passed for " +:+ tile input)) tt
   else mret tt);;
  for_of inputs (fun input _ =>
    console.log ("Running benchmarks for " +:+ tile input);;
    runSuite input) tt.

End script.

Arguments Env : clear implicits.
Arguments Input : clear implicits.

(** ** Notions used to state what the script does *)

(** The same collaborators with another reference decoder. *)
Definition with_VectorTile {C TableMeta} (env : Env C TableMeta)
    (decoder : nat -> Buffer -> Layers (VectorTile.Feature C)) : Env C TableMeta :=
  {| readFileSync := readFileSync env;
     fromBinary := fromBinary env;
     decodeMlTile := decodeMlTile env;
     VectorTile := decoder;
     project := project env;
     samples := samples env;
     cycle := cycle env |}.

(** The reference tile with each layer cut down to the number of features
    the MLT tile has in the layer of the same name. *)
Definition clip_to {F G} (decoded : Layers F) (mvtDecoded : Layers G) : Layers G :=
  map_imap (fun layerName mvtLayer =>
    Some (take (length (default [] (decoded !! layerName))) mvtLayer)) mvtDecoded.

(** The reference tile without the layers whose names the MLT tile lacks. *)
Definition restrict_to {F G} (decoded : Layers F) (mvtDecoded : Layers G) : Layers G :=
  filter (fun entry => is_Some (decoded !! entry.1)) mvtDecoded.

(** The number of features of a decoded tile. *)
Definition feature_count {F} (decoded : Layers F) : nat :=
  sum_list_with (fun entry => length entry.2) (map_to_list decoded).

(** The key sets of an indexed pair of features differ, apart from an
    [id] key of the reference feature. *)
Definition keys_differ {C} (feature : Feature.t C) (mvtFeature : VectorTile.Feature C)
    : Prop :=
  dom (Feature.properties feature)
  <> dom (delete "id" (VectorTile.properties mvtFeature)).

(** The line of the geometry assertion for a pair, if it fails. *)
Definition geometry_line {C TableMeta} (env : Env C TableMeta)
    (input : Input TableMeta) (feature : Feature.t C)
    (mvtFeature : VectorTile.Feature C) (i : nat) : list Line :=
  if String.eqb
       (GeoJSON.Geometry.type (GeoJSON.Feature.geometry
          (Feature.toGeoJSON (project env) feature (x input) (y input) (z input))))
       (GeoJSON.Geometry.type (VectorTile.geometry
          (VectorTile.toGeoJSON mvtFeature (x input) (y input) (z input))))
  then []
  else [assertion_failed
          ("Geometry type mismatch for " +:+ tile input +:+ " " +:+ pretty i)].

(** The four lines printed for a pair whose keys differ. *)
Definition keys_report {C} (tile : string) (i : nat)
    (feature : Feature.t C) (mvtFeature : VectorTile.Feature C) : list Line :=
  [ {| stream := stderr;
       text := "Validation failed for " +:+ tile +:+ " " +:+ pretty i |};
    {| stream := stdout;
       text := JSON.stringify (sort (Object_keys (Feature.properties feature))) |};
    {| stream := stdout; text := "  vs" |};
    {| stream := stdout;
       text := JSON.stringify
                 (sort (Object_keys (delete "id" (VectorTile.properties mvtFeature)))) |} ].

(** The feature [i] of layer [layerName] on both sides. *)
Definition pair_at {C} (decoded : Layers (Feature.t C))
    (mvtDecoded : Layers (VectorTile.Feature C)) (layerName : string) (i : nat)
    (feature : Feature.t C) (mvtFeature : VectorTile.Feature C) : Prop :=
  exists layer mvtLayer,
    decoded !! layerName = Some layer /\ layer !! i = Some feature /\
    mvtDecoded !! layerName = Some mvtLayer /\ mvtLayer !! i = Some mvtFeature.

(** The line printed when the count of a pass is not the recorded one. *)
Definition count_mismatch (tile : string) : Line :=
  {| stream := stderr; text := "Feature count mismatch for " +:+ tile |}.

(** One pass of a benchmark: decode, traverse, test the count. *)
Definition pass {F R} (decoder : nat -> Layers F) (op : F -> R) (tile : string)
    (opts : option nat) : Proc (option nat) :=
  decoded ← decode_with decoder;
  count ← traverse op decoded;
  check_count tile count opts.

(** Every feature of the MLT tile has a reference feature at its layer
    name and index. *)
Definition covered {F G} (decoded : Layers F) (mvtDecoded : Layers G) : Prop :=
  forall layerName layer,
    decoded !! layerName = Some layer ->
    exists mvtLayer,
      mvtDecoded !! layerName = Some mvtLayer /\
      (length layer <= length mvtLayer)%nat.

(** Every feature of the MLT tile has a reference feature at its layer
    name and index, and the two have the same keys, an [id] key of the
    reference feature apart. *)
Definition matched {C} (decoded : Layers (Feature.t C))
    (mvtDecoded : Layers (VectorTile.Feature C)) : Prop :=
  forall layerName layer i feature,
    decoded !! layerName = Some layer -> layer !! i = Some feature ->
    exists mvtFeature,
      pair_at decoded mvtDecoded layerName i feature mvtFeature /\
      ~ keys_differ feature mvtFeature.

(** Feature [j] of layer [layerName'] is visited before feature [i] of
    layer [layerName] by the loops of [validate]: its layer comes earlier
    in the list of layer names that [validate] iterates over, or it is
    the same layer and [j < i]. *)
Definition visited_before {F} (decoded : Layers F)
    (layerName' : string) (j : nat) (layerName : string) (i : nat) : Prop :=
  exists k' k,
    layerNames decoded !! k' = Some layerName' /\
    layerNames decoded !! k = Some layerName /\
    (k' < k \/ (k' = k /\ j < i))%nat.

(** Every feature of the MLT tile that is visited before feature [i] of
    layer [layerName] has a reference feature with the same keys. *)
Definition matched_before {C} (decoded : Layers (Feature.t C))
    (mvtDecoded : Layers (VectorTile.Feature C))
    (layerName : string) (i : nat) : Prop :=
  forall layerName' layer j feature,
    visited_before decoded layerName' j layerName i ->
    decoded !! layerName' = Some layer -> layer !! j = Some feature ->
    exists mvtFeature,
      pair_at decoded mvtDecoded layerName' j feature mvtFeature /\
      ~ keys_differ feature mvtFeature.

(** Every feature of the MLT tile that is not visited after a pair whose
    keys differ has a reference feature: the reference tile may lack
    features only behind such a pair. *)
Definition covered_until_mismatch {C} (decoded : Layers (Feature.t C))
    (mvtDecoded : Layers (VectorTile.Feature C)) : Prop :=
  forall layerName layer i feature,
    decoded !! layerName = Some layer -> layer !! i = Some feature ->
    (forall layerName' j feature' mvtFeature',
        visited_before decoded layerName' j layerName i ->
        pair_at decoded mvtDecoded layerName' j feature' mvtFeature' ->
        ~ keys_differ feature' mvtFeature') ->
    exists mvtFeature, pair_at decoded mvtDecoded layerName i feature mvtFeature.

(** The MLT tile has a feature [i] in its layer [layerName] and the
    reference tile has none there: it lacks the layer, or its layer is too
    short. *)
Definition unpaired {F G} (decoded : Layers F) (mvtDecoded : Layers G)
    (layerName : string) (i : nat) : Prop :=
  exists layer,
    decoded !! layerName = Some layer /\ (i < length layer)%nat /\
    match mvtDecoded !! layerName with
    | None => True
    | Some mvtLayer => (length mvtLayer <= i)%nat
    end.

(** What [mvtLayer.feature(i)] throws where the reference tile has no
    feature. *)
Definition reference_error {G} (mvtLayer : option (list G)) : JsError :=
  match mvtLayer with
  | None => TypeError "Cannot read properties of undefined (reading 'feature')"
  | Some _ => Error "feature index out of bounds"
  end.

(** The benchmarks that the flags enable, in the order of the blocks of
    [runSuite]: the name of each, the label of its total and the number
    of features of the tile it decodes ([mvt] or [mlt]). *)
Definition enabled (args : Flags) (tile : string) (mvt mlt : nat)
    : list (string * string * nat) :=
  ((if willRunMVT args
    then [("MVT -> loadGeo " +:+ tile, "MVT features(loadGeometry)", mvt)] else []) ++
   (if willRunMLT args
    then [("MLT -> loadGeo " +:+ tile, "MLT features(loadGeometry)", mlt)] else []) ++
   (if willRunMVTJSON args
    then [("MVT -> GeoJSON " +:+ tile, "MVT features(json)", mvt)] else []) ++
   (if willRunMLTJSON args
    then [("MLT -> GeoJSON " +:+ tile, "MLT features(json)", mlt)] else []))%list.

(** Some benchmark is enabled: a block of [runSuite] is entered. *)
Definition benchmarking (args : Flags) : bool :=
  willRunMVT args || willRunMLT args || willRunMVTJSON args || willRunMLTJSON args.

(** The line of the [cycle] event of a benchmark. *)
Definition cycle_line {C TableMeta} (env : Env C TableMeta) (name : string) : Line :=
  {| stream := stdout; text := cycle env name |}.

(** The line of the [complete] event of a benchmark that recorded [count]. *)
Definition total_line (label : string) (count : nat) : Line :=
  {| stream := stdout;
     text := "  Total " +:+ label +:+ " processed: " +:+ pretty count |}.

(** The lines of a suite whose benchmarks all complete: the throughput
    lines, then the totals. *)
Definition suite_lines {C TableMeta} (env : Env C TableMeta)
    (benchmarks : list (string * string * nat)) : list Line :=
  (((fun b => cycle_line env b.1.1) <$> benchmarks) ++
   ((fun b => total_line b.1.2 b.2) <$> benchmarks))%list.

(** The number of passes of such a suite. *)
Definition suite_passes {C TableMeta} (env : Env C TableMeta)
    (benchmarks : list (string * string * nat)) : nat :=
  sum_list_with (fun b => (samples env b.1.1 * IN_LOOP_ITERATIONS)%nat) benchmarks.

(** The benchmarks of the tile of [input], with the numbers of features
    that the first calls of the decoders find. *)
Definition benchmarks_of {C TableMeta} (args : Flags) (env : Env C TableMeta)
    (input : Input TableMeta) : list (string * string * nat) :=
  enabled args (tile input)
    (feature_count (VectorTile env 0 (mvtTile input)))
    (feature_count (decodeMlTile env 0 (mltTile input) (tableMeta input))).

(** The decoders find the same number of features at every call on the
    tiles of [input], and at least one feature in the tiles that the
    enabled benchmarks decode. *)
Definition steady_counts {C TableMeta} (args : Flags) (env : Env C TableMeta)
    (input : Input TableMeta) : Prop :=
  (forall n, feature_count (VectorTile env n (mvtTile input))
             = feature_count (VectorTile env 0 (mvtTile input))) /\
  (forall n, feature_count (decodeMlTile env n (mltTile input) (tableMeta input))
             = feature_count (decodeMlTile env 0 (mltTile input) (tableMeta input))) /\
  Forall (fun b => (1 <= b.2)%nat) (benchmarks_of args env input).

(** The lines of the benchmarks of a tile when they all complete. *)
Definition run_lines {C TableMeta} (args : Flags) (env : Env C TableMeta)
    (input : Input TableMeta) : list Line :=
  {| stream := stdout; text := "Running benchmarks for " +:+ tile input |}
  :: suite_lines env (benchmarks_of args env input).

(** The lines of the validation of a tile that passes, around the lines
    [pre] of its failed assertions. *)
Definition validation_lines (tile : string) (pre : list Line) : list Line :=
  ({| stream := stdout; text := "Validating result for " +:+ tile |} :: pre
   ++ [ {| stream := stdout;
           text := " " +:+ check_mark +:+ " passed for " +:+ tile |} ])%list.

End Bench.

(* ================================================================== *)
(** * The top level of the script *)
(* ================================================================== *)

Module Script.
Import Process Bench.

(** [args.includes(flag)] *)
Definition includes (args : list string) (flag : string) : bool :=
  bool_decide (flag ∈ args).

(** What the top level asks of its surroundings: whether a file exists,
    the outcome of a shell command run in directory [cwd] ([None]: it
    succeeds, [Some e]: [execSync] throws [e]), and the environment
    variable [GITHUB_RUN_ID]. The file system that [load] reads afterwards
    is [readFileSync] of [Env]. [output] holds the lines the script itself
    prints, not those of the commands. *)
Record Shell := {
  existsSync : string -> bool;
  execSync : option string -> string -> option JsError;
  GITHUB_RUN_ID : option string
}.

(** A string as a condition: the empty string and [undefined] are false. *)
Definition truthy (v : option string) : bool :=
  match v with
  | Some (String _ _) => true
  | _ => false
  end.

Definition usage : string :=
  "Please provide at least one of --mlt, --mltjson, --mvt, or --mvtjson flags to run benchmarks.".

(** The command that encodes the fixture of a tile. *)
Definition encode_command (tile : string) : string :=
  "java -jar ../java/build/libs/encode.jar -mvt ../test/fixtures/" +:+ tile +:+
  ".mvt -metadata -decode -mlt ../test/expected/" +:+ tile +:+ ".mlt".

Section main.
Context {C TableMeta : Type}.
Variable sh : Shell.
Variable env : Env C TableMeta.

Definition exec (cwd : option string) (cmd : string) : Proc unit :=
  match execSync sh cwd cmd with
  | None => mret tt
  | Some e => throw e
  end.

(** The encoder is built if its jar is not there. *)
Definition build_encoder : Proc unit :=
  if negb (existsSync sh "../java/build/libs/encode.jar") then
    console.log "encode.jar does not exist, building java project...";;
    exec (Some "../java") "./gradlew cli"
  else mret tt.

(** [tiles.forEach]: the fixtures of a tile are generated if its metadata
    file is not there. *)
Definition generate (tiles : list string) : Proc unit :=
  for_of tiles (fun tile _ =>
    if negb (existsSync sh ("../test/expected/" +:+ tile +:+ ".mlt.meta.pbf")) then
      console.log "Generating MLT tiles & metadata";;
      let cmd := encode_command tile in
      console.log cmd;;
      exec None cmd
    else mret tt) tt.

(** The script, run with [process.argv = argv]. *)
Definition main (argv : list string) : Proc unit :=
  let args := drop 2 argv in
  let tiles := if includes args "--one" then take 1 tiles else tiles in
  build_encoder;;
  generate tiles;;
  let willValidate := includes args "--validate" in
  let willRunMLT := includes args "--mlt" in
  let willRunMVT := includes args "--mvt" in
  let willRunMLTJSON := includes args "--mltjson" in
  let willRunMVTJSON := includes args "--mvtjson" in
  (if negb willRunMLT && negb willRunMVT && negb willRunMLTJSON && negb willRunMVTJSON
   then console.error usage;; process.exit 1
   else mret tt);;
  let maxTime := if truthy (GITHUB_RUN_ID sh) then 2%nat else 20%nat in
  (if truthy (GITHUB_RUN_ID sh) then
     console.log ("Running in CI, using smaller maxTime: " +:+ pretty maxTime +:+ " seconds")
   else mret tt);;
  runSuites
    {| willValidate := willValidate; willRunMLT := willRunMLT;
       willRunMVT := willRunMVT; willRunMLTJSON := willRunMLTJSON;
       willRunMVTJSON := willRunMVTJSON |}
    env tiles.

End main.

(** ** Notions used to state what the top level does *)

(** The tiles of a run. *)
Definition selected (argv : list string) : list string :=
  if includes (drop 2 argv) "--one" then take 1 tiles else tiles.

(** The flags of a run. *)
Definition flags_of (argv : list string) : Flags :=
  {| willValidate := includes (drop 2 argv) "--validate";
     willRunMLT := includes (drop 2 argv) "--mlt";
     willRunMVT := includes (drop 2 argv) "--mvt";
     willRunMLTJSON := includes (drop 2 argv) "--mltjson";
     willRunMVTJSON := includes (drop 2 argv) "--mvtjson" |}.

(** The line printed when [GITHUB_RUN_ID] is set. *)
Definition ci_lines (sh : Shell) : list Line :=
  if truthy (GITHUB_RUN_ID sh)
  then [ {| stream := stdout;
            text := "Running in CI, using smaller maxTime: 2 seconds" |} ]
  else [].

(** The flags that ask for a benchmark. *)
Definition run_flags : list string := ["--mlt"; "--mvt"; "--mltjson"; "--mvtjson"].

(** The metadata file of the tile is not there. *)
Definition stale (sh : Shell) (tile : string) : bool :=
  negb (existsSync sh ("../test/expected/" +:+ tile +:+ ".mlt.meta.pbf")).

(** The two lines that announce the generation of the fixtures of a tile. *)
Definition generation_lines (tile : string) : list Line :=
  [ {| stream := stdout; text := "Generating MLT tiles & metadata" |};
    {| stream := stdout; text := encode_command tile |} ].

End Script.

(* ================================================================== *)
(** * Sample tiles and collaborators *)
(* ================================================================== *)

Module Examples.
Import Process Bench.

(** GeoJSON coordinates as pairs of numbers. *)
Definition Coord : Type := JsNumber * JsNumber.

Definition props (keys : list string) : gmap string Scalar :=
  list_to_map ((fun k => (k, null)) <$> keys).

(** An MLT feature whose geometry is a bare coordinate pair. *)
Definition mlt_point (id : Z) (keys : list string) : Feature.t Coord :=
  Feature.mk (number (of_Z id)) (Feature.Geometry.point (of_Z 10) (of_Z 20))
    (props keys).

(** An MLT feature whose geometry decodes and projects itself. *)
Definition ring : list (list (Feature.Geometry.t Coord)) :=
  [[Feature.Geometry.point (of_Z 0) (of_Z 0);
    Feature.Geometry.point (of_Z 4) (of_Z 0);
    Feature.Geometry.point (of_Z 4) (of_Z 4)]].

Definition mlt_shape (id : Z) (type : string) (keys : list string)
    : Feature.t Coord :=
  Feature.mk (bigint id)
    (Feature.Geometry.mk (of_Z 0) (of_Z 0)
       (Feature.function (fun _ => ring))
       (Feature.function (fun _ _ _ => GeoJSON.Geometry.mk type None)))
    (props keys).

(** A reference feature with the given GeoJSON geometry type and keys. *)
Definition reference_feature (type : string) (keys : list string)
    : VectorTile.Feature Coord :=
  {| VectorTile.properties := props keys;
     VectorTile.loadGeometry := fun _ => [[(of_Z 10, of_Z 20)]];
     VectorTile.toGeoJSON := fun _ _ _ =>
       {| VectorTile.geometry := GeoJSON.Geometry.mk type None |} |}.

(** Collaborators: every fixture file is there, the projection keeps the
    coordinates, benchmark.js calls each [fn] once. *)
Definition env_of (mlt : nat -> Layers (Feature.t Coord))
    (mvt : nat -> Layers (VectorTile.Feature Coord)) : Env Coord unit :=
  {| readFileSync := fun _ => Some [];
     fromBinary := fun _ => tt;
     decodeMlTile := fun n _ _ => mlt n;
     VectorTile := fun n _ => mvt n;
     project := fun _ _ _ gs =>
       (fun g => (Feature.Geometry.x g, Feature.Geometry.y g)) <$> gs;
     samples := fun _ => 1%nat;
     cycle := fun name => name +:+ " x 1,000 ops/sec" |}.

Definition input_4_8_5 : Input unit :=
  {| tile := "bing/4-8-5"; x := Some (of_Z 8); y := Some (of_Z 5);
     z := Some (of_Z 4); mltTile := []; mvtTile := []; tableMeta := tt |}.

Definition validate_and_mlt : Flags :=
  {| willValidate := true; willRunMLT := true; willRunMVT := false;
     willRunMLTJSON := false; willRunMVTJSON := false |}.

(** The same keys on both sides, a point against a line. *)
Definition env_geometry : Env Coord unit :=
  env_of (fun _ => {[ "road" := [mlt_point 1 ["name"]] ]})
         (fun _ => {[ "road" := [reference_feature "LineString" ["name"]] ]}).

(** A tile without layers. *)
Definition env_empty : Env Coord unit :=
  env_of (fun _ => ∅) (fun _ => ∅).

(** The reference decode lacks the key of feature 3 of layer [building]. *)
Definition env_building : Env Coord unit :=
  env_of (fun _ => {[ "building" := [ mlt_point 0 ["height"]; mlt_point 1 ["height"];
                                     mlt_point 2 ["height"]; mlt_point 3 ["height"] ] ]})
         (fun _ => {[ "building" := [ reference_feature "Point" ["height"];
                                     reference_feature "Point" ["height"];
                                     reference_feature "Point" ["height"];
                                     reference_feature "Point" [] ] ]}).

(** The reference tile has a layer the MLT tile lacks. *)
Definition env_extra_layer : Env Coord unit :=
  env_of (fun _ => {[ "a" := [mlt_point 1 ["k"]] ]})
         (fun _ => {[ "a" := [reference_feature "Point" ["k"]];
                      "b" := [reference_feature "Point" ["other"]] ]}).

(** The reference tile lacks the first layer of the MLT tile. *)
Definition env_missing_layer : Env Coord unit :=
  env_of (fun _ => {[ "a" := [mlt_point 1 ["k"]]; "b" := [mlt_point 2 ["k"]] ]})
         (fun _ => {[ "b" := [reference_feature "Point" []] ]}).

(** Both features have a property [id]. *)
Definition env_both_id : Env Coord unit :=
  env_of (fun _ => {[ "a" := [mlt_point 1 ["id"]] ]})
         (fun _ => {[ "a" := [reference_feature "Point" ["id"]] ]}).

(** Only the reference feature has a property [id]. *)
Definition env_reference_id : Env Coord unit :=
  env_of (fun _ => {[ "a" := [mlt_point 1 ["k"]] ]})
         (fun _ => {[ "a" := [reference_feature "Point" ["id"; "k"]] ]}).

(** The reference layer has more features than the MLT layer. *)
Definition env_longer_reference : Env Coord unit :=
  env_of (fun _ => {[ "a" := [mlt_point 1 ["k"]] ]})
         (fun _ => {[ "a" := [reference_feature "Point" ["k"];
                              reference_feature "Polygon" ["unseen"]] ]}).

(** A decoder whose tile has one feature on every other call and two on
    the calls in between. *)
Definition drifting (n : nat) : Layers (Feature.t Coord) :=
  if Nat.even n then {[ "a" := [mlt_point 1 ["k"]] ]}
  else {[ "a" := [mlt_point 1 ["k"]; mlt_point 2 ["k"]] ]}.

Definition steady (n : nat) : Layers (Feature.t Coord) :=
  {[ "a" := [mlt_point 1 ["k"]; mlt_point 2 ["k"]];
     "b" := [mlt_shape 3 "Polygon" []] ]}.

(** The keys of the first pair differ, and the reference tile lacks the
    second layer of the MLT tile. *)
Definition env_mismatch_then_missing : Env Coord unit :=
  env_of (fun _ => {[ "a" := [mlt_point 1 ["k"]]; "b" := [mlt_point 2 ["k"]] ]})
         (fun _ => {[ "a" := [reference_feature "Point" []] ]}).

(** The MLT tile has a layer, and the layer has no feature. *)
Definition env_empty_layer : Env Coord unit :=
  env_of (fun _ => {[ "a" := [] ]}) (fun _ => ∅).

(** The reference layer is shorter than the MLT layer. *)
Definition env_short_reference : Env Coord unit :=
  env_of (fun _ => {[ "a" := [mlt_point 1 ["k"]; mlt_point 2 ["k"]] ]})
         (fun _ => {[ "a" := [reference_feature "Point" ["k"]] ]}).

(** A pair with the same keys; the reference geometry is a polygon. *)
Definition env_polygon : Env Coord unit :=
  env_of (fun _ => {[ "a" := [mlt_point 1 ["k"]] ]})
         (fun _ => {[ "a" := [reference_feature "Polygon" ["k"]] ]}).

(** The MLT fixture of the second tile cannot be read; the keys of the
    first tile's features differ. *)
Definition env_unreadable : Env Coord unit :=
  {| readFileSync := fun path =>
       if String.eqb path "../test/expected/bing/4-12-6.mlt" then None else Some [];
     fromBinary := fun _ => tt;
     decodeMlTile := fun _ _ _ => {[ "a" := [mlt_point 1 ["k"]] ]};
     VectorTile := fun _ _ => {[ "a" := [reference_feature "Point" []] ]};
     project := fun _ _ _ _ => [];
     samples := fun _ => 1%nat;
     cycle := fun name => name |}.

(** Decoders that answer every call alike: three MLT features, two
    reference features. benchmark.js calls each [fn] twice. *)
Definition env_steady : Env Coord unit :=
  {| readFileSync := fun _ => Some [];
     fromBinary := fun _ => tt;
     decodeMlTile := fun n _ _ => steady n;
     VectorTile := fun _ _ =>
       {[ "a" := [reference_feature "Point" ["k"]; reference_feature "Point" ["k"]] ]};
     project := fun _ _ _ _ => [];
     samples := fun _ => 2%nat;
     cycle := fun name => name +:+ " x 1,000 ops/sec" |}.

Definition all_benchmarks : Flags :=
  {| willValidate := false; willRunMLT := true; willRunMVT := true;
     willRunMLTJSON := true; willRunMVTJSON := true |}.

Definition no_benchmark : Flags :=
  {| willValidate := false; willRunMLT := false; willRunMVT := false;
     willRunMLTJSON := false; willRunMVTJSON := false |}.

Definition only_mlt : Flags :=
  {| willValidate := false; willRunMLT := true; willRunMVT := false;
     willRunMLTJSON := false; willRunMVTJSON := false |}.

(** Every file is there and no command is needed (each would fail). *)
Definition shell_ready : Script.Shell :=
  {| Script.existsSync := fun _ => true;
     Script.execSync := fun _ cmd => Some (Error ("Command failed: " +:+ cmd));
     Script.GITHUB_RUN_ID := None |}.

(** The jar is there, the metadata files of two tiles are not; every
    command succeeds. *)
Definition shell_stale : Script.Shell :=
  {| Script.existsSync := fun path =>
       negb (String.eqb path "../test/expected/bing/4-12-6.mlt.meta.pbf"
             || String.eqb path "../test/expected/bing/5-16-9.mlt.meta.pbf");
     Script.execSync := fun _ _ => None;
     Script.GITHUB_RUN_ID := Some "11223344" |}.

(** Every MLT feature has a reference feature with its keys; the second
    pair differs in the geometry type. *)
Definition env_agree : Env Coord unit :=
  env_of (fun _ => {[ "a" := [mlt_point 1 ["k"]; mlt_point 2 ["k"]] ]})
         (fun _ => {[ "a" := [reference_feature "Point" ["id"; "k"];
                              reference_feature "LineString" ["k"]] ]}).

(** The jar is there, the metadata file of the third tile is not, and
    every command fails. *)
Definition shell_broken : Script.Shell :=
  {| Script.existsSync := fun path =>
       negb (String.eqb path "../test/expected/bing/4-13-6.mlt.meta.pbf");
     Script.execSync := fun _ cmd => Some (Error ("Command failed: " +:+ cmd));
     Script.GITHUB_RUN_ID := None |}.

End Examples.

(* ================================================================== *)
(** * Facts about the built-ins *)
(* ================================================================== *)

(** ** Numbers *)

Section number_facts.

Lemma Qred_inject_Z (z : Z) : Qred (inject_Z z) = inject_Z z.
Proof.
  apply Qred_identity. simpl. apply Z.gcd_1_r.
Qed.

Lemma scale2_exact (z k : Z) : 0 <= k → scale2 (z * 2 ^ k) (- k) = inject_Z z.
Proof.
  intros Hk. unfold scale2.
  destruct (Z.leb_spec 0 (- k)) as [H0|H0].
  - assert (k = 0) as -> by lia. simpl. f_equal. lia.
  - rewrite Z.opp_involutive, <- Qred_inject_Z. apply Qred_complete.
    unfold Qeq, inject_Z. simpl.
    rewrite Z2Pos.id by (apply Z.pow_pos_nonneg; lia). lia.
Qed.

(** An integer below 2^53 in absolute value is a double. *)
Lemma round_double_safe_integer (z : Z) :
  Z.abs z < 2 ^ 53 → round_double (inject_Z z) = of_Z z.
Proof.
  intros Hz. unfold round_double, of_Z. simpl Qnum. simpl Qden.
  destruct (Z.eqb_spec z 0) as [->|Hne]; [done|].
  set (a := Z.abs z). assert (Ha : 0 < a < 2 ^ 53) by (unfold a; lia).
  change (Z.log2 1) with 0. rewrite Z.sub_0_r.
  set (k := 52 - Z.log2 a).
  assert (Hlog : 0 <= Z.log2 a < 53).
  { split; [apply Z.log2_nonneg|]. apply Z.log2_lt_pow2; lia. }
  assert (Hk : 0 <= k <= 52) by (unfold k; lia).
  replace (Z.log2 a - 52) with (- k) by (unfold k; lia).
  assert (Hlow : 2 ^ 52 <= a * 2 ^ k).
  { unfold k. pose proof (Z.log2_spec a ltac:(lia)) as [Hl _].
    replace (2 ^ 52) with (2 ^ Z.log2 a * 2 ^ (52 - Z.log2 a)).
    - apply Z.mul_le_mono_nonneg_r; [apply Z.pow_nonneg; lia|lia].
    - rewrite <- Z.pow_add_r by lia. f_equal. lia. }
  assert (Hquot : (if 0 <=? - k then a / (1 * 2 ^ (- k)) else a * 2 ^ (- - k) / 1)
                  = a * 2 ^ k).
  { destruct (Z.leb_spec 0 (- k)).
    - assert (k = 0) as -> by lia. simpl. rewrite Z.div_1_r. lia.
    - rewrite Z.opp_involutive, Z.div_1_r. done. }
  rewrite Hquot.
  destruct (Z.ltb_spec (a * 2 ^ k) (2 ^ 52)) as [?|_]; [lia|].
  rewrite Z.max_l by lia.
  assert (Hnum : (if 0 <=? - k then a else a * 2 ^ (- - k))
                 / (if 0 <=? - k then 1 * 2 ^ (- k) else 1) = a * 2 ^ k).
  { destruct (Z.leb_spec 0 (- k)); [|by rewrite Z.opp_involutive, Z.div_1_r].
    assert (k = 0) as -> by lia. simpl. rewrite Z.div_1_r. lia. }
  assert (Hrem : (if 0 <=? - k then a else a * 2 ^ (- - k))
                 mod (if 0 <=? - k then 1 * 2 ^ (- k) else 1) = 0).
  { destruct (Z.leb_spec 0 (- k)); [|by rewrite Z.mod_1_r].
    assert (k = 0) as -> by lia. simpl. by rewrite Z.mod_1_r. }
  rewrite Hnum, Hrem.
  assert (Hden : 0 < (if 0 <=? - k then 1 * 2 ^ (- k) else 1)).
  { destruct (Z.leb_spec 0 (- k)); [|lia].
    apply Z.mul_pos_pos; [lia|]. apply Z.pow_pos_nonneg; lia. }
  destruct (Z.ltb_spec (2 * 0) (if 0 <=? - k then 1 * 2 ^ (- k) else 1)) as [_|?]; [|lia].
  destruct (Z.leb_spec 0 (- k - 971)) as [?|_]; [lia|].
  f_equal. rewrite Z.mul_assoc, scale2_exact by lia. f_equal.
  unfold a. rewrite Z.mul_comm. apply Z.abs_sgn.
Qed.

Lemma Number_number (n : JsNumber) : Number (number n) = n.
Proof. reflexivity. Qed.

Lemma Number_bigint_safe (z : Z) :
  Z.abs z < 2 ^ 53 → Number (bigint z) = of_Z z.
Proof. apply round_double_safe_integer. Qed.

End number_facts.

Section js_facts.
Import Js.

(** ** Sorted keys *)

Lemma sort_Permutation (a : list string) : sort a ≡ₚ a.
Proof. apply merge_sort_Permutation. Qed.

Lemma sort_StronglySorted (a : list string) : StronglySorted String.le (sort a).
Proof. apply StronglySorted_merge_sort; apply _. Qed.

Lemma sort_unique (a b : list string) : a ≡ₚ b → sort a = sort b.
Proof.
  intros Hab. apply (StronglySorted_unique String.le).
  - apply sort_StronglySorted.
  - apply sort_StronglySorted.
  - by rewrite !sort_Permutation.
Qed.

Lemma sort_sorted_id (a : list string) : StronglySorted String.le a → sort a = a.
Proof.
  intros Ha. apply (StronglySorted_unique String.le); [apply sort_StronglySorted|done|].
  apply sort_Permutation.
Qed.

Lemma Object_keys_NoDup {V} (o : gmap string V) : NoDup (Object_keys o).
Proof. apply NoDup_fst_map_to_list. Qed.

Lemma elem_of_Object_keys {V} (o : gmap string V) k :
  k ∈ Object_keys o ↔ is_Some (o !! k).
Proof.
  unfold Object_keys. rewrite list_elem_of_fmap. split.
  - intros [[k' v] [-> Hin]]. apply elem_of_map_to_list in Hin. by exists v.
  - intros [v Hv]. exists (k, v). split; [done|]. by apply elem_of_map_to_list.
Qed.

Lemma elem_of_sorted_keys {V} (o : gmap string V) k :
  k ∈ sort (Object_keys o) ↔ is_Some (o !! k).
Proof. by rewrite sort_Permutation, elem_of_Object_keys. Qed.

Lemma sorted_keys_NoDup {V} (o : gmap string V) : NoDup (sort (Object_keys o)).
Proof. rewrite sort_Permutation. apply Object_keys_NoDup. Qed.

Lemma sorted_keys_eq_iff {V W} (o1 : gmap string V) (o2 : gmap string W) :
  sort (Object_keys o1) = sort (Object_keys o2) ↔ dom o1 = dom o2.
Proof.
  split.
  - intros Heq. apply set_eq. intros k.
    rewrite !elem_of_dom, <- !elem_of_sorted_keys. by rewrite Heq.
  - intros Hdom. apply sort_unique. apply NoDup_Permutation.
    + apply Object_keys_NoDup.
    + apply Object_keys_NoDup.
    + intros k. rewrite !elem_of_Object_keys, <- !elem_of_dom. by rewrite Hdom.
Qed.

(** ** [indexOf] and [splice] *)

Lemma indexOf_ge (a : list string) x : (-1) <= indexOf a x.
Proof.
  induction a as [|y a IH]; simpl; [lia|].
  destruct (String.eqb y x); [lia|].
  destruct (Z.eqb_spec (indexOf a x) (-1)); lia.
Qed.

Lemma indexOf_absent (a : list string) x : x ∉ a → indexOf a x = -1.
Proof.
  induction a as [|y a IH]; simpl; [done|].
  rewrite not_elem_of_cons. intros [Hne Hni].
  destruct (String.eqb_spec y x) as [->|_]; [done|].
  by rewrite IH.
Qed.

Lemma indexOf_found (a : list string) x :
  x ∈ a →
  ∃ a1 a2, a = (a1 ++ x :: a2)%list ∧ (x ∉ a1) ∧ indexOf a x = Z.of_nat (length a1).
Proof.
  induction a as [|y a IH]; [by intros ?%elem_of_nil|].
  intros Hin. simpl. destruct (String.eqb_spec y x) as [->|Hne].
  - exists [], a. split; [done|]. split; [apply not_elem_of_nil|done].
  - apply elem_of_cons in Hin as [->|Hin]; [done|].
    destruct (IH Hin) as (a1 & a2 & -> & Hni & Hidx).
    exists (y :: a1), a2. split; [done|]. split.
    + rewrite not_elem_of_cons. split; [congruence|done].
    + rewrite Hidx. destruct (Z.eqb_spec (Z.of_nat (length a1)) (-1)); [lia|].
      change (length (y :: a1)) with (S (length a1)). lia.
Qed.

Lemma splice_one {A} (a1 a2 : list A) x :
  splice (a1 ++ x :: a2)%list (Z.of_nat (length a1)) 1 = (a1 ++ a2)%list.
Proof.
  unfold splice.
  assert (Hlen : Z.of_nat (length (a1 ++ x :: a2)) = Z.of_nat (length a1) + 1 + Z.of_nat (length a2)).
  { rewrite length_app. change (length (x :: a2)) with (S (length a2)). lia. }
  rewrite Hlen.
  destruct (Z.ltb_spec (Z.of_nat (length a1)) 0) as [?|_]; [lia|].
  replace (Z.min (Z.of_nat (length a1)) _) with (Z.of_nat (length a1)) by lia.
  replace (Z.min (Z.max 1 0) _) with 1 by lia.
  rewrite Nat2Z.id.
  replace (Z.to_nat (Z.of_nat (length a1) + 1)) with (S (length a1)) by lia.
  rewrite take_app_length. f_equal.
  replace (S (length a1)) with (length a1 + 1)%nat by lia.
  rewrite <- drop_drop. rewrite drop_app_length. done.
Qed.

(** The workaround removes the key [id] from a sorted key list. *)
Lemma drop_id_sorted_keys {V} (o : gmap string V) :
  Bench.drop_id (sort (Object_keys o)) = sort (Object_keys (delete "id" o)).
Proof.
  unfold Bench.drop_id.
  destruct (decide ("id" ∈ sort (Object_keys o))) as [Hin|Hni].
  - destruct (indexOf_found _ _ Hin) as (a1 & a2 & Heq & Hni & Hidx).
    rewrite Hidx. destruct (Z.eqb_spec (Z.of_nat (length a1)) (-1)) as [?|_]; [lia|].
    simpl negb. cbv iota. rewrite Heq, splice_one.
    pose proof (sort_StronglySorted (Object_keys o)) as Hs.
    pose proof (sorted_keys_NoDup o) as Hnd.
    rewrite Heq in Hs, Hnd.
    apply (StronglySorted_unique String.le).
    + apply StronglySorted_app in Hs as (H12 & Hs1 & Hs2).
      apply StronglySorted_app. split_and!; [|done|by apply StronglySorted_cons in Hs2 as [_ ?]].
      intros k1 k2 Hk1 Hk2. apply H12; [done|]. by apply elem_of_cons; right.
    + apply sort_StronglySorted.
    + rewrite sort_Permutation. apply NoDup_Permutation.
      * apply NoDup_app in Hnd as (Hn1 & Hn12 & Hn2). apply NoDup_cons in Hn2 as [Hn2 Hn2'].
        apply NoDup_app. split_and!; [done| |done].
        intros k Hk1 Hk2. apply (Hn12 k Hk1). by apply elem_of_cons; right.
      * apply Object_keys_NoDup.
      * intros k. rewrite elem_of_Object_keys, lookup_delete_is_Some.
        rewrite <- elem_of_sorted_keys, Heq.
        apply NoDup_app in Hnd as (Hn1 & Hn12 & Hn2). apply NoDup_cons in Hn2 as [Hn2 Hn2'].
        rewrite !elem_of_app, elem_of_cons. split.
        -- intros [Hk|Hk]; (split; [|tauto]); intros <-; [by apply Hni|by apply Hn2].
        -- intros [Hne [?|[?|?]]]; auto. congruence.
  - rewrite (indexOf_absent _ _ Hni). simpl.
    rewrite delete_id; [done|].
    rewrite elem_of_sorted_keys in Hni. by apply eq_None_not_Some.
Qed.
End js_facts.

(** ** [JSON.stringify] tells arrays of strings apart *)

Section json_facts.
Import Js Js.JSON.

Lemma append_cons (c : ascii) (s r : string) : String c s +:+ r = String c (s +:+ r).
Proof. reflexivity. Qed.

Lemma append_assoc (s1 s2 s3 : string) : (s1 +:+ s2) +:+ s3 = s1 +:+ (s2 +:+ s3).
Proof.
  induction s1 as [|c s1 IH]; [done|].
  by rewrite !append_cons, IH.
Qed.

Lemma unescape_escape (c : ascii) (r : string) :
  unescape (escape c +:+ r) = Some (c, r).
Proof. destruct c as [[] [] [] [] [] [] [] []]; reflexivity. Qed.

Lemma escape_all_inj (s1 s2 r1 r2 : string) :
  escape_all s1 +:+ String quote r1 = escape_all s2 +:+ String quote r2 →
  s1 = s2 ∧ r1 = r2.
Proof.
  revert s2. induction s1 as [|c1 s1 IH]; intros [|c2 s2]; cbn [escape_all];
    intros Heq.
  - by injection Heq.
  - apply (f_equal unescape) in Heq.
    rewrite append_assoc, unescape_escape in Heq. discriminate.
  - apply (f_equal unescape) in Heq.
    rewrite append_assoc, unescape_escape in Heq. discriminate.
  - apply (f_equal unescape) in Heq.
    rewrite !append_assoc, !unescape_escape in Heq.
    injection Heq as -> Heq. by destruct (IH _ Heq) as [-> ->].
Qed.

Lemma stringify_string_app (s r : string) :
  stringify_string s +:+ r = String quote (escape_all s +:+ String quote r).
Proof. unfold stringify_string. by rewrite append_cons, append_assoc. Qed.

Lemma stringify_elements_cons (s s' : string) (a : list string) :
  stringify_elements (s :: s' :: a) =
  stringify_string s +:+ "," +:+ stringify_elements (s' :: a).
Proof. reflexivity. Qed.

Lemma stringify_elements_inj (a1 a2 : list string) :
  stringify_elements a1 +:+ "]" = stringify_elements a2 +:+ "]" → a1 = a2.
Proof.
  revert a2. induction a1 as [|s1 a1 IH]; intros [|s2 a2].
  - done.
  - destruct a2; rewrite ?stringify_elements_cons; cbn [stringify_elements];
      rewrite ?append_assoc, stringify_string_app; discriminate.
  - destruct a1; rewrite ?stringify_elements_cons; cbn [stringify_elements];
      rewrite ?append_assoc, stringify_string_app; discriminate.
  - destruct a1 as [|s1' a1], a2 as [|s2' a2];
      rewrite ?stringify_elements_cons; cbn [stringify_elements];
      rewrite ?append_assoc, (stringify_string_app s1), (stringify_string_app s2);
      intros Heq; injection Heq as Heq; apply escape_all_inj in Heq as [-> Heq].
    + done.
    + discriminate.
    + discriminate.
    + f_equal. apply IH. injection Heq as Heq. exact Heq.
Qed.

Lemma stringify_inj (a1 a2 : list string) : stringify a1 = stringify a2 → a1 = a2.
Proof.
  unfold stringify. rewrite !append_cons. intros Heq. injection Heq as Heq.
  by apply stringify_elements_inj.
Qed.
End json_facts.

(** ** Decimal numerals *)

Section decimal_strings.

Lemma string_app_nil_r (s : string) : s +:+ "" = s.
Proof. induction s as [|c s IH]; [done|]. by rewrite append_cons, IH. Qed.

Lemma rev_app_rev_app (s1 s2 s3 : string) :
  String.rev_app (String.rev_app s1 s2) s3 = String.rev_app s2 (s1 +:+ s3).
Proof.
  revert s2 s3. induction s1 as [|c s1 IH]; intros s2 s3; [done|].
  simpl String.rev_app. by rewrite IH.
Qed.

Lemma rev_involutive (s : string) : String.rev (String.rev s) = s.
Proof. unfold String.rev. rewrite rev_app_rev_app. simpl. apply string_app_nil_r. Qed.

Lemma digit_not_white (c : ascii) :
  is_Some_b (radix_digit 10 c) = true → is_white c = false.
Proof. destruct c as [[] [] [] [] [] [] [] []]; done. Qed.

Lemma drop_white_digits (s : string) : digits_only s = true → drop_white s = s.
Proof.
  destruct s as [|c s]; [done|]. simpl. intros [Hc _]%andb_prop.
  by rewrite (digit_not_white _ Hc).
Qed.

Lemma digits_only_rev_app (s1 s2 : string) :
  digits_only (String.rev_app s1 s2) = digits_only s1 && digits_only s2.
Proof.
  revert s2. induction s1 as [|c s1 IH]; intros s2; [done|].
  simpl. rewrite IH. simpl. by destruct (is_Some_b _), (digits_only s1).
Qed.

Lemma trim_digits (s : string) : digits_only s = true → trim s = s.
Proof.
  intros Hs. unfold trim. rewrite (drop_white_digits s Hs).
  rewrite drop_white_digits; [apply rev_involutive|].
  unfold String.rev. by rewrite digits_only_rev_app, Hs.
Qed.

(** The branch [Number] takes on a string of digits. *)
Lemma Number_of_digits (s : string) :
  digits_only s = true → s ≠ "" → Number_of_string s = unsigned_decimal false s.
Proof.
  intros Hs Hne. unfold Number_of_string. rewrite (trim_digits s Hs).
  destruct s as [|c s]; [done|]. simpl in Hs. apply andb_prop in Hs as [Hc Hs].
  destruct c as [[] [] [] [] [] [] [] []]; try discriminate Hc; try reflexivity.
  destruct s as [|c' s]; [reflexivity|].
  simpl in Hs. apply andb_prop in Hs as [Hc' Hs].
  destruct c' as [[] [] [] [] [] [] [] []]; try discriminate Hc'; reflexivity.
Qed.

Lemma round_double_ext (q q' : Q) :
  Qnum q = Qnum q' → Qden q = Qden q' → round_double q = round_double q'.
Proof. destruct q, q'. simpl. by intros -> ->. Qed.

Lemma digits_only_not_Infinity (s : string) :
  digits_only s = true → String.eqb s "Infinity" = false.
Proof.
  intros Hs. destruct (String.eqb_spec s "Infinity") as [->|]; [|done].
  discriminate Hs.
Qed.

(** A numeral whose digits are all read is rounded to the nearest double. *)
Lemma unsigned_decimal_digits (s : string) (v : Z) (k : nat) :
  digits_only s = true → digits 10 0 0%nat s = (v, S k, "") →
  unsigned_decimal false s = round_double (inject_Z v).
Proof.
  intros Hs Hd. unfold unsigned_decimal.
  rewrite (digits_only_not_Infinity s Hs), Hd. simpl.
  apply round_double_ext; simpl; lia.
Qed.

Lemma radix_digit_pretty (d : N) :
  (d < 10)%N → radix_digit 10 (pretty_N_char d) = Some (Z.of_N d).
Proof.
  intros Hd.
  assert (d = 0 ∨ d = 1 ∨ d = 2 ∨ d = 3 ∨ d = 4 ∨ d = 5 ∨ d = 6 ∨ d = 7
          ∨ d = 8 ∨ d = 9)%N as Hcases by lia.
  by repeat destruct Hcases as [->|Hcases]; [..|subst d].
Qed.

(** Reading back the digits [pretty] writes in front of [s]. *)
Lemma digits_pretty_go (x : N) (acc : Z) (len : nat) (s : string) :
  ∃ k, digits 10 acc len (pretty_N_go x s)
       = digits 10 (acc * 10 ^ Z.of_nat k + Z.of_N x) (len + k) s
     ∧ ((0 < x)%N → (0 < k)%nat).
Proof.
  revert acc len s. induction (N.lt_wf_0 x) as [x _ IH]; intros acc len s.
  destruct (decide (x = 0%N)) as [->|Hx].
  - exists 0%nat. rewrite pretty_N_go_0. split; [|lia].
    f_equal; [simpl; lia|lia].
  - rewrite pretty_N_go_step by lia.
    destruct (IH (x `div` 10)%N ltac:(apply N.div_lt; lia) acc len
                (String (pretty_N_char (x `mod` 10)) s)) as (k & Hk & _).
    exists (S k). split; [|lia]. rewrite Hk. simpl digits.
    rewrite radix_digit_pretty by (apply N.mod_lt; lia).
    f_equal; [|lia].
    rewrite Nat2Z.inj_succ, Z.pow_succ_r by lia.
    pose proof (N.div_mod x 10 ltac:(lia)) as Hdm.
    assert (Z.of_N x = 10 * Z.of_N (x `div` 10) + Z.of_N (x `mod` 10)) by lia.
    lia.
Qed.

Lemma digits_only_pretty_go (x : N) (s : string) :
  digits_only s = true → digits_only (pretty_N_go x s) = true.
Proof.
  revert s. induction (N.lt_wf_0 x) as [x _ IH]; intros s Hs.
  destruct (decide (x = 0%N)) as [->|Hx]; [by rewrite pretty_N_go_0|].
  rewrite pretty_N_go_step by lia. apply IH; [apply N.div_lt; lia|].
  simpl. rewrite radix_digit_pretty by (apply N.mod_lt; lia). done.
Qed.

Lemma digits_only_pretty (n : N) : digits_only (pretty n) = true.
Proof.
  unfold pretty, pretty_N. case_decide; [done|]. by apply digits_only_pretty_go.
Qed.

(** [Number] reads a decimal numeral back; below 2^53 nothing is lost. *)
Lemma Number_of_string_pretty (n : N) :
  Number_of_string (pretty n) = round_double (inject_Z (Z.of_N n)).
Proof.
  unfold pretty, pretty_N. case_decide as Hn; [by subst n|].
  destruct (digits_pretty_go n 0 0 "") as (k & Hk & Hpos).
  destruct k as [|k]; [specialize (Hpos ltac:(lia)); lia|].
  simpl digits in Hk at 2. rewrite Number_of_digits.
  - apply (unsigned_decimal_digits _ _ k); [by apply digits_only_pretty_go|].
    rewrite Hk. by rewrite Z.mul_0_l, Z.add_0_l.
  - by apply digits_only_pretty_go.
  - intros Heq. rewrite Heq in Hk. simpl in Hk. discriminate Hk.
Qed.

Lemma Number_of_string_pretty_safe (n : N) :
  (n < 2 ^ 53)%N → Number_of_string (pretty n) = of_Z (Z.of_N n).
Proof.
  intros Hn. rewrite Number_of_string_pretty. apply round_double_safe_integer.
  rewrite Z.abs_eq by lia.
  change (2 ^ 53) with (Z.of_N (2 ^ 53)). lia.
Qed.

(** ** [split] *)

Lemma split_go_whole (sep : ascii) (cur s : string) :
  has_char sep s = false →
  split_go sep cur s = [String.rev (String.rev_app s cur)].
Proof.
  revert cur. induction s as [|c s IH]; intros cur Hs; [done|].
  simpl in Hs. apply orb_false_elim in Hs as [Hc Hs].
  simpl. rewrite Hc. by apply IH.
Qed.

Lemma split_go_at (sep : ascii) (cur s1 s2 : string) :
  has_char sep s1 = false →
  split_go sep cur (s1 +:+ String sep s2)
  = String.rev (String.rev_app s1 cur) :: split sep s2.
Proof.
  revert cur. induction s1 as [|c s1 IH]; intros cur Hs.
  - change ("" +:+ String sep s2) with (String sep s2). simpl.
    by rewrite Ascii.eqb_refl.
  - simpl in Hs. apply orb_false_elim in Hs as [Hc Hs].
    rewrite append_cons. simpl. rewrite Hc. by apply IH.
Qed.

(** A string without the separator is the only part. *)
Lemma split_whole (sep : ascii) (s : string) :
  has_char sep s = false → split sep s = [s].
Proof.
  intros Hs. unfold split. rewrite split_go_whole by done.
  by rewrite <- (rev_involutive s) at 2.
Qed.

(** The part before the first separator comes first. *)
Lemma split_at (sep : ascii) (s1 s2 : string) :
  has_char sep s1 = false →
  split sep (s1 +:+ String sep s2) = s1 :: split sep s2.
Proof.
  intros Hs. unfold split at 1. rewrite split_go_at by done.
  f_equal. apply rev_involutive.
Qed.

Lemma has_char_app (c : ascii) (s1 s2 : string) :
  has_char c (s1 +:+ s2) = has_char c s1 || has_char c s2.
Proof.
  induction s1 as [|c1 s1 IH]; [done|].
  rewrite append_cons. simpl. rewrite IH. by destruct (Ascii.eqb c1 c).
Qed.

Lemma digits_no_char (c : ascii) (s : string) :
  radix_digit 10 c = None → digits_only s = true → has_char c s = false.
Proof.
  intros Hc. induction s as [|c' s IH]; [done|].
  simpl. intros [Hc' Hs]%andb_prop. rewrite IH by done.
  destruct (Ascii.eqb_spec c' c) as [->|]; [|done].
  by rewrite Hc in Hc'.
Qed.

Lemma append_char (c : ascii) (s : string) : String c "" +:+ s = String c s.
Proof. reflexivity. Qed.

(** The parts of [<z>-<x>-<y>]. *)
Lemma split_coordinates (z x y : N) :
  split "-" (pretty z +:+ "-" +:+ pretty x +:+ "-" +:+ pretty y)
  = [pretty z; pretty x; pretty y].
Proof.
  assert (Hno : ∀ n : N, has_char "-" (pretty n) = false).
  { intros n. apply digits_no_char; [done|apply digits_only_pretty]. }
  rewrite !append_char.
  rewrite 2!split_at by apply Hno. by rewrite split_whole by apply Hno.
Qed.

(** The parts of [<set>/<z>-<x>-<y>]. *)
Lemma split_identifier (set : string) (z x y : N) :
  has_char "/" set = false →
  split "/" (set +:+ "/" +:+ pretty z +:+ "-" +:+ pretty x +:+ "-" +:+ pretty y)
  = [set; pretty z +:+ "-" +:+ pretty x +:+ "-" +:+ pretty y].
Proof.
  intros Hset.
  assert (Hno : ∀ n : N, has_char "/" (pretty n) = false).
  { intros n. apply digits_no_char; [done|apply digits_only_pretty]. }
  rewrite !append_char.
  rewrite split_at by done. rewrite split_whole; [done|].
  rewrite has_char_app. cbn [has_char]. rewrite has_char_app. cbn [has_char].
  by rewrite !Hno.
Qed.

End decimal_strings.

(* ================================================================== *)
(** * The process monad and its loops *)
(* ================================================================== *)

Section process_facts.
Import Process.

Lemma add_lines_nil (w : World) : add_lines w [] = w.
Proof. destruct w. unfold add_lines. simpl. by rewrite app_nil_r. Qed.

Lemma add_lines_app (w : World) (l1 l2 : list Line) :
  add_lines (add_lines w l1) l2 = add_lines w (l1 ++ l2).
Proof. unfold add_lines. simpl. by rewrite app_assoc. Qed.

Lemma bind_unfold {A B} (m : Proc A) (k : A → Proc B) (w : World) :
  (m ≫= k) w =
  match m w with
  | (Return a, w') => k a w'
  | (Exit c, w') => (Exit c, w')
  | (Throw e, w') => (Throw e, w')
  | (Pending, w') => (Pending, w')
  end.
Proof. reflexivity. Qed.

Lemma bind_Return {A B} (m : Proc A) (k : A → Proc B) w a w' :
  m w = (Return a, w') → (m ≫= k) w = k a w'.
Proof. intros H. by rewrite bind_unfold, H. Qed.

Lemma bind_Exit {A B} (m : Proc A) (k : A → Proc B) w c w' :
  m w = (Exit c, w') → (m ≫= k) w = (Exit c, w').
Proof. intros H. by rewrite bind_unfold, H. Qed.

Lemma bind_Throw {A B} (m : Proc A) (k : A → Proc B) w e w' :
  m w = (Throw e, w') → (m ≫= k) w = (Throw e, w').
Proof. intros H. by rewrite bind_unfold, H. Qed.

Lemma assert_true (message : string) w :
  console.assert true message w = (Return tt, w).
Proof. reflexivity. Qed.

Lemma assert_false (message : string) w :
  console.assert false message w = (Return tt, add_lines w [assertion_failed message]).
Proof. reflexivity. Qed.

Lemma for_of_cons {A St} (x : A) xs (body : A → St → Proc St) s w :
  for_of (x :: xs) body s w = (body x s ≫= for_of xs body) w.
Proof. reflexivity. Qed.

Lemma for_of_app {A St} (xs ys : list A) (body : A → St → Proc St) s w :
  for_of (xs ++ ys) body s w = (for_of xs body s ≫= for_of ys body) w.
Proof.
  revert s w. induction xs as [|x xs IH]; intros s w; [reflexivity|].
  simpl app. rewrite (bind_unfold (for_of (x :: xs) body s)), !for_of_cons, !bind_unfold.
  destruct (body x s w) as [[s'|c|e|] w']; [|done..].
  rewrite IH. by rewrite bind_unfold.
Qed.

(** Two bodies that agree on the elements of the list give the same loop. *)
Lemma for_of_ext {A St} (xs : list A) (f g : A → St → Proc St) s w :
  (∀ x s w, x ∈ xs → f x s w = g x s w) →
  for_of xs f s w = for_of xs g s w.
Proof.
  revert s w. induction xs as [|x xs IH]; intros s w Hfg; [reflexivity|].
  rewrite !for_of_cons, !bind_unfold.
  rewrite (Hfg x s w) by (by left).
  destruct (g x s w) as [[s'|c|e|] w']; [|done..].
  apply IH. intros y s0 w0 Hy. apply Hfg. by right.
Qed.

End process_facts.

(* ================================================================== *)
(** * [validate] *)
(* ================================================================== *)

Section validate_facts.
Import Process Bench.
Context {C TableMeta : Type}.
Implicit Types (env : Env C TableMeta) (input : Input TableMeta) (w : World).
Implicit Types (f : Feature.t C) (mf : VectorTile.Feature C).

Lemma ret_bind {A B} (a : A) (k : A → Proc B) w : (mret a ≫= k) w = k a w.
Proof. reflexivity. Qed.

Lemma print_bind {B} st s (k : unit → Proc B) w :
  (print st s ≫= k) w = k tt (add_lines w [{| stream := st; text := s |}]).
Proof. reflexivity. Qed.

Lemma log_bind {B} s (k : unit → Proc B) w :
  (console.log s ≫= k) w = k tt (add_lines w [{| stream := stdout; text := s |}]).
Proof. reflexivity. Qed.

Lemma exit_bind {A B} c (k : A → Proc B) w : (process.exit c ≫= k) w = (Exit c, w).
Proof. reflexivity. Qed.

Lemma bind_assoc {A B D} (m : Proc A) (k1 : A → Proc B) (k2 : B → Proc D) w :
  ((m ≫= k1) ≫= k2) w = (m ≫= λ a, k1 a ≫= k2) w.
Proof. rewrite !bind_unfold. by destruct (m w) as [[a|c|e|] w']. Qed.

Lemma assert_bind {B} (b : bool) message (k : unit → Proc B) w :
  (console.assert b message ≫= k) w =
  k tt (if b then w else add_lines w [assertion_failed message]).
Proof. by destruct b. Qed.

(** Running a straight line of console calls. *)
Ltac run_console :=
  repeat first
    [ rewrite bind_assoc | rewrite ret_bind | rewrite print_bind
    | rewrite log_bind | rewrite exit_bind ].

(** The comparison of the two serialised key lists is the comparison of
    the key sets, [id] of the reference feature left out. *)
Lemma keys_compare f mf :
  String.eqb
    (JSON.stringify (sort (Object_keys (Feature.properties f))))
    (JSON.stringify (drop_id (sort (Object_keys (VectorTile.properties mf)))))
  = bool_decide (¬ keys_differ f mf).
Proof.
  rewrite drop_id_sorted_keys. unfold keys_differ.
  destruct (String.eqb_spec
    (JSON.stringify (sort (Object_keys (Feature.properties f))))
    (JSON.stringify (sort (Object_keys (delete "id" (VectorTile.properties mf))))))
    as [Heq|Hne]; symmetry.
  - apply bool_decide_eq_true. intros Hd. apply Hd.
    apply sorted_keys_eq_iff. by apply stringify_inj.
  - apply bool_decide_eq_false. intros Hd. apply Hne. f_equal.
    apply sorted_keys_eq_iff. by apply dec_stable.
Qed.

Lemma geometry_line_assertions env input f mf i :
  Forall is_assertion (geometry_line env input f mf i).
Proof.
  unfold geometry_line. case_match; [constructor|].
  constructor; [by eexists|constructor].
Qed.

(** A pair with the same keys: at most the geometry assertion speaks. *)
Lemma validate_feature_agree env input layer mvtLayer i f mf w :
  layer !! i = Some f → mvtLayer !! i = Some mf → ¬ keys_differ f mf →
  validate_feature env input layer (Some mvtLayer) i w
  = (Return tt, add_lines w (geometry_line env input f mf i)).
Proof.
  intros Hf Hmf Hagree. unfold validate_feature, mlt_feature, mvt_feature.
  rewrite Hf, Hmf, !ret_bind.
  assert (Hkeys : sort (Object_keys (Feature.properties f))
                  = drop_id (sort (Object_keys (VectorTile.properties mf)))).
  { rewrite drop_id_sorted_keys. apply sorted_keys_eq_iff. by apply dec_stable. }
  rewrite assert_bind, Hkeys, Nat.eqb_refl, String.eqb_refl.
  simpl negb. cbv iota. rewrite ret_bind.
  unfold geometry_line.
  case_match; [by rewrite assert_true, add_lines_nil|by rewrite assert_false].
Qed.

(** A pair whose keys differ ends the process. *)
Lemma validate_feature_differ env input layer mvtLayer i f mf w :
  layer !! i = Some f → mvtLayer !! i = Some mf → keys_differ f mf →
  ∃ pre,
    validate_feature env input layer (Some mvtLayer) i w
    = (Exit 1, add_lines w (pre ++ keys_report (tile input) i f mf))
    ∧ Forall is_assertion pre.
Proof.
  intros Hf Hmf Hdiff. unfold validate_feature, mlt_feature, mvt_feature.
  rewrite Hf, Hmf, !ret_bind, assert_bind.
  rewrite keys_compare, bool_decide_eq_false_2 by (by intros H; apply H).
  simpl negb. cbv iota.
  rewrite drop_id_sorted_keys.
  set (ok := (length _ =? length _)%nat).
  exists (if ok then [] else
            [assertion_failed ("Feature keys mismatch for " +:+ tile input)]).
  split.
  - unfold console.error, console.log.
    run_console. rewrite !add_lines_app.
    unfold keys_report. by destruct ok; rewrite ?add_lines_app.
  - destruct ok; constructor; [by eexists|constructor].
Qed.

End validate_facts.

Section validate_loops.
Import Process Bench.
Context {C TableMeta : Type}.
Implicit Types (env : Env C TableMeta) (input : Input TableMeta) (w : World).
Implicit Types (f : Feature.t C) (mf : VectorTile.Feature C).

(** The loop over the features of a layer, from any index on: either every
    pair has the same keys and the loop ends with assertion lines at most,
    or the process exits at the first pair whose keys differ. *)
Lemma layer_loop_cases env input (layer : list (Feature.t C))
    (mvtLayer : list (VectorTile.Feature C)) (n a : nat) w :
  (length layer ≤ length mvtLayer)%nat → (a + n ≤ length layer)%nat →
  (∃ pre,
      for_of (seq a n)
        (λ i _, validate_feature env input layer (Some mvtLayer) i) tt w
      = (Return tt, add_lines w pre)
      ∧ Forall is_assertion pre
      ∧ ∀ i f mf, (a ≤ i < a + n)%nat → layer !! i = Some f →
          mvtLayer !! i = Some mf → ¬ keys_differ f mf)
  ∨ (∃ i f mf pre,
      layer !! i = Some f ∧ mvtLayer !! i = Some mf ∧ keys_differ f mf
      ∧ for_of (seq a n)
          (λ i _, validate_feature env input layer (Some mvtLayer) i) tt w
        = (Exit 1, add_lines w (pre ++ keys_report (tile input) i f mf))
      ∧ Forall is_assertion pre).
Proof.
  intros Hlen. revert a w. induction n as [|n IH]; intros a w Han.
  - left. exists []. rewrite add_lines_nil. split_and!; [done|constructor|].
    intros i f mf Hi. lia.
  - destruct (lookup_lt_is_Some_2 layer a) as [f Hf]; [lia|].
    destruct (lookup_lt_is_Some_2 mvtLayer a) as [mf Hmf]; [lia|].
    simpl seq. rewrite for_of_cons.
    destruct (decide (keys_differ f mf)) as [Hd|Hd].
    + right. destruct (validate_feature_differ env input _ _ _ _ _ w Hf Hmf Hd)
        as (pre & Hrun & Hpre).
      exists a, f, mf, pre. split_and!; try done.
      by apply bind_Exit.
    + rewrite (bind_Return _ _ _ _ _
                 (validate_feature_agree env input _ _ _ _ _ w Hf Hmf Hd)).
      pose proof (geometry_line_assertions env input f mf a) as Hg.
      destruct (IH (S a) (add_lines w (geometry_line env input f mf a)))
        as [(pre & Hrun & Hpre & Hall)|(i & f' & mf' & pre & Hf' & Hmf' & Hd' & Hrun & Hpre)];
        [lia|..].
      * left. exists (geometry_line env input f mf a ++ pre)%list.
        rewrite Hrun, add_lines_app. split_and!; [done|by apply Forall_app|].
        intros i f' mf' Hi Hf' Hmf'.
        destruct (decide (i = a)) as [->|Hne]; [by simplify_eq|].
        apply (Hall i); [lia|done..].
      * right. exists i, f', mf', (geometry_line env input f mf a ++ pre)%list.
        rewrite Hrun, add_lines_app, <- app_assoc.
        split_and!; try done. by apply Forall_app.
Qed.

Lemma validate_layer_unfold env input (decoded : Layers (Feature.t C))
    (mvtDecoded : Layers (VectorTile.Feature C)) name layer count w :
  decoded !! name = Some layer →
  validate_layer env input decoded mvtDecoded name count w
  = (for_of (seq 0 (length layer))
       (λ i _, validate_feature env input layer (mvtDecoded !! name) i) tt
     ≫= λ _, mret (count + 1)%nat) w.
Proof.
  intros Hlayer. unfold validate_layer, lookup_layer, for_range.
  by rewrite Hlayer, ret_bind.
Qed.

(** The same for the loop over the layer names. *)
Lemma tile_loop_cases env input (decoded : Layers (Feature.t C))
    (mvtDecoded : Layers (VectorTile.Feature C)) (names : list string)
    (count : nat) w :
  covered decoded mvtDecoded →
  (∀ name, name ∈ names → is_Some (decoded !! name)) →
  (∃ pre,
      for_of names (validate_layer env input decoded mvtDecoded) count w
      = (Return (count + length names)%nat, add_lines w pre)
      ∧ Forall is_assertion pre
      ∧ ∀ name i f mf, name ∈ names →
          pair_at decoded mvtDecoded name i f mf → ¬ keys_differ f mf)
  ∨ (∃ name i f mf pre,
      name ∈ names ∧ pair_at decoded mvtDecoded name i f mf ∧ keys_differ f mf
      ∧ for_of names (validate_layer env input decoded mvtDecoded) count w
        = (Exit 1, add_lines w (pre ++ keys_report (tile input) i f mf))
      ∧ Forall is_assertion pre).
Proof.
  intros Hcov. revert count w. induction names as [|name names IH];
    intros count w Hnames.
  - left. exists []. rewrite add_lines_nil, Nat.add_0_r.
    split_and!; [done|constructor|]. by intros ???? ?%elem_of_nil.
  - destruct (Hnames name) as [layer Hlayer]; [by left|].
    destruct (Hcov _ _ Hlayer) as (mvtLayer & Hmvt & Hlen).
    rewrite !for_of_cons, !bind_unfold, !(validate_layer_unfold _ _ _ _ _ _ _ _ Hlayer).
    rewrite Hmvt, !bind_unfold.
    destruct (layer_loop_cases env input layer mvtLayer (length layer) 0 w Hlen)
      as [(pre & Hrun & Hpre & Hall)|(i & f & mf & pre & Hf & Hmf & Hd & Hrun & Hpre)];
      [lia|..].
    + rewrite Hrun. unfold mret, Proc_ret, ret.
      destruct (IH (count + 1)%nat (add_lines w pre))
        as [(pre' & Hrun' & Hpre' & Hall')
           |(name' & i & f & mf & pre' & Hin & Hpair & Hd & Hrun' & Hpre')].
      { intros name' Hin. apply Hnames. by right. }
      * left. exists (pre ++ pre')%list. rewrite Hrun', add_lines_app.
        split_and!; [f_equal; f_equal; simpl; lia|by apply Forall_app|].
        intros name' i f mf [->|Hin]%elem_of_cons Hpair; [|by eapply Hall'].
        destruct Hpair as (layer' & mvtLayer' & ? & Hf & ? & Hmf). simplify_eq.
        apply (Hall i); [|done..]. apply lookup_lt_Some in Hf. lia.
      * right. exists name', i, f, mf, (pre ++ pre')%list.
        rewrite Hrun', add_lines_app, <- app_assoc.
        split_and!; try done; [by right|by apply Forall_app].
    + right. exists name, i, f, mf, pre.
      rewrite Hrun.
      split_and!; try done; [by left|by exists layer, mvtLayer].
Qed.

End validate_loops.

Section validate_whole.
Import Process Bench.
Context {C TableMeta : Type}.
Implicit Types (env : Env C TableMeta) (input : Input TableMeta) (w : World).
Implicit Types (f : Feature.t C) (mf : VectorTile.Feature C).

(** [validate] after its two decoder calls. *)
Lemma validate_unfold env input w :
  validate env input w
  = (for_of (layerNames (decodeMlTile env (decodes w) (mltTile input) (tableMeta input)))
       (validate_layer env input
          (decodeMlTile env (decodes w) (mltTile input) (tableMeta input))
          (VectorTile env (S (decodes w)) (mvtTile input))) 0%nat
     ≫= λ count,
          console.assert (0 <? count)%nat
            ("Validation count mismatch for " +:+ tile input);;
          mret tt)
      {| output := output w; decodes := S (S (decodes w)) |}.
Proof. reflexivity. Qed.

Lemma elem_of_layerNames {F} (decoded : Layers F) name :
  name ∈ layerNames decoded ↔ is_Some (decoded !! name).
Proof. apply elem_of_sorted_keys. Qed.

(** [validate] on a reference tile that covers the MLT tile: it returns,
    having printed assertion lines at most, when no pair of features has
    different keys, and exits with code 1 after the report of such a pair
    otherwise. *)
Lemma validate_cases env input w :
  let decoded := decodeMlTile env (decodes w) (mltTile input) (tableMeta input) in
  let mvtDecoded := VectorTile env (S (decodes w)) (mvtTile input) in
  covered decoded mvtDecoded →
  (∃ pre,
      validate env input w
      = (Return tt, {| output := output w ++ pre; decodes := S (S (decodes w)) |})
      ∧ Forall is_assertion pre
      ∧ ∀ name i f mf, pair_at decoded mvtDecoded name i f mf → ¬ keys_differ f mf)
  ∨ (∃ name i f mf pre,
      pair_at decoded mvtDecoded name i f mf ∧ keys_differ f mf
      ∧ validate env input w
        = (Exit 1, {| output := output w ++ pre ++ keys_report (tile input) i f mf;
                      decodes := S (S (decodes w)) |})
      ∧ Forall is_assertion pre).
Proof.
  intros decoded mvtDecoded Hcov. rewrite !validate_unfold.
  fold decoded mvtDecoded. set (w2 := {| output := output w; decodes := _ |}).
  destruct (tile_loop_cases env input decoded mvtDecoded (layerNames decoded) 0 w2 Hcov)
    as [(pre & Hrun & Hpre & Hall)|(name & i & f & mf & pre & Hin & Hpair & Hd & Hrun & Hpre)].
  { intros name. by rewrite elem_of_layerNames. }
  - left. rewrite (bind_Return _ _ _ _ _ Hrun). cbv beta. rewrite assert_bind.
    unfold mret, Proc_ret, ret.
    destruct (0 <? 0 + length (layerNames decoded))%nat.
    + exists pre. split_and!; [done|done|].
      intros name i f mf Hpair. apply (Hall name i f mf); [|done].
      apply elem_of_layerNames. by destruct Hpair as (? & ? & -> & _).
    + exists (pre ++ [assertion_failed ("Validation count mismatch for " +:+ tile input)])%list.
      rewrite add_lines_app. split_and!; [done| |].
      * apply Forall_app. split; [done|]. constructor; [by eexists|constructor].
      * intros name i f mf Hpair. apply (Hall name i f mf); [|done].
        apply elem_of_layerNames. by destruct Hpair as (? & ? & -> & _).
  - right. exists name, i, f, mf, pre. split_and!; try done.
    by rewrite (bind_Exit _ _ _ _ _ Hrun).
Qed.

(** No difference of geometry types ends the process: on a reference tile
    that covers the MLT tile, [validate] returns whenever the keys of all
    pairs agree. *)
Lemma validate_returns_when_keys_agree env input w :
  let decoded := decodeMlTile env (decodes w) (mltTile input) (tableMeta input) in
  let mvtDecoded := VectorTile env (S (decodes w)) (mvtTile input) in
  covered decoded mvtDecoded →
  (∀ name i f mf, pair_at decoded mvtDecoded name i f mf → ¬ keys_differ f mf) →
  ∃ pre,
    validate env input w = (Return tt, add_lines (bump 2 w) pre)
    ∧ Forall is_assertion pre.
Proof.
  intros decoded mvtDecoded Hcov Hagree.
  destruct (validate_cases env input w Hcov)
    as [(pre & Hrun & Hpre & _)|(name & i & f & mf & pre & Hpair & Hd & _)].
  - by exists pre.
  - by destruct (Hagree name i f mf Hpair).
Qed.

(** [validate] reads the reference tile only through [mvtLayer.feature(i)]
    at the layer names and indices of the MLT tile. *)
Lemma validate_reference_reads env
    (decoder' : nat → Buffer → Layers (VectorTile.Feature C)) input w :
  let decoded := decodeMlTile env (decodes w) (mltTile input) (tableMeta input) in
  let mvtDecoded := VectorTile env (S (decodes w)) (mvtTile input) in
  let mvtDecoded' := decoder' (S (decodes w)) (mvtTile input) in
  (∀ name layer i w0,
      decoded !! name = Some layer → (i < length layer)%nat →
      mvt_feature (mvtDecoded' !! name) i w0 = mvt_feature (mvtDecoded !! name) i w0) →
  validate (with_VectorTile env decoder') input w = validate env input w.
Proof.
  intros decoded mvtDecoded mvtDecoded' Hsame. rewrite !validate_unfold.
  change (decodeMlTile (with_VectorTile env decoder')) with (decodeMlTile env).
  change (VectorTile (with_VectorTile env decoder')) with decoder'.
  fold decoded mvtDecoded mvtDecoded'.
  set (w2 := {| output := output w; decodes := _ |}).
  rewrite !(bind_unfold (for_of _ _ _)).
  rewrite (for_of_ext _ _ (validate_layer env input decoded mvtDecoded)); [done|].
  intros name count w0 [layer Hlayer]%elem_of_layerNames.
  rewrite !(validate_layer_unfold _ _ _ _ _ _ _ _ Hlayer), !bind_unfold.
  rewrite (for_of_ext _ _
             (λ i _, validate_feature env input layer (mvtDecoded !! name) i)); [done|].
  intros i [] w1 Hi%elem_of_seq. unfold validate_feature.
  rewrite !(bind_unfold (mlt_feature _ _)).
  destruct (mlt_feature layer i w1) as [[feature|c|e|] w1']; [|done..].
  rewrite !(bind_unfold (mvt_feature _ _)), (Hsame name layer i _ Hlayer) by lia.
  done.
Qed.

End validate_whole.

(* ================================================================== *)
(** * [runSuite]: the passes of a benchmark *)
(* ================================================================== *)

Section benchmark_facts.
Import Process Bench.
Context {F R : Type}.
Implicit Types (decoded : Layers F) (op : F → R) (w : World).

Lemma times_add {St} (a b : nat) (body : St → Proc St) s w :
  times (a + b) body s w = (times a body s ≫= times b body) w.
Proof.
  revert s w. induction a as [|a IH]; intros s w; [reflexivity|].
  change (times (S a + b) body s w) with ((body s ≫= times (a + b) body) w).
  change (times (S a) body s) with (body s ≫= times a body).
  rewrite bind_assoc, !bind_unfold.
  destruct (body s w) as [[s'|c|e|] w']; [|done..].
  by rewrite IH, bind_unfold.
Qed.

Lemma times_mul {St} (a b : nat) (body : St → Proc St) s w :
  times a (times b body) s w = times (a * b) body s w.
Proof.
  revert s w. induction a as [|a IH]; intros s w; [reflexivity|].
  change (S a * b)%nat with (b + a * b)%nat. rewrite times_add.
  change (times (S a) (times b body) s) with (times b body s ≫= times a (times b body)).
  rewrite !bind_unfold.
  destruct (times b body s w) as [[s'|c|e|] w']; [|done..].
  apply IH.
Qed.

(** A loop whose body ignores the loop variable. *)
Lemma for_of_times {A St} (xs : list A) (body : St → Proc St) s w :
  for_of xs (λ _, body) s w = times (length xs) body s w.
Proof.
  revert s w. induction xs as [|x xs IH]; intros s w; [reflexivity|].
  rewrite for_of_cons. simpl length.
  change (times (S (length xs)) body s) with (body s ≫= times (length xs) body).
  rewrite !bind_unfold.
  destruct (body s w) as [[s'|c|e|] w']; [|done..].
  apply IH.
Qed.

Lemma for_range_times {St} (n : nat) (body : St → Proc St) s w :
  for_range n (λ _, body) s w = times n body s w.
Proof. unfold for_range. by rewrite for_of_times, length_seq. Qed.

Lemma nth_feature_Some (layer : list F) j f :
  layer !! j = Some f → nth_feature layer j = mret f.
Proof. intros H. unfold nth_feature. by rewrite H. Qed.

Lemma lookup_layer_Some decoded name layer :
  decoded !! name = Some layer → lookup_layer decoded name = mret layer.
Proof. intros H. unfold lookup_layer. by rewrite H. Qed.

(** The inner loop of a pass counts the features of the layer. *)
Lemma count_layer op (layer : list F) (n a count : nat) w :
  (a + n ≤ length layer)%nat →
  for_of (seq a n)
    (λ j count, feature ← nth_feature layer j;
                let result := op feature in mret (count + 1)%nat) count w
  = (Return (count + n)%nat, w).
Proof.
  revert a count. induction n as [|n IH]; intros a count Han.
  - simpl. by rewrite Nat.add_0_r.
  - simpl seq. rewrite for_of_cons. cbv beta.
    destruct (lookup_lt_is_Some_2 layer a) as [f Hf]; [lia|].
    rewrite (nth_feature_Some _ _ _ Hf), bind_assoc, ret_bind. cbv zeta.
    rewrite ret_bind, IH by lia.
    do 2 f_equal. lia.
Qed.

Lemma count_layers op decoded (names : list string) (count : nat) w :
  (∀ name, name ∈ names → is_Some (decoded !! name)) →
  for_of names
    (λ layerName count,
       layer ← lookup_layer decoded layerName;
       for_range (length layer)
         (λ j count, feature ← nth_feature layer j;
                     let result := op feature in mret (count + 1)%nat) count)
    count w
  = (Return (count + sum_list_with
                        (λ name, length (default [] (decoded !! name))) names)%nat, w).
Proof.
  revert count. induction names as [|name names IH]; intros count Hnames.
  - simpl. by rewrite Nat.add_0_r.
  - destruct (Hnames name) as [layer Hlayer]; [by left|].
    rewrite for_of_cons. cbv beta.
    rewrite (lookup_layer_Some _ _ _ Hlayer), bind_assoc, ret_bind.
    unfold for_range.
    rewrite (bind_Return _ _ _ _ _
               (count_layer op layer (length layer) 0 count w (le_n (length layer)))).
    rewrite IH by (intros; apply Hnames; by right).
    simpl. rewrite Hlayer. simpl. do 2 f_equal. lia.
Qed.

Lemma sum_layers_feature_count decoded :
  sum_list_with (λ name, length (default [] (decoded !! name))) (layerNames decoded)
  = feature_count decoded.
Proof.
  unfold layerNames, feature_count. rewrite sort_Permutation. unfold Object_keys.
  assert (Hall : Forall (λ e, decoded !! e.1 = Some e.2) (map_to_list decoded)).
  { apply Forall_forall. intros [k v]. apply elem_of_map_to_list. }
  revert Hall. generalize (map_to_list decoded). intros l.
  induction 1 as [|[k v] l Hkv _ IH]; [done|].
  cbn [fmap list_fmap sum_list_with fst snd] in *. by rewrite Hkv, IH.
Qed.

(** A traversal visits every feature of the tile once, whatever [op] is. *)
Lemma traverse_count op decoded w :
  traverse op decoded w = (Return (feature_count decoded), w).
Proof.
  unfold traverse. cbv zeta. rewrite (count_layers op).
  - by rewrite sum_layers_feature_count.
  - intros name. by rewrite elem_of_layerNames.
Qed.

End benchmark_facts.

Section passes.
Import Process Bench.
Context {C TableMeta F R : Type}.
Implicit Types (env : Env C TableMeta) (decoder : nat → Layers F) (op : F → R).
Implicit Types (w : World).

Lemma times_ext {St} (n : nat) (f g : St → Proc St) s w :
  (∀ s w, f s w = g s w) → times n f s w = times n g s w.
Proof.
  intros Hfg. revert s w. induction n as [|n IH]; intros s w; [reflexivity|].
  change (times (S n) ?b s) with (b s ≫= times n b).
  rewrite !bind_unfold, Hfg.
  destruct (g s w) as [[s'|c|e|] w']; [|done..]. apply IH.
Qed.

Lemma bump_bump (a b : nat) w : bump a (bump b w) = bump (a + b) w.
Proof. unfold bump. simpl. f_equal. lia. Qed.

Lemma bump_0 w : bump 0 w = w.
Proof. by destruct w. Qed.

Lemma add_lines_bump (n : nat) w lines :
  add_lines (bump n w) lines = bump n (add_lines w lines).
Proof. reflexivity. Qed.

(** A pass is the test of the tile's feature count. *)
Lemma pass_run decoder op tile opts w :
  pass decoder op tile opts w
  = check_count tile (feature_count (decoder (decodes w))) opts (bump 1 w).
Proof.
  unfold pass, decode_with. rewrite bind_unfold. cbv iota beta.
  by rewrite (bind_Return _ _ _ _ _ (traverse_count op _ _)).
Qed.

Lemma fn_passes decoder op tile opts w :
  fn (decode_with decoder) op tile opts w
  = times IN_LOOP_ITERATIONS (pass decoder op tile) opts w.
Proof. unfold fn. by rewrite <- for_range_times. Qed.

(** The passes that follow the recording of the count [c]: they all find
    [c] again, which is at least 1, or the process exits at the first pass
    that does not. *)
Lemma times_pass_cases decoder op tile (n c : nat) w :
  (times n (pass decoder op tile) (Some c) w = (Return (Some c), bump n w)
   ∧ ∀ k, (k < n)%nat →
       feature_count (decoder (k + decodes w)%nat) = c
       ∧ (1 ≤ feature_count (decoder (k + decodes w)%nat))%nat)
  ∨ (∃ k, (k < n)%nat
      ∧ (feature_count (decoder (k + decodes w)%nat) ≠ c
         ∨ (feature_count (decoder (k + decodes w)%nat) < 1)%nat)
      ∧ (∀ j, (j < k)%nat →
           feature_count (decoder (j + decodes w)%nat) = c
           ∧ (1 ≤ feature_count (decoder (j + decodes w)%nat))%nat)
      ∧ times n (pass decoder op tile) (Some c) w
        = (Exit 1, add_lines (bump (S k) w) [count_mismatch tile])).
Proof.
  revert w. induction n as [|n IH]; intros w.
  - left. rewrite bump_0. split; [done|]. intros k Hk. lia.
  - assert (Hstep : times (S n) (pass decoder op tile) (Some c) w
            = (check_count tile (feature_count (decoder (decodes w))) (Some c)
               ≫= times n (pass decoder op tile)) (bump 1 w)).
    { change (times (S n) ?b ?s) with (b s ≫= times n b).
      by rewrite !bind_unfold, pass_run. }
    rewrite !Hstep. clear Hstep. unfold check_count.
    destruct (Nat.eqb_spec (feature_count (decoder (decodes w))) c) as [Hc|Hc];
      [destruct (Nat.ltb_spec (feature_count (decoder (decodes w))) 1) as [H1|H1]|];
      simpl negb; simpl orb; cbv iota.
    + right. exists 0%nat. unfold console.error.
      rewrite bind_assoc, print_bind, exit_bind.
      split_and!; [lia|by right| intros j Hj; lia|done].
    + rewrite !ret_bind.
      destruct (IH (bump 1 w)) as [[Hrun Hall]|(k & Hk & Hbad & Hbefore & Hrun)].
      * left. rewrite Hrun, bump_bump. split; [by rewrite Nat.add_1_r|].
        intros [|k] Hk; [done|].
        replace (S k + decodes w)%nat with (k + decodes (bump 1 w))%nat
          by (simpl; lia).
        apply Hall. lia.
      * right. exists (S k). rewrite Hrun, bump_bump.
        replace (S k + decodes w)%nat with (k + decodes (bump 1 w))%nat
          by (simpl; lia).
        split_and!; [lia|done| |by rewrite Nat.add_1_r].
        intros [|j] Hj; [done|].
        replace (S j + decodes w)%nat with (j + decodes (bump 1 w))%nat
          by (simpl; lia).
        apply Hbefore. lia.
    + right. exists 0%nat. unfold console.error.
      rewrite bind_assoc, print_bind, exit_bind.
      split_and!; [lia|by left| intros j Hj; lia|done].
Qed.

End passes.

(** ** The outcomes of [validate] *)

Section validate_outcomes.
Import Process Bench.
Context {C TableMeta : Type}.
Implicit Types (env : Env C TableMeta) (input : Input TableMeta) (w : World).
Implicit Types (f : Feature.t C) (mf : VectorTile.Feature C).

(** A feature without a reference feature: [mvtLayer.feature(i)] throws. *)
Lemma validate_feature_unpaired env input (layer : list (Feature.t C))
    (mvtLayer : option (list (VectorTile.Feature C))) i f w :
  layer !! i = Some f →
  (∀ ml, mvtLayer = Some ml → ml !! i = None) →
  validate_feature env input layer mvtLayer i w
  = (Throw (reference_error mvtLayer), w).
Proof.
  intros Hf Hno. unfold validate_feature, mlt_feature, mvt_feature.
  rewrite Hf, ret_bind.
  destruct mvtLayer as [ml|]; [rewrite (Hno ml eq_refl)|]; reflexivity.
Qed.

(** The loop over the features of a layer ends in one of three ways: it
    returns, every feature of the range having a reference feature with
    the same keys; or it stops at the first index of the range where this
    fails, with an exit where the keys of the pair differ and with an
    exception where there is no reference feature. *)
Lemma layer_loop_outcome env input (layer : list (Feature.t C))
    (mvtLayer : option (list (VectorTile.Feature C))) (n a : nat) w :
  (a + n ≤ length layer)%nat →
  (∃ pre,
      for_of (seq a n) (λ i _, validate_feature env input layer mvtLayer i) tt w
      = (Return tt, add_lines w pre)
      ∧ Forall is_assertion pre
      ∧ ∀ j f, (a ≤ j < a + n)%nat → layer !! j = Some f →
          ∃ ml mf, mvtLayer = Some ml ∧ ml !! j = Some mf ∧ ¬ keys_differ f mf)
  ∨ (∃ i f ml mf pre,
      (a ≤ i < a + n)%nat
      ∧ layer !! i = Some f ∧ mvtLayer = Some ml ∧ ml !! i = Some mf
      ∧ keys_differ f mf
      ∧ for_of (seq a n) (λ i _, validate_feature env input layer mvtLayer i) tt w
        = (Exit 1, add_lines w (pre ++ keys_report (tile input) i f mf))
      ∧ Forall is_assertion pre
      ∧ ∀ j f', (a ≤ j < i)%nat → layer !! j = Some f' →
          ∃ ml' mf', mvtLayer = Some ml' ∧ ml' !! j = Some mf' ∧ ¬ keys_differ f' mf')
  ∨ (∃ i pre,
      (a ≤ i < a + n)%nat
      ∧ (∀ ml, mvtLayer = Some ml → (length ml ≤ i)%nat)
      ∧ for_of (seq a n) (λ i _, validate_feature env input layer mvtLayer i) tt w
        = (Throw (reference_error mvtLayer), add_lines w pre)
      ∧ Forall is_assertion pre
      ∧ ∀ j f', (a ≤ j < i)%nat → layer !! j = Some f' →
          ∃ ml' mf', mvtLayer = Some ml' ∧ ml' !! j = Some mf' ∧ ¬ keys_differ f' mf').
Proof.
  revert a w. induction n as [|n IH]; intros a w Han.
  - left. exists []. rewrite add_lines_nil. split_and!; [done|constructor|].
    intros i f Hi. lia.
  - destruct (lookup_lt_is_Some_2 layer a) as [f Hf]; [lia|].
    assert (Hstep : ∀ o w1,
      validate_feature env input layer mvtLayer a w = (o, w1) →
      for_of (seq a (S n)) (λ i _, validate_feature env input layer mvtLayer i) tt w
      = match o with
        | Return _ =>
            for_of (seq (S a) n)
              (λ i _, validate_feature env input layer mvtLayer i) tt w1
        | Exit c => (Exit c, w1)
        | Throw e => (Throw e, w1)
        | Pending => (Pending, w1)
        end).
    { intros o w1 Ho. simpl seq. rewrite for_of_cons, bind_unfold, Ho.
      by destruct o as [[]| | |]. }
    assert (Hcase : (∃ ml mf, mvtLayer = Some ml ∧ ml !! a = Some mf)
                    ∨ ¬ (∃ ml mf, mvtLayer = Some ml ∧ ml !! a = Some mf)).
    { destruct mvtLayer as [ml|]; [destruct (ml !! a) as [mf|] eqn:Hmf|].
      - left. by exists ml, mf.
      - right. intros (ml' & mf & ? & ?). by simplify_eq.
      - right. by intros (ml' & mf & ? & ?). }
    destruct Hcase as [(ml & mf & -> & Hmf)|Hnone].
    + destruct (decide (keys_differ f mf)) as [Hd|Hd].
      * right; left.
        destruct (validate_feature_differ env input _ _ _ _ _ w Hf Hmf Hd)
          as (pre & Hrun & Hpre).
        exists a, f, ml, mf, pre. rewrite (Hstep _ _ Hrun).
        split_and!; try done; try lia.
      * rewrite (Hstep _ _ (validate_feature_agree env input _ _ _ _ _ w Hf Hmf Hd)).
        pose proof (geometry_line_assertions env input f mf a) as Hg.
        assert (Hfirst : ∀ i, (S a ≤ i)%nat →
          (∀ j f', (S a ≤ j < i)%nat → layer !! j = Some f' →
             ∃ ml' mf', Some ml = Some ml' ∧ ml' !! j = Some mf'
                        ∧ ¬ keys_differ f' mf') →
          ∀ j f', (a ≤ j < i)%nat → layer !! j = Some f' →
             ∃ ml' mf', Some ml = Some ml' ∧ ml' !! j = Some mf'
                        ∧ ¬ keys_differ f' mf').
        { intros i Hi Hall j f' Hj Hf'.
          destruct (decide (j = a)) as [->|Hne].
          - exists ml, mf. by simplify_eq.
          - apply Hall; [lia|done]. }
        destruct (IH (S a) (add_lines w (geometry_line env input f mf a)))
          as [(pre & Hrun & Hpre & Hall)
             |[(i & f' & ml' & mf' & pre & Hi & Hf' & Hml' & Hmf' & Hd' & Hrun
                & Hpre & Hall)
              |(i & pre & Hi & Hshort & Hrun & Hpre & Hall)]]; [lia|..].
        -- left. exists (geometry_line env input f mf a ++ pre)%list.
           rewrite Hrun, add_lines_app. split_and!; [done|by apply Forall_app|].
           intros j f' Hj Hf'.
           apply (Hfirst (S a + n)%nat); [lia|done|lia|done].
        -- right; left.
           exists i, f', ml', mf', (geometry_line env input f mf a ++ pre)%list.
           rewrite Hrun, add_lines_app, <- app_assoc.
           split_and!; try done; try lia; [by apply Forall_app|].
           apply Hfirst; [lia|done].
        -- right; right. exists i, (geometry_line env input f mf a ++ pre)%list.
           rewrite Hrun, add_lines_app.
           split_and!; try done; try lia; [by apply Forall_app|].
           apply Hfirst; [lia|done].
    + right; right. exists a, []. rewrite add_lines_nil.
      assert (Hno : ∀ ml, mvtLayer = Some ml → ml !! a = None).
      { intros ml ->. destruct (ml !! a) as [mf|] eqn:Hmf; [|done].
        destruct Hnone. by exists ml, mf. }
      rewrite (Hstep _ _ (validate_feature_unpaired env input _ _ _ _ w Hf Hno)).
      split_and!; [lia|lia| |done|constructor|].
      * intros ml Hml. by apply lookup_ge_None, Hno.
      * intros j f' Hj. lia.
Qed.

(** The same for the loop over the layer names: where the loop stops,
    every feature of the layers before and every earlier feature of the
    layer has a reference feature with the same keys. *)
Lemma tile_loop_outcome env input (decoded : Layers (Feature.t C))
    (mvtDecoded : Layers (VectorTile.Feature C)) (names : list string)
    (count : nat) w :
  (∀ name, name ∈ names → is_Some (decoded !! name)) →
  (∃ pre,
      for_of names (validate_layer env input decoded mvtDecoded) count w
      = (Return (count + length names)%nat, add_lines w pre)
      ∧ Forall is_assertion pre
      ∧ ∀ name layer i f, name ∈ names →
          decoded !! name = Some layer → layer !! i = Some f →
          ∃ mf, pair_at decoded mvtDecoded name i f mf ∧ ¬ keys_differ f mf)
  ∨ (∃ name i f mf pre l1 l2,
      names = (l1 ++ name :: l2)%list
      ∧ pair_at decoded mvtDecoded name i f mf ∧ keys_differ f mf
      ∧ for_of names (validate_layer env input decoded mvtDecoded) count w
        = (Exit 1, add_lines w (pre ++ keys_report (tile input) i f mf))
      ∧ Forall is_assertion pre
      ∧ ∀ name' layer j f', (name' ∈ l1 ∨ (name' = name ∧ j < i)%nat) →
          decoded !! name' = Some layer → layer !! j = Some f' →
          ∃ mf', pair_at decoded mvtDecoded name' j f' mf' ∧ ¬ keys_differ f' mf')
  ∨ (∃ name i pre l1 l2,
      names = (l1 ++ name :: l2)%list
      ∧ unpaired decoded mvtDecoded name i
      ∧ for_of names (validate_layer env input decoded mvtDecoded) count w
        = (Throw (reference_error (mvtDecoded !! name)), add_lines w pre)
      ∧ Forall is_assertion pre
      ∧ ∀ name' layer j f', (name' ∈ l1 ∨ (name' = name ∧ j < i)%nat) →
          decoded !! name' = Some layer → layer !! j = Some f' →
          ∃ mf', pair_at decoded mvtDecoded name' j f' mf' ∧ ¬ keys_differ f' mf').
Proof.
  revert count w. induction names as [|name names IH]; intros count w Hnames.
  - left. exists []. rewrite add_lines_nil, Nat.add_0_r.
    split_and!; [done|constructor|]. by intros ???? ?%elem_of_nil.
  - destruct (Hnames name) as [layer Hlayer]; [by left|].
    assert (Hstep : ∀ o w1,
      for_of (seq 0 (length layer))
        (λ i _, validate_feature env input layer (mvtDecoded !! name) i) tt w
      = (o, w1) →
      for_of (name :: names) (validate_layer env input decoded mvtDecoded) count w
      = match o with
        | Return _ =>
            for_of names (validate_layer env input decoded mvtDecoded)
              (count + 1)%nat w1
        | Exit c => (Exit c, w1)
        | Throw e => (Throw e, w1)
        | Pending => (Pending, w1)
        end).
    { intros o w1 Ho.
      rewrite for_of_cons, bind_unfold, (validate_layer_unfold _ _ _ _ _ _ _ _ Hlayer).
      rewrite bind_unfold, Ho. by destruct o as [[]| | |]. }
    assert (Hhere : ∀ i,
      (∀ j f', (0 ≤ j < i)%nat → layer !! j = Some f' →
         ∃ ml' mf', mvtDecoded !! name = Some ml' ∧ ml' !! j = Some mf'
                    ∧ ¬ keys_differ f' mf') →
      ∀ name' layer' j f', (name' ∈ [] ∨ (name' = name ∧ j < i)%nat) →
        decoded !! name' = Some layer' → layer' !! j = Some f' →
        ∃ mf', pair_at decoded mvtDecoded name' j f' mf' ∧ ¬ keys_differ f' mf').
    { intros i Hall name' layer' j f' [Hin|[-> Hj]] Hlayer' Hf';
        [by apply elem_of_nil in Hin|].
      simplify_eq. destruct (Hall j f') as (ml' & mf' & Hml' & Hmf' & Hagree);
        [lia|done|].
      exists mf'. split; [|done]. eexists _, ml'. by split_and!. }
    destruct (layer_loop_outcome env input layer (mvtDecoded !! name)
                (length layer) 0 w)
      as [(pre & Hrun & Hpre & Hall)
         |[(i & f & ml & mf & pre & Hi & Hf & Hml & Hmf & Hd & Hrun & Hpre & Hall)
          |(i & pre & Hi & Hshort & Hrun & Hpre & Hall)]]; [lia|..].
    + rewrite (Hstep _ _ Hrun).
      assert (Hlayer_ok : ∀ layer' j f', decoded !! name = Some layer' →
                layer' !! j = Some f' →
                ∃ mf', pair_at decoded mvtDecoded name j f' mf' ∧ ¬ keys_differ f' mf').
      { intros layer' j f' Hlayer' Hf'.
        refine (Hhere (S j) _ name layer' j f' _ Hlayer' Hf').
        - intros j' f'' Hj' Hf''. apply Hall; [|done].
          apply lookup_lt_Some in Hf''. lia.
        - right. split; [done|lia]. }
      destruct (IH (count + 1)%nat (add_lines w pre))
        as [(pre' & Hrun' & Hpre' & Hall')
           |[(name' & i & f & mf & pre' & l1 & l2 & -> & Hpair & Hd & Hrun' & Hpre'
              & Hall')
            |(name' & i & pre' & l1 & l2 & -> & Hun & Hrun' & Hpre' & Hall')]].
      { intros name' Hin. apply Hnames. by right. }
      * left. exists (pre ++ pre')%list. rewrite Hrun', add_lines_app.
        split_and!; [f_equal; f_equal; simpl; lia|by apply Forall_app|].
        intros name' layer' i f [->|Hin]%elem_of_cons Hlayer' Hf;
          [by eapply Hlayer_ok|by eapply Hall'].
      * right; left. exists name', i, f, mf, (pre ++ pre')%list, (name :: l1), l2.
        rewrite Hrun', add_lines_app, <- app_assoc.
        split_and!; try done; [by apply Forall_app|].
        intros name'' layer' j f' [[->|Hin]%elem_of_cons|Hsame] Hlayer' Hf'.
        -- by eapply Hlayer_ok.
        -- eapply Hall'; [by left|done..].
        -- eapply Hall'; [by right|done..].
      * right; right. exists name', i, (pre ++ pre')%list, (name :: l1), l2.
        rewrite Hrun', add_lines_app.
        split_and!; try done; [by apply Forall_app|].
        intros name'' layer' j f' [[->|Hin]%elem_of_cons|Hsame] Hlayer' Hf'.
        -- by eapply Hlayer_ok.
        -- eapply Hall'; [by left|done..].
        -- eapply Hall'; [by right|done..].
    + right; left. exists name, i, f, mf, pre, [], names. rewrite (Hstep _ _ Hrun).
      split_and!; try done; [by exists layer, ml|].
      exact (Hhere i Hall).
    + right; right. exists name, i, pre, [], names. rewrite (Hstep _ _ Hrun).
      split_and!; try done; [|exact (Hhere i Hall)].
      exists layer. split_and!; [done|lia|].
      destruct (mvtDecoded !! name) as [ml|]; [by apply Hshort|done].
Qed.

(** The features visited before feature [i] of a layer, by the place of
    the layer in the list of layer names. *)
Lemma matched_before_intro (decoded : Layers (Feature.t C))
    (mvtDecoded : Layers (VectorTile.Feature C)) (l1 l2 : list string) name i :
  layerNames decoded = (l1 ++ name :: l2)%list →
  (∀ name' layer j f', (name' ∈ l1 ∨ (name' = name ∧ j < i)%nat) →
     decoded !! name' = Some layer → layer !! j = Some f' →
     ∃ mf', pair_at decoded mvtDecoded name' j f' mf' ∧ ¬ keys_differ f' mf') →
  matched_before decoded mvtDecoded name i.
Proof.
  intros Hnames Hall name' layer j f' (k' & k & Hk' & Hk & Hord) Hlayer Hf'.
  apply (Hall name' layer j f'); [|done..].
  assert (k = length l1) as ->.
  { apply (NoDup_lookup (layerNames decoded) _ _ name);
      [apply sorted_keys_NoDup|done|].
    rewrite Hnames. apply list_lookup_middle. done. }
  destruct Hord as [Hlt|[-> Hj]].
  - left. rewrite Hnames, lookup_app_l in Hk' by done.
    by eapply list_elem_of_lookup_2.
  - right. split; [|done]. rewrite Hnames, list_lookup_middle in Hk' by done.
    by simplify_eq.
Qed.

(** [validate] returns when every feature of the MLT tile is matched;
    otherwise it stops at the first feature, in the order of the loops,
    that is not: with exit code 1 and the report of the pair when the keys
    of the pair differ, with an exception when the reference tile has no
    feature there. *)
Lemma validate_outcome env input w :
  let decoded := decodeMlTile env (decodes w) (mltTile input) (tableMeta input) in
  let mvtDecoded := VectorTile env (S (decodes w)) (mvtTile input) in
  (∃ pre,
      validate env input w = (Return tt, add_lines (bump 2 w) pre)
      ∧ Forall is_assertion pre
      ∧ matched decoded mvtDecoded)
  ∨ (∃ name i f mf pre,
      pair_at decoded mvtDecoded name i f mf ∧ keys_differ f mf
      ∧ validate env input w
        = (Exit 1, add_lines (bump 2 w) (pre ++ keys_report (tile input) i f mf))
      ∧ Forall is_assertion pre
      ∧ matched_before decoded mvtDecoded name i)
  ∨ (∃ name i pre,
      unpaired decoded mvtDecoded name i
      ∧ validate env input w
        = (Throw (reference_error (mvtDecoded !! name)), add_lines (bump 2 w) pre)
      ∧ Forall is_assertion pre
      ∧ matched_before decoded mvtDecoded name i).
Proof.
  intros decoded mvtDecoded.
  assert (Hstep : ∀ o w1,
    for_of (layerNames decoded) (validate_layer env input decoded mvtDecoded)
      0%nat (bump 2 w) = (o, w1) →
    validate env input w
    = match o with
      | Return count =>
          (Return tt,
           if (0 <? count)%nat then w1
           else add_lines w1
                  [assertion_failed ("Validation count mismatch for " +:+ tile input)])
      | Exit c => (Exit c, w1)
      | Throw e => (Throw e, w1)
      | Pending => (Pending, w1)
      end).
  { intros o w1 Ho. rewrite validate_unfold. fold decoded mvtDecoded.
    change {| output := output w; decodes := S (S (decodes w)) |} with (bump 2 w).
    rewrite bind_unfold, Ho. destruct o as [count| | |]; [|done..].
    by rewrite assert_bind. }
  destruct (tile_loop_outcome env input decoded mvtDecoded (layerNames decoded)
              0 (bump 2 w))
    as [(pre & Hrun & Hpre & Hall)
       |[(name & i & f & mf & pre & l1 & l2 & Hnames & Hpair & Hd & Hrun & Hpre
          & Hall)
        |(name & i & pre & l1 & l2 & Hnames & Hun & Hrun & Hpre & Hall)]].
  { intros name. by rewrite elem_of_layerNames. }
  - left. rewrite (Hstep _ _ Hrun).
    assert (Hm : matched decoded mvtDecoded).
    { intros name layer i f Hlayer Hf. apply (Hall name layer i f); [|done..].
      apply elem_of_layerNames. by exists layer. }
    destruct (0 <? 0 + length (layerNames decoded))%nat.
    + by exists pre.
    + exists (pre ++ [assertion_failed ("Validation count mismatch for " +:+ tile input)])%list.
      rewrite add_lines_app. split_and!; [done| |done].
      apply Forall_app. split; [done|]. constructor; [by eexists|constructor].
  - right; left. exists name, i, f, mf, pre. rewrite (Hstep _ _ Hrun).
    split_and!; try done. by eapply matched_before_intro.
  - right; right. exists name, i, pre. rewrite (Hstep _ _ Hrun).
    split_and!; try done. by eapply matched_before_intro.
Qed.

(** A matched tile has no pair whose keys differ and no feature without
    a reference feature. *)
Lemma matched_pair (decoded : Layers (Feature.t C))
    (mvtDecoded : Layers (VectorTile.Feature C)) name i f mf :
  matched decoded mvtDecoded → pair_at decoded mvtDecoded name i f mf →
  ¬ keys_differ f mf.
Proof.
  intros Hm (layer & ml & Hlayer & Hf & Hml & Hmf).
  destruct (Hm name layer i f Hlayer Hf)
    as (mf' & (layer' & ml' & ? & ? & ? & ?) & Hagree).
  by simplify_eq.
Qed.

Lemma matched_paired (decoded : Layers (Feature.t C))
    (mvtDecoded : Layers (VectorTile.Feature C)) name i :
  matched decoded mvtDecoded → ¬ unpaired decoded mvtDecoded name i.
Proof.
  intros Hm (layer & Hlayer & Hi & Hno).
  destruct (lookup_lt_is_Some_2 layer i Hi) as [f Hf].
  destruct (Hm name layer i f Hlayer Hf)
    as (mf & (layer' & ml & ? & ? & Hml & Hmf) & _).
  rewrite Hml in Hno. apply lookup_lt_Some in Hmf. lia.
Qed.

(** No pair visited before a place with [matched_before] has different
    keys. *)
Lemma matched_before_pair (decoded : Layers (Feature.t C))
    (mvtDecoded : Layers (VectorTile.Feature C)) name i name' j f' mf' :
  matched_before decoded mvtDecoded name i →
  visited_before decoded name' j name i →
  pair_at decoded mvtDecoded name' j f' mf' → ¬ keys_differ f' mf'.
Proof.
  intros Hm Hbefore (layer & ml & Hlayer & Hf & Hml & Hmf).
  destruct (Hm name' layer j f' Hbefore Hlayer Hf)
    as (mf'' & (layer' & ml' & ? & ? & ? & ?) & Hagree).
  by simplify_eq.
Qed.

(** A reference tile that has a feature for every feature of the MLT tile
    has one, in particular, for those that no mismatch precedes. *)
Lemma covered_covered_until_mismatch (decoded : Layers (Feature.t C))
    (mvtDecoded : Layers (VectorTile.Feature C)) :
  covered decoded mvtDecoded → covered_until_mismatch decoded mvtDecoded.
Proof.
  intros Hcov name layer i f Hlayer Hf _.
  destruct (Hcov name layer Hlayer) as (ml & Hml & Hlen).
  destruct (lookup_lt_is_Some_2 ml i) as [mf Hmf].
  { apply lookup_lt_Some in Hf. lia. }
  exists mf. by exists layer, ml.
Qed.

(** A matched tile passes, with lines of failed assertions at most. *)
Lemma validate_matched env input w :
  matched (decodeMlTile env (decodes w) (mltTile input) (tableMeta input))
          (VectorTile env (S (decodes w)) (mvtTile input)) →
  ∃ pre,
    validate env input w = (Return tt, add_lines (bump 2 w) pre)
    ∧ Forall is_assertion pre.
Proof.
  intros Hm.
  destruct (validate_outcome env input w)
    as [(pre & Hrun & Hpre & _)
       |[(name & i & f & mf & pre & Hpair & Hd & _)
        |(name & i & pre & Hun & _)]].
  - by exists pre.
  - by destruct (matched_pair _ _ _ _ _ _ Hm Hpair).
  - by destruct (matched_paired _ _ name i Hm).
Qed.

(** A tile whose layers are all empty: the loops print nothing. *)
Lemma tile_loop_empty_layers env input (decoded : Layers (Feature.t C))
    (mvtDecoded : Layers (VectorTile.Feature C)) (names : list string)
    (count : nat) w :
  (∀ name, name ∈ names → decoded !! name = Some []) →
  for_of names (validate_layer env input decoded mvtDecoded) count w
  = (Return (count + length names)%nat, w).
Proof.
  revert count. induction names as [|name names IH]; intros count Hnames.
  - simpl. by rewrite Nat.add_0_r.
  - rewrite for_of_cons, bind_unfold.
    rewrite (validate_layer_unfold _ _ _ _ _ [] _ _ (Hnames name ltac:(by left))).
    simpl. rewrite IH by (intros; apply Hnames; by right).
    do 2 f_equal. lia.
Qed.

End validate_outcomes.

(* ================================================================== *)
(** * The claims of the specification *)
(* ================================================================== *)

Section count_invariant.
Import Process Bench.
Context {C TableMeta F R : Type}.

(** The calls benchmark.js makes to [fn] are so many passes in a row. *)
Lemma run_benchmark_passes (env : Env C TableMeta) (name tile : string)
    (decoder : nat → Layers F) (op : F → R) (w : World) :
  run_benchmark env name (fn (decode_with decoder) op tile) w
  = (times (samples env name * IN_LOOP_ITERATIONS) (pass decoder op tile) None
     ≫= λ opts, console.log (cycle env name);; mret opts) w.
Proof.
  unfold run_benchmark. rewrite !(bind_unfold _ _ w).
  rewrite (for_range_times _ (fn (decode_with decoder) op tile)).
  rewrite (times_ext _ _ (times IN_LOOP_ITERATIONS (pass decoder op tile)))
    by apply fn_passes.
  by rewrite times_mul.
Qed.

(** C1. In every benchmark scenario the count of the first pass is recorded
    and every later pass, in whichever call of [fn] it falls, is tested
    against it: if the count of some later pass differs from the recorded
    one or is below 1, the process exits with code 1 at the first such pass,
    right after the line [Feature count mismatch for <tile>] on stderr;
    if no later pass does, the scenario completes with the recorded count. *)
Theorem feature_count_invariant (env : Env C TableMeta) (name tile : string)
    (decoder : nat → Layers F) (op : F → R) (w : World) :
  let count k := feature_count (decoder (k + decodes w)%nat) in
  let passes := (samples env name * IN_LOOP_ITERATIONS)%nat in
  ((∃ k, (0 < k < passes)%nat ∧ (count k ≠ count 0%nat ∨ (count k < 1)%nat)) →
   ∃ k, (0 < k < passes)%nat
     ∧ (count k ≠ count 0%nat ∨ (count k < 1)%nat)
     ∧ (∀ j, (0 < j < k)%nat → count j = count 0%nat ∧ (1 ≤ count j)%nat)
     ∧ run_benchmark env name (fn (decode_with decoder) op tile) w
       = (Exit 1, add_lines (bump (S k) w) [count_mismatch tile]))
  ∧ ((∀ k, (0 < k < passes)%nat → count k = count 0%nat ∧ (1 ≤ count k)%nat) →
     (0 < passes)%nat →
     run_benchmark env name (fn (decode_with decoder) op tile) w
     = (Return (Some (count 0%nat)),
        add_lines (bump passes w) [{| stream := stdout; text := cycle env name |}])).
Proof.
  intros count passes. rewrite !run_benchmark_passes. fold passes.
  destruct passes as [|n]; [split; [intros (k & Hk & _)|intros _ H0]; lia|].
  assert (Hfirst : times (S n) (pass decoder op tile) None w
                   = times n (pass decoder op tile) (Some (count 0%nat)) (bump 1 w)).
  { change (times (S n) ?b ?s) with (b s ≫= times n b).
    by rewrite bind_unfold, pass_run. }
  assert (Hshift : ∀ k, feature_count (decoder (k + decodes (bump 1 w))%nat) = count (S k)).
  { intros k. unfold count. f_equal. f_equal. simpl. lia. }
  destruct (times_pass_cases decoder op tile n (count 0%nat) (bump 1 w))
    as [[Hrun Hall]|(k & Hk & Hbad & Hbefore & Hrun)].
  - split.
    + intros (k & Hk & Hbad). destruct k as [|k]; [lia|].
      destruct (Hall k) as [Heq Hge]; [lia|]. rewrite Hshift in Heq, Hge. lia.
    + intros _ _. rewrite !bind_unfold, Hfirst, Hrun, bump_bump.
      replace (n + 1)%nat with (S n) by lia. reflexivity.
  - rewrite !Hshift in Hbad. split.
    + intros _. exists (S k). split; [lia|]. split; [done|]. split.
      * intros [|j] Hj; [lia|]. rewrite <- !Hshift. apply Hbefore. lia.
      * rewrite !bind_unfold, Hfirst, Hrun, bump_bump.
        by replace (S k + 1)%nat with (S (S k)) by lia.
    + intros Hall _. destruct (Hall (S k)) as [Heq Hge]; [lia|]. lia.
Qed.

End count_invariant.

(** A decoder whose tile has one feature or two in turn ends the process at
    the second pass; a steady one completes the five passes. *)
Lemma feature_count_invariant_witness :
  (∃ k, (0 < k < 5)%nat
     ∧ Bench.run_benchmark Examples.env_empty "MLT -> loadGeo bing/4-8-5"
         (Bench.fn (Bench.decode_with Examples.drifting) Feature.loadGeometry "bing/4-8-5")
         Process.start
       = (Process.Exit 1,
          Process.add_lines (Process.bump (S k) Process.start)
            [Bench.count_mismatch "bing/4-8-5"]))
  ∧ Bench.run_benchmark Examples.env_empty "MLT -> loadGeo bing/4-8-5"
      (Bench.fn (Bench.decode_with Examples.steady) Feature.loadGeometry "bing/4-8-5")
      Process.start
    = (Process.Return (Some 3%nat),
       Process.add_lines (Process.bump 5 Process.start)
         [{| Process.stream := Process.stdout;
             Process.text := "MLT -> loadGeo bing/4-8-5 x 1,000 ops/sec" |}]).
Proof.
  split.
  - destruct (proj1 (feature_count_invariant Examples.env_empty
                       "MLT -> loadGeo bing/4-8-5" "bing/4-8-5" Examples.drifting
                       Feature.loadGeometry Process.start))
      as (k & Hk & _ & _ & Hrun).
    + exists 1%nat. split; [simpl; lia|]. left. vm_compute. discriminate.
    + exists k. split; [exact Hk|exact Hrun].
  - apply (proj2 (feature_count_invariant Examples.env_empty
                    "MLT -> loadGeo bing/4-8-5" "bing/4-8-5" Examples.steady
                    Feature.loadGeometry Process.start)).
    + intros k Hk. split; [reflexivity|vm_compute; lia].
    + simpl. lia.
Defined.

Section validation_assertions.
Import Process Bench Examples.

(** C2. The claim asks for a fatal failure at the first pair whose GeoJSON
    geometry types differ. On the tile of [env_geometry] the MLT feature
    projects to a [Point] and the reference feature to a [LineString]: the
    [assert] imported from [console] writes its line to stderr and
    returns, validation reports the tile as passed and the benchmark runs. *)
Theorem geometry_mismatch_not_fatal :
  GeoJSON.Geometry.type
    (GeoJSON.Feature.geometry
       (Feature.toGeoJSON (project env_geometry) (mlt_point 1 ["name"])
          (x input_4_8_5) (y input_4_8_5) (z input_4_8_5))) = "Point"
  ∧ GeoJSON.Geometry.type
      (VectorTile.geometry
         (VectorTile.toGeoJSON (reference_feature "LineString" ["name"])
            (x input_4_8_5) (y input_4_8_5) (z input_4_8_5))) = "LineString"
  ∧ runSuites validate_and_mlt env_geometry ["bing/4-8-5"] start
    = (Return tt,
       {| output :=
            [ {| stream := stdout; text := "Validating result for bing/4-8-5" |};
              assertion_failed "Geometry type mismatch for bing/4-8-5 0";
              {| stream := stdout;
                 text := " " +:+ check_mark +:+ " passed for bing/4-8-5" |};
              {| stream := stdout; text := "Running benchmarks for bing/4-8-5" |};
              {| stream := stdout;
                 text := "MLT -> loadGeo bing/4-8-5 x 1,000 ops/sec" |};
              {| stream := stdout;
                 text := "  Total MLT features(loadGeometry) processed: 1" |} ];
          decodes := 7 |}).
Proof. split_and!; vm_compute; reflexivity. Qed.

(** C3. The counter is incremented once per layer of the MLT decode, so it
    is zero when that decode has no layers; the claim asks for a fatal
    failure then. The [assert] imported from [console] writes its line to
    stderr and [validate] returns as for a tile that passed. *)
Theorem empty_validation_not_fatal {C TableMeta} (env : Env C TableMeta)
    (input : Input TableMeta) (w : World) :
  decodeMlTile env (decodes w) (mltTile input) (tableMeta input) = ∅ →
  validate env input w
  = (Return tt,
     add_lines (bump 2 w)
       [assertion_failed ("Validation count mismatch for " +:+ tile input)]).
Proof.
  intros Hempty. rewrite validate_unfold, Hempty. reflexivity.
Qed.

(** The tile without layers. *)
Lemma empty_validation_not_fatal_witness :
  validate env_empty input_4_8_5 start
  = (Return tt,
     add_lines (bump 2 start)
       [assertion_failed "Validation count mismatch for bing/4-8-5"]).
Proof.
  apply (empty_validation_not_fatal env_empty input_4_8_5 start). reflexivity.
Defined.

End validation_assertions.

Section key_sets.
Import Process Bench Examples.

(** When [validate] ends the process for one of the tiles, [runSuites]
    ends there: the tiles after it are not validated and no benchmark
    runs. *)
Lemma runSuites_exit_in_validate {C TableMeta} (args : Flags)
    (env : Env C TableMeta) (tiles : list string)
    (before after : list (Input TableMeta)) (input : Input TableMeta)
    (w0 w1 w2 w3 : World) (code : Z) :
  willValidate args = true →
  for_of tiles (λ tile inputs, input ← load env tile; mret (inputs ++ [input])%list) [] w0
  = (Return (before ++ input :: after)%list, w1) →
  for_of before (λ input _,
      console.log ("Validating result for " +:+ tile input);;
      validate env input;;
      console.log (" " +:+ check_mark +:+ " passed for " +:+ tile input)) tt w1
  = (Return tt, w2) →
  validate env input
    (add_lines w2 [{| stream := stdout;
                      text := "Validating result for " +:+ tile input |}])
  = (Exit code, w3) →
  runSuites args env tiles w0 = (Exit code, w3).
Proof.
  intros Hflag Hload Hbefore Hexit. unfold runSuites.
  rewrite (bind_Return _ _ _ _ _ Hload), Hflag, bind_unfold, for_of_app.
  rewrite (bind_Return _ _ _ _ _ Hbefore), for_of_cons.
  rewrite !bind_assoc, log_bind, bind_assoc.
  by rewrite (bind_Exit _ _ _ _ _ Hexit).
Qed.

(** A layer of the MLT tile that the reference tile lacks: the first
    feature of the layer throws, whatever the pairs of later layers are. *)
Example missing_reference_layer_throws :
  validate env_missing_layer input_4_8_5 start
  = (Throw (TypeError "Cannot read properties of undefined (reading 'feature')"),
     bump 2 start).
Proof. vm_compute. reflexivity. Qed.

(** C4, as stated: the report of a key-set mismatch would name the layer.
    On the tile of [env_building], feature 3 of layer [building] lacks a
    key on the reference side; the process exits with code 1 and none of
    the lines printed mentions [building]. *)
Lemma keyset_report_omits_layer :
  pair_at (decodeMlTile env_building 0 [] tt) (VectorTile env_building 1 [])
    "building" 3 (mlt_point 3 ["height"]) (reference_feature "Point" [])
  ∧ keys_differ (mlt_point 3 ["height"]) (reference_feature "Point" [])
  ∧ validate env_building input_4_8_5 start
    = (Exit 1,
       add_lines (bump 2 start)
         (assertion_failed "Feature keys mismatch for bing/4-8-5"
          :: keys_report "bing/4-8-5" 3 (mlt_point 3 ["height"])
               (reference_feature "Point" [])))
  ∧ Forall (λ line, contains "building" (text line) = false)
      (assertion_failed "Feature keys mismatch for bing/4-8-5"
       :: keys_report "bing/4-8-5" 3 (mlt_point 3 ["height"])
            (reference_feature "Point" [])).
Proof.
  split_and!.
  - eexists _, _. split_and!; reflexivity.
  - intros Heq. vm_compute in Heq. discriminate Heq.
  - vm_compute. reflexivity.
  - repeat constructor.
Qed.

(** C4, amended. If the key sets of some indexed pair of the tile differ
    (an [id] key of the reference feature apart), and the reference
    decode has a feature for every MLT feature that no such pair precedes
    in the order of the loops (the layer names in sorted order, then the
    index), [validate] exits with code 1 at the first such pair: no pair
    visited before it has different keys, every MLT feature visited before
    it has a reference feature with the same keys, and the last four lines
    are [Validation failed for <tile> <index>] on stderr and the two
    serialised key lists around [vs] on stdout; the layer is not named.
    [runSuites] ends with that exit, before the tiles after it are
    validated and before any benchmark. *)
Theorem keyset_mismatch_exits {C TableMeta} (args : Flags)
    (env : Env C TableMeta) (tiles : list string)
    (before after : list (Input TableMeta)) (input : Input TableMeta)
    (w0 w1 w2 : World) :
  let w := add_lines w2 [{| stream := stdout;
                            text := "Validating result for " +:+ tile input |}] in
  let decoded := decodeMlTile env (decodes w) (mltTile input) (tableMeta input) in
  let mvtDecoded := VectorTile env (S (decodes w)) (mvtTile input) in
  willValidate args = true →
  for_of tiles (λ tile inputs, input ← load env tile; mret (inputs ++ [input])%list) [] w0
  = (Return (before ++ input :: after)%list, w1) →
  for_of before (λ input _,
      console.log ("Validating result for " +:+ tile input);;
      validate env input;;
      console.log (" " +:+ check_mark +:+ " passed for " +:+ tile input)) tt w1
  = (Return tt, w2) →
  covered_until_mismatch decoded mvtDecoded →
  (∃ name i f mf, pair_at decoded mvtDecoded name i f mf ∧ keys_differ f mf) →
  ∃ name i f mf pre,
    pair_at decoded mvtDecoded name i f mf ∧ keys_differ f mf
    ∧ (∀ name' j f' mf',
         visited_before decoded name' j name i →
         pair_at decoded mvtDecoded name' j f' mf' → ¬ keys_differ f' mf')
    ∧ matched_before decoded mvtDecoded name i
    ∧ Forall is_assertion pre
    ∧ validate env input w
      = (Exit 1, add_lines (bump 2 w) (pre ++ keys_report (tile input) i f mf))
    ∧ runSuites args env tiles w0
      = (Exit 1, add_lines (bump 2 w) (pre ++ keys_report (tile input) i f mf)).
Proof.
  intros w decoded mvtDecoded Hflag Hload Hbefore Hcov (name & i & f & mf & Hpair & Hd).
  destruct (validate_outcome env input w)
    as [(pre & _ & _ & Hm)
       |[(name' & i' & f' & mf' & pre & Hpair' & Hd' & Hrun & Hpre & Hfirst)
        |(name' & i' & pre & Hun & _ & _ & Hfirst)]].
  - by destruct (matched_pair _ _ _ _ _ _ Hm Hpair).
  - exists name', i', f', mf', pre. split_and!; try done.
    + intros name'' j f'' mf''. by apply matched_before_pair.
    + eapply runSuites_exit_in_validate; eauto.
  - destruct Hun as (layer & Hlayer & Hi & Hno).
    destruct (lookup_lt_is_Some_2 layer i' Hi) as [f' Hf'].
    destruct (Hcov name' layer i' f' Hlayer Hf')
      as (mf' & layer' & ml & _ & _ & Hml & Hmf').
    { intros name'' j f'' mf''. by apply matched_before_pair. }
    fold mvtDecoded in Hno. rewrite Hml in Hno.
    apply lookup_lt_Some in Hmf'. lia.
Qed.

(** A tile whose first pair has different keys and whose reference decode
    lacks the layer that comes after: the report is that of the first
    pair. *)
Lemma keyset_mismatch_exits_witness :
  ∃ name i f mf pre,
    pair_at (decodeMlTile env_mismatch_then_missing 0 [] tt)
      (VectorTile env_mismatch_then_missing 1 []) name i f mf
    ∧ keys_differ f mf
    ∧ (∀ name' j f' mf',
         visited_before (decodeMlTile env_mismatch_then_missing 0 [] tt) name' j name i →
         pair_at (decodeMlTile env_mismatch_then_missing 0 [] tt)
           (VectorTile env_mismatch_then_missing 1 []) name' j f' mf' →
         ¬ keys_differ f' mf')
    ∧ matched_before (decodeMlTile env_mismatch_then_missing 0 [] tt)
        (VectorTile env_mismatch_then_missing 1 []) name i
    ∧ Forall is_assertion pre
    ∧ validate env_mismatch_then_missing input_4_8_5
        (add_lines start
           [{| stream := stdout; text := "Validating result for bing/4-8-5" |}])
      = (Exit 1,
         add_lines
           (bump 2 (add_lines start
              [{| stream := stdout; text := "Validating result for bing/4-8-5" |}]))
           (pre ++ keys_report "bing/4-8-5" i f mf))
    ∧ runSuites validate_and_mlt env_mismatch_then_missing ["bing/4-8-5"] start
      = (Exit 1,
         add_lines
           (bump 2 (add_lines start
              [{| stream := stdout; text := "Validating result for bing/4-8-5" |}]))
           (pre ++ keys_report "bing/4-8-5" i f mf)).
Proof.
  assert (Hd : keys_differ (mlt_point 1 ["k"]) (reference_feature "Point" [])).
  { intros Heq. vm_compute in Heq. discriminate Heq. }
  assert (Hpair : pair_at (decodeMlTile env_mismatch_then_missing 0 [] tt)
                    (VectorTile env_mismatch_then_missing 1 []) "a" 0
                    (mlt_point 1 ["k"]) (reference_feature "Point" [])).
  { eexists _, _. split_and!; reflexivity. }
  apply (keyset_mismatch_exits validate_and_mlt env_mismatch_then_missing
           ["bing/4-8-5"] [] [] input_4_8_5 start start start).
  - reflexivity.
  - reflexivity.
  - reflexivity.
  - intros name layer i f Hlayer Hf Hno. simpl in Hlayer.
    apply lookup_insert_Some in Hlayer as [[<- <-]|[_ Hlayer]].
    + destruct i as [|i]; [|done]. injection Hf as <-.
      by exists (reference_feature "Point" []).
    + exfalso. apply (Hno "a" 0%nat (mlt_point 1 ["k"]) (reference_feature "Point" []));
        [|exact Hpair|exact Hd].
      apply lookup_singleton_Some in Hlayer as [<- <-].
      exists 0%nat, 1%nat. split_and!; [vm_compute; reflexivity..|left; lia].
  - by exists "a", 0%nat, (mlt_point 1 ["k"]), (reference_feature "Point" []).
Defined.

End key_sets.

Section layers.
Import Process Bench Examples.

Lemma mvt_feature_restrict {F G} (decoded : Layers F)
    (mvtDecoded : Layers (VectorTile.Feature G)) name layer i w :
  decoded !! name = Some layer →
  mvt_feature (restrict_to decoded mvtDecoded !! name) i w
  = mvt_feature (mvtDecoded !! name) i w.
Proof.
  intros Hlayer. unfold restrict_to.
  destruct (mvtDecoded !! name) as [mvtLayer|] eqn:Hmvt.
  - erewrite map_lookup_filter_Some_2; [done..|]. simpl. by rewrite Hlayer.
  - by rewrite map_lookup_filter_None_2 by (by left).
Qed.

Lemma mvt_feature_clip {F G} (decoded : Layers F)
    (mvtDecoded : Layers (VectorTile.Feature G)) name layer i w :
  decoded !! name = Some layer → (i < length layer)%nat →
  mvt_feature (clip_to decoded mvtDecoded !! name) i w
  = mvt_feature (mvtDecoded !! name) i w.
Proof.
  intros Hlayer Hi. unfold clip_to. rewrite map_lookup_imap, Hlayer.
  destruct (mvtDecoded !! name) as [mvtLayer|]; [|done].
  simpl. unfold mvt_feature. by rewrite lookup_take_lt.
Qed.

(** C5, as stated: the validator would iterate over the sorted layer names
    of the reference (MVT) decode. On the tile of [env_extra_layer] the
    names iterated are those of the MLT decode, [a]; the reference decode
    has [a] and [b], and the layer [b] is never compared. *)
Lemma layerNames_not_of_reference :
  layerNames (decodeMlTile env_extra_layer 0 [] tt) = ["a"]
  ∧ sort (Object_keys (VectorTile env_extra_layer 1 [])) = ["a"; "b"]
  ∧ validate env_extra_layer input_4_8_5 start = (Return tt, bump 2 start).
Proof. split_and!; vm_compute; reflexivity. Qed.

(** C5, amended. The layer names the validator iterates over are the
    sorted layer names of the MLT decode, each once; the layers of the
    reference (MVT) decode are looked up by these names, so that its other
    layers play no part. *)
Theorem validate_iterates_mlt_layers {C TableMeta} (env : Env C TableMeta)
    (input : Input TableMeta) (w : World) :
  let decoded := decodeMlTile env (decodes w) (mltTile input) (tableMeta input) in
  let mvtDecoded := VectorTile env (S (decodes w)) (mvtTile input) in
  validate env input w
  = (for_of (layerNames decoded) (validate_layer env input decoded mvtDecoded) 0%nat
     ≫= λ count,
          console.assert (0 <? count)%nat
            ("Validation count mismatch for " +:+ tile input);;
          mret tt) (bump 2 w)
  ∧ StronglySorted String.le (layerNames decoded)
  ∧ NoDup (layerNames decoded)
  ∧ (∀ name, name ∈ layerNames decoded ↔ is_Some (decoded !! name))
  ∧ validate
      (with_VectorTile env (λ n b, restrict_to decoded (VectorTile env n b))) input w
    = validate env input w.
Proof.
  intros decoded mvtDecoded. split_and!.
  - apply validate_unfold.
  - apply sort_StronglySorted.
  - apply sorted_keys_NoDup.
  - intros name. apply elem_of_layerNames.
  - apply validate_reference_reads. intros name layer i w0 Hlayer _.
    by apply (mvt_feature_restrict _ _ _ layer).
Qed.

(** C10. The features of a layer are compared at the indices below the
    feature count of the MLT layer only: cutting every reference layer
    down to that count changes nothing in what [validate] does. So a tile
    passes whose reference decode has more features in a layer than its
    MLT decode, as the tile of [env_longer_reference] does. *)
Theorem reference_beyond_mlt_count_unread :
  (∀ (C TableMeta : Type) (env : Env C TableMeta) (input : Input TableMeta)
     (w : World),
      validate
        (with_VectorTile env
           (λ n b, clip_to (decodeMlTile env (decodes w) (mltTile input) (tableMeta input))
                     (VectorTile env n b))) input w
      = validate env input w)
  ∧ length <$> (decodeMlTile env_longer_reference 0 [] tt !! "a") = Some 1%nat
  ∧ length <$> (VectorTile env_longer_reference 1 [] !! "a") = Some 2%nat
  ∧ validate env_longer_reference input_4_8_5 start = (Return tt, bump 2 start).
Proof.
  split_and!; [|vm_compute; reflexivity..].
  intros C TableMeta env input w.
  apply validate_reference_reads. intros name layer i w0 Hlayer Hi.
  by apply (mvt_feature_clip _ _ _ layer).
Qed.

End layers.

Section id_workaround.
Import Process Bench Examples.

(** C6, as stated: with [id] among the keys of both features, neither key
    list would be altered. On the tile of [env_both_id] both sorted key
    lists are [id]; the workaround empties the reference one, the lists
    then differ and the process exits. *)
Lemma id_dropped_though_on_both_sides :
  sort (Object_keys (Feature.properties (mlt_point 1 ["id"]))) = ["id"]
  ∧ sort (Object_keys (VectorTile.properties (reference_feature "Point" ["id"])))
    = ["id"]
  ∧ drop_id (sort (Object_keys
               (VectorTile.properties (reference_feature "Point" ["id"])))) = []
  ∧ validate env_both_id input_4_8_5 start
    = (Exit 1,
       add_lines (bump 2 start)
         (assertion_failed "Feature keys mismatch for bing/4-8-5"
          :: keys_report "bing/4-8-5" 0 (mlt_point 1 ["id"])
               (reference_feature "Point" ["id"]))).
Proof. split_and!; vm_compute; reflexivity. Qed.

(** C6, amended. For every indexed pair, an [id] key is removed from the
    sorted key list of the reference feature whenever it is there, whatever
    the keys of the other feature, whose key list is compared as it is:
    the pair passes when the keys of the MLT feature are those of the
    reference feature without [id], and ends the process with code 1
    otherwise. *)
Theorem id_dropped_from_reference {C TableMeta} (env : Env C TableMeta)
    (input : Input TableMeta) (layer : list (Feature.t C))
    (mvtLayer : list (VectorTile.Feature C)) (i : nat) (feature : Feature.t C)
    (mvtFeature : VectorTile.Feature C) (w : World) :
  layer !! i = Some feature → mvtLayer !! i = Some mvtFeature →
  drop_id (sort (Object_keys (VectorTile.properties mvtFeature)))
  = sort (Object_keys (delete "id" (VectorTile.properties mvtFeature)))
  ∧ (validate_feature env input layer (Some mvtLayer) i w).1
    = if decide (dom (Feature.properties feature)
                 = dom (VectorTile.properties mvtFeature) ∖ {["id"]})
      then Return tt else Exit 1.
Proof.
  intros Hf Hmf. split; [apply drop_id_sorted_keys|].
  assert (Hdiff : keys_differ feature mvtFeature ↔
                  dom (Feature.properties feature)
                  ≠ dom (VectorTile.properties mvtFeature) ∖ {["id"]}).
  { unfold keys_differ. by rewrite dom_delete_L. }
  case_decide as Heq.
  - rewrite (validate_feature_agree env input _ _ _ _ _ w Hf Hmf); [done|].
    rewrite Hdiff. by intros Hne.
  - apply Hdiff in Heq.
    by destruct (validate_feature_differ env input _ _ _ _ _ w Hf Hmf Heq)
      as (pre & -> & _).
Qed.

(** [id] on the reference side only: the pair passes; [id] on both sides:
    the process exits. *)
Lemma id_dropped_from_reference_witness :
  drop_id (sort (Object_keys
             (VectorTile.properties (reference_feature "Point" ["id"; "k"]))))
  = ["k"]
  ∧ (validate_feature env_reference_id input_4_8_5 [mlt_point 1 ["k"]]
       (Some [reference_feature "Point" ["id"; "k"]]) 0 start).1 = Return tt
  ∧ (validate_feature env_both_id input_4_8_5 [mlt_point 1 ["id"]]
       (Some [reference_feature "Point" ["id"]]) 0 start).1 = Exit 1.
Proof.
  destruct (id_dropped_from_reference env_reference_id input_4_8_5
              [mlt_point 1 ["k"]] [reference_feature "Point" ["id"; "k"]] 0
              (mlt_point 1 ["k"]) (reference_feature "Point" ["id"; "k"]) start
              eq_refl eq_refl) as [Hdrop Hpass].
  destruct (id_dropped_from_reference env_both_id input_4_8_5
              [mlt_point 1 ["id"]] [reference_feature "Point" ["id"]] 0
              (mlt_point 1 ["id"]) (reference_feature "Point" ["id"]) start
              eq_refl eq_refl) as [_ Hfail].
  split_and!.
  - rewrite Hdrop. vm_compute. reflexivity.
  - rewrite Hpass. vm_compute. reflexivity.
  - rewrite Hfail. vm_compute. reflexivity.
Defined.

End id_workaround.

Section loader.
Import Process Bench Examples.

(** C7, as stated: an identifier with fewer than three components, or with
    a component that is no number, would make loading fail. With the
    fixture files in place, [bing/4-8] loads with [y] undefined and
    [bing/bad] loads with [z] NaN and [x], [y] undefined. *)
Lemma load_accepts_malformed_identifiers :
  load env_empty "bing/4-8" start
  = (Return {| tile := "bing/4-8"; x := Some (of_Z 8); y := undefined;
               z := Some (of_Z 4); mltTile := []; mvtTile := []; tableMeta := tt |},
     start)
  ∧ load env_empty "bing/bad" start
    = (Return {| tile := "bing/bad"; x := undefined; y := undefined;
                 z := Some NaN; mltTile := []; mvtTile := []; tableMeta := tt |},
       start).
Proof. split; vm_compute; reflexivity. Qed.

(** C7, amended. Once the three fixture files are read, the loader takes
    the part of the identifier between its first and second [/], splits it
    on [-] and converts each component with [Number]: z, x and y are the
    first three results, a missing component leaving its coordinate
    undefined and a non-numeric one making it NaN; nothing is checked, and
    loading fails (with a TypeError) only for an identifier without [/].
    For an identifier [<set>/<z>-<x>-<y>] written with decimal numerals,
    the coordinates are the integers z, x and y. *)
Theorem load_reads_coordinates {C TableMeta} (env : Env C TableMeta)
    (tile : string) (metadata mvt mlt : Buffer) (w : World) :
  readFileSync env ("../test/expected/" +:+ tile +:+ ".mlt.meta.pbf") = Some metadata →
  readFileSync env ("../test/fixtures/" +:+ tile +:+ ".mvt") = Some mvt →
  readFileSync env ("../test/expected/" +:+ tile +:+ ".mlt") = Some mlt →
  (∀ segment, split "/" tile !! 1%nat = Some segment →
     load env tile w
     = (Return {| Bench.tile := tile;
                  x := Number_of_string <$> split "-" segment !! 1%nat;
                  y := Number_of_string <$> split "-" segment !! 2%nat;
                  z := Number_of_string <$> split "-" segment !! 0%nat;
                  mltTile := mlt; mvtTile := mvt;
                  tableMeta := fromBinary env metadata |}, w))
  ∧ (split "/" tile !! 1%nat = None →
     load env tile w
     = (Throw (TypeError "Cannot read properties of undefined (reading 'split')"), w))
  ∧ (∀ (set : string) (z x y : N),
       tile = set +:+ "/" +:+ pretty z +:+ "-" +:+ pretty x +:+ "-" +:+ pretty y →
       has_char "/" set = false →
       (z < 2 ^ 53)%N → (x < 2 ^ 53)%N → (y < 2 ^ 53)%N →
       load env tile w
       = (Return {| Bench.tile := tile;
                    Bench.x := Some (of_Z (Z.of_N x));
                    Bench.y := Some (of_Z (Z.of_N y));
                    Bench.z := Some (of_Z (Z.of_N z));
                    mltTile := mlt; mvtTile := mvt;
                    tableMeta := fromBinary env metadata |}, w)).
Proof.
  intros Hmeta Hmvt Hmlt.
  assert (Hparts : ∀ segment, split "/" tile !! 1%nat = Some segment →
            load env tile w
            = (Return {| Bench.tile := tile;
                         x := Number_of_string <$> split "-" segment !! 1%nat;
                         y := Number_of_string <$> split "-" segment !! 2%nat;
                         z := Number_of_string <$> split "-" segment !! 0%nat;
                         mltTile := mlt; mvtTile := mvt;
                         tableMeta := fromBinary env metadata |}, w)).
  { intros segment Hseg. unfold load, readFile.
    rewrite Hmeta, Hmvt, Hmlt, !ret_bind, Hseg. by rewrite !list_lookup_fmap. }
  split_and!.
  - exact Hparts.
  - intros Hnone. unfold load, readFile.
    by rewrite Hmeta, Hmvt, Hmlt, !ret_bind, Hnone.
  - intros set z x y Htile Hset Hz Hx Hy.
    rewrite (Hparts (pretty z +:+ "-" +:+ pretty x +:+ "-" +:+ pretty y)).
    + rewrite split_coordinates. simpl.
      by rewrite !Number_of_string_pretty_safe.
    + by rewrite Htile, split_identifier.
Qed.

(** [bing/4-8-5] loads as tile (8, 5) of zoom 4, [bing/4-8] with [y]
    undefined; [bad] has no [/]. *)
Lemma load_reads_coordinates_witness :
  load env_empty "bing/4-8-5" start = (Return input_4_8_5, start)
  ∧ load env_empty "bing/4-8" start
    = (Return {| tile := "bing/4-8"; x := Some (of_Z 8); y := undefined;
                 z := Some (of_Z 4); mltTile := []; mvtTile := []; tableMeta := tt |},
       start)
  ∧ load env_empty "bad" start
    = (Throw (TypeError "Cannot read properties of undefined (reading 'split')"),
       start).
Proof.
  destruct (load_reads_coordinates env_empty "bing/4-8-5" [] [] [] start
              eq_refl eq_refl eq_refl) as (_ & _ & Hgood).
  destruct (load_reads_coordinates env_empty "bing/4-8" [] [] [] start
              eq_refl eq_refl eq_refl) as (Hparts & _ & _).
  destruct (load_reads_coordinates env_empty "bad" [] [] [] start
              eq_refl eq_refl eq_refl) as (_ & Hbad & _).
  split_and!.
  - apply (Hgood "bing" 4%N 8%N 5%N); reflexivity.
  - apply (Hparts "4-8"). reflexivity.
  - apply Hbad. reflexivity.
Defined.

End loader.

Section feature_view.
Import Examples.
Context {C : Type}.

(** C8. [loadGeometry] returns what the geometry's own [loadGeometry]
    returns when the geometry has that property and it is a function, and
    otherwise the geometry itself as the one point of one ring. *)
Theorem loadGeometry_dispatch (this : Feature.t C) :
  (∀ f, Feature.Geometry.loadGeometry (Feature.geometry this) = Feature.function f →
        Feature.loadGeometry this = f tt)
  ∧ ((∀ f, Feature.Geometry.loadGeometry (Feature.geometry this) ≠ Feature.function f) →
     Feature.loadGeometry this = [[Feature.geometry this]]).
Proof.
  unfold Feature.loadGeometry. split.
  - by intros f ->.
  - intros Hno. destruct (Feature.Geometry.loadGeometry _) as [| |f]; [done..|].
    by destruct (Hno f).
Qed.

(** C9. [toGeoJSON(x, y, z)] returns an object of type [Feature] whose id
    is [Number] of the feature's id (the id itself when it is a number, the
    same integer when it is a BigInt below 2^53), whose properties are the
    feature's, and whose geometry is what the geometry's own
    [toGeoJSON(x, y, z)] returns when the geometry has that function, and
    otherwise a [Point] whose coordinates are the first entry of
    [project(x, y, z, [geometry])]. *)
Theorem toGeoJSON_feature
    (project : Arg → Arg → Arg → list (Feature.Geometry.t C) → list C)
    (this : Feature.t C) (x y z : Arg) :
  let json := Feature.toGeoJSON project this x y z in
  GeoJSON.Feature.type json = "Feature"
  ∧ GeoJSON.Feature.id json = Number (Feature.id this)
  ∧ (∀ n, Feature.id this = number n → GeoJSON.Feature.id json = n)
  ∧ (∀ n, Feature.id this = bigint n → Z.abs n < 2 ^ 53 →
          GeoJSON.Feature.id json = of_Z n)
  ∧ GeoJSON.Feature.properties json = Feature.properties this
  ∧ (∀ f, Feature.Geometry.toGeoJSON (Feature.geometry this) = Feature.function f →
          GeoJSON.Feature.geometry json = f x y z)
  ∧ ((∀ f, Feature.Geometry.toGeoJSON (Feature.geometry this) ≠ Feature.function f) →
     GeoJSON.Feature.geometry json
     = GeoJSON.Geometry.mk "Point" (project x y z [Feature.geometry this] !! 0%nat)).
Proof.
  unfold Feature.toGeoJSON. simpl. split_and!; try done.
  - by intros n ->.
  - intros n -> Hn. by apply Number_bigint_safe.
  - by intros f ->.
  - intros Hno. destruct (Feature.Geometry.toGeoJSON _) as [| |f]; [done..|].
    by destruct (Hno f).
Qed.

End feature_view.

(** A geometry that decodes itself, and a bare coordinate pair. *)
Lemma loadGeometry_dispatch_witness :
  Feature.loadGeometry (Examples.mlt_shape 3 "Polygon" []) = Examples.ring
  ∧ Feature.loadGeometry (Examples.mlt_point 1 [])
    = [[Feature.Geometry.point (of_Z 10) (of_Z 20)]].
Proof.
  split.
  - apply (proj1 (loadGeometry_dispatch (Examples.mlt_shape 3 "Polygon" []))
             (fun _ => Examples.ring)).
    reflexivity.
  - apply (proj2 (loadGeometry_dispatch (Examples.mlt_point 1 []))).
    intros f. discriminate.
Defined.

(** A BigInt id with a geometry that projects itself, and a number id with
    a bare coordinate pair. *)
Lemma toGeoJSON_feature_witness :
  (GeoJSON.Feature.id
     (Feature.toGeoJSON (Bench.project Examples.env_empty)
        (Examples.mlt_shape 3 "Polygon" []) (Some (of_Z 8)) (Some (of_Z 5)) (Some (of_Z 4)))
   = of_Z 3
   ∧ GeoJSON.Feature.geometry
       (Feature.toGeoJSON (Bench.project Examples.env_empty)
          (Examples.mlt_shape 3 "Polygon" []) (Some (of_Z 8)) (Some (of_Z 5)) (Some (of_Z 4)))
     = GeoJSON.Geometry.mk "Polygon" None)
  ∧ (GeoJSON.Feature.id
       (Feature.toGeoJSON (Bench.project Examples.env_empty)
          (Examples.mlt_point 1 []) (Some (of_Z 8)) (Some (of_Z 5)) (Some (of_Z 4)))
     = of_Z 1
     ∧ GeoJSON.Feature.geometry
         (Feature.toGeoJSON (Bench.project Examples.env_empty)
            (Examples.mlt_point 1 []) (Some (of_Z 8)) (Some (of_Z 5)) (Some (of_Z 4)))
       = GeoJSON.Geometry.mk "Point" (Some (of_Z 10, of_Z 20))).
Proof.
  destruct (toGeoJSON_feature (Bench.project Examples.env_empty)
              (Examples.mlt_shape 3 "Polygon" [])
              (Some (of_Z 8)) (Some (of_Z 5)) (Some (of_Z 4)))
    as (_ & _ & _ & Hbig & _ & Hown & _).
  destruct (toGeoJSON_feature (Bench.project Examples.env_empty)
              (Examples.mlt_point 1 [])
              (Some (of_Z 8)) (Some (of_Z 5)) (Some (of_Z 4)))
    as (_ & _ & Hnum & _ & _ & _ & Hpoint).
  split; split.
  - apply (Hbig 3 eq_refl). reflexivity.
  - apply (Hown (fun _ _ _ => GeoJSON.Geometry.mk "Polygon" None) eq_refl).
  - apply (Hnum (of_Z 1) eq_refl).
  - apply Hpoint. intros f. discriminate.
Defined.

(* ================================================================== *)
(** * Further properties of the code *)
(* ================================================================== *)

(** ** [load] and the first loop of [runSuites] *)

Section load_facts.
Import Process Bench.
Context {C TableMeta : Type}.
Implicit Types (env : Env C TableMeta) (w : World).

(** [load] neither prints nor decodes. *)
Lemma load_world env tile w : (load env tile w).2 = w.
Proof.
  unfold load, readFile, mbind, Proc_bind, bind, mret, Proc_ret, ret, throw.
  repeat case_match; by simplify_eq.
Qed.

(** [load] never ends the process. *)
Lemma load_no_exit env tile w c w' : load env tile w ≠ (Exit c, w').
Proof.
  unfold load, readFile, mbind, Proc_bind, bind, mret, Proc_ret, ret, throw.
  repeat case_match; by simplify_eq.
Qed.

(** The loop that loads the tiles, up to the first tile that cannot be
    loaded. *)
Lemma load_loop_throw env (before after : list string) tile e
    (inputs : list (Input TableMeta)) w :
  (∀ t, t ∈ before → ∃ input, load env t w = (Return input, w)) →
  load env tile w = (Throw e, w) →
  for_of (before ++ tile :: after)
    (λ tile inputs, input ← load env tile; mret (inputs ++ [input])%list) inputs w
  = (Throw e, w).
Proof.
  revert inputs. induction before as [|t before IH]; intros inputs Hbefore Htile.
  - simpl app. by rewrite for_of_cons, bind_assoc, bind_unfold, Htile.
  - destruct (Hbefore t) as [input Ht]; [by left|].
    simpl app. rewrite for_of_cons, bind_assoc, bind_unfold, Ht, ret_bind.
    apply IH; [|done]. intros t' Hin. apply Hbefore. by right.
Qed.

(** The loop that loads the tiles, when every tile can be loaded. *)
Lemma load_loop_return env (tiles : list string)
    (inputs0 inputs : list (Input TableMeta)) w :
  Forall2 (λ t input, load env t w = (Return input, w)) tiles inputs →
  for_of tiles
    (λ tile inputs, input ← load env tile; mret (inputs ++ [input])%list) inputs0 w
  = (Return (inputs0 ++ inputs)%list, w).
Proof.
  intros Hall. revert inputs0.
  induction Hall as [|t input tiles inputs Ht _ IH]; intros inputs0.
  - simpl. by rewrite app_nil_r.
  - rewrite for_of_cons, bind_assoc, bind_unfold, Ht, ret_bind, IH.
    by rewrite <- app_assoc.
Qed.

End load_facts.

(** ** Benchmarks whose passes all find the same count *)

Section steady_benchmarks.
Import Process Bench.
Context {C TableMeta : Type}.
Implicit Types (env : Env C TableMeta) (input : Input TableMeta) (w : World).

Lemma add_lines_bump_merge (a b : nat) w (l1 l2 : list Line) :
  add_lines (bump a (add_lines (bump b w) l1)) l2
  = add_lines (bump (b + a) w) (l1 ++ l2).
Proof.
  unfold add_lines, bump. simpl. f_equal; [by rewrite app_assoc|lia].
Qed.

Lemma World_eq (w1 w2 : World) :
  output w1 = output w2 → decodes w1 = decodes w2 → w1 = w2.
Proof. destruct w1, w2. simpl. by intros -> ->. Qed.

(** A benchmark whose passes all count [c] features, [c] at least 1,
    completes with [c] recorded. *)
Lemma run_benchmark_steady {F R} env name tile (decoder : nat → Layers F)
    (op : F → R) (c : nat) w :
  (1 ≤ samples env name)%nat → (1 ≤ c)%nat →
  (∀ n, feature_count (decoder n) = c) →
  run_benchmark env name (fn (decode_with decoder) op tile) w
  = (Return (Some c),
     add_lines (bump (samples env name * IN_LOOP_ITERATIONS) w) [cycle_line env name]).
Proof.
  intros Hs Hc Hcount. rewrite run_benchmark_passes.
  destruct (samples env name * IN_LOOP_ITERATIONS)%nat as [|n] eqn:Hn;
    [unfold IN_LOOP_ITERATIONS in Hn; lia|].
  assert (Hfirst : times (S n) (pass decoder op tile) None w
                   = times n (pass decoder op tile) (Some c) (bump 1 w)).
  { change (times (S n) ?b ?s) with (b s ≫= times n b).
    by rewrite bind_unfold, pass_run, Hcount. }
  destruct (times_pass_cases decoder op tile n c (bump 1 w))
    as [[Hrun _]|(k & _ & Hbad & _)].
  - rewrite bind_unfold, Hfirst, Hrun, bump_bump.
    by replace (n + 1)%nat with (S n) by lia.
  - rewrite Hcount in Hbad. lia.
Qed.

(** A block of [runSuite] under the same conditions. *)
Lemma scenario_steady {F R} env (enabled : bool) name tile
    (decoder : nat → Layers F) (op : F → R) (c : nat) w :
  (1 ≤ samples env name)%nat → (enabled = true → (1 ≤ c)%nat) →
  (∀ n, feature_count (decoder n) = c) →
  scenario env enabled name (fn (decode_with decoder) op tile) w
  = (Return (if enabled then Some (Some c) else None),
     if enabled
     then add_lines (bump (samples env name * IN_LOOP_ITERATIONS) w)
            [cycle_line env name]
     else w).
Proof.
  intros Hs Hc Hcount. unfold scenario. destruct enabled; [|done].
  by rewrite bind_unfold, (run_benchmark_steady _ _ _ _ _ c) by auto.
Qed.

(** A suite whose benchmarks are all steady: its promise is resolved when
    some benchmark is enabled, and stays pending otherwise. *)
Lemma runSuite_run args env input (mvt mlt : nat) w :
  (∀ n, feature_count (VectorTile env n (mvtTile input)) = mvt) →
  (∀ n, feature_count (decodeMlTile env n (mltTile input) (tableMeta input)) = mlt) →
  (∀ name, 1 ≤ samples env name)%nat →
  Forall (λ b, 1 ≤ b.2)%nat (enabled args (tile input) mvt mlt) →
  runSuite args env input w
  = (if benchmarking args then Return tt else Pending,
     add_lines (bump (suite_passes env (enabled args (tile input) mvt mlt)) w)
       (suite_lines env (enabled args (tile input) mvt mlt))).
Proof.
  intros Hmvt Hmlt Hs Hge. unfold runSuite, decodeMvt, decodeMlt. cbv zeta.
  assert (H1 : willRunMVT args = true ∨ willRunMVTJSON args = true → (1 ≤ mvt)%nat).
  { unfold enabled in Hge. rewrite !Forall_app in Hge.
    destruct Hge as (Ha & _ & Hb & _).
    intros [H|H]; rewrite H in *; [by inversion Ha|by inversion Hb]. }
  assert (H2 : willRunMLT args = true ∨ willRunMLTJSON args = true → (1 ≤ mlt)%nat).
  { unfold enabled in Hge. rewrite !Forall_app in Hge.
    destruct Hge as (_ & Ha & _ & Hb).
    intros [H|H]; rewrite H in *; [by inversion Ha|by inversion Hb]. }
  rewrite bind_unfold, (scenario_steady _ _ _ _ _ _ mvt) by auto.
  rewrite bind_unfold, (scenario_steady _ _ _ _ _ _ mlt) by auto.
  rewrite bind_unfold, (scenario_steady _ _ _ _ _ _ mvt) by auto.
  rewrite bind_unfold, (scenario_steady _ _ _ _ _ _ mlt) by auto.
  unfold enabled, suite_passes, suite_lines, on_complete, console.log, benchmarking.
  destruct (willRunMVT args), (willRunMLT args), (willRunMVTJSON args),
    (willRunMLTJSON args);
    repeat first [rewrite print_bind | rewrite ret_bind];
    unfold settled; cbn [existsb is_Some_b orb];
    destruct w as [out n]; unfold add_lines, bump, mret, Proc_ret, ret, pending;
    cbn [output decodes fmap list_fmap app sum_list_with fst snd];
    (f_equal; apply World_eq; cbn [output decodes];
     [by rewrite <- ?app_assoc, ?app_nil_r|lia]).
Qed.

(** An empty first pass: the second pass ends the process. *)
Lemma empty_first_pass {F R} env name tile (decoder : nat → Layers F)
    (op : F → R) w :
  (1 ≤ samples env name)%nat →
  feature_count (decoder (decodes w)) = 0%nat →
  run_benchmark env name (fn (decode_with decoder) op tile) w
  = (Exit 1, add_lines (bump 2 w) [count_mismatch tile]).
Proof.
  intros Hs H0. rewrite run_benchmark_passes.
  destruct (samples env name * IN_LOOP_ITERATIONS)%nat as [|[|n]] eqn:Hn;
    [unfold IN_LOOP_ITERATIONS in Hn; lia..|].
  assert (Hbad : negb (feature_count (decoder (decodes (bump 1 w))) =? 0)%nat
                 || (feature_count (decoder (decodes (bump 1 w))) <? 1)%nat = true).
  { destruct (feature_count (decoder (decodes (bump 1 w)))); reflexivity. }
  assert (Hrun : times (S (S n)) (pass decoder op tile) None w
                 = (Exit 1, add_lines (bump 2 w) [count_mismatch tile])).
  { change (times (S (S n)) ?b ?s) with (b s ≫= λ s1, b s1 ≫= times n b).
    rewrite (bind_Return _ _ w (Some 0%nat) (bump 1 w))
      by (by rewrite pass_run, H0).
    apply bind_Exit. rewrite pass_run. cbv [check_count]. rewrite Hbad.
    unfold console.error. rewrite print_bind. unfold process.exit.
    by rewrite bump_bump. }
  by rewrite (bind_Exit _ _ _ _ _ Hrun).
Qed.

End steady_benchmarks.

(** ** The loop of [runSuites] over the suites *)

Section suites.
Import Process Bench.
Context {C TableMeta : Type}.
Implicit Types (env : Env C TableMeta) (input : Input TableMeta) (w : World).

Lemma benchmark_loop_run args env (inputs : list (Input TableMeta)) w :
  benchmarking args = true →
  (∀ name, 1 ≤ samples env name)%nat →
  Forall (steady_counts args env) inputs →
  for_of inputs
    (λ input _, console.log ("Running benchmarks for " +:+ tile input);;
                runSuite args env input) tt w
  = (Return tt,
     add_lines
       (bump (sum_list_with (λ input, suite_passes env (benchmarks_of args env input))
                inputs) w)
       (flat_map (run_lines args env) inputs)).
Proof.
  intros Hb Hs Hall. revert w.
  induction Hall as [|input inputs (Hmvt & Hmlt & Hge) _ IH]; intros w.
  - simpl. by rewrite bump_0, add_lines_nil.
  - rewrite for_of_cons, bind_unfold. unfold console.log.
    rewrite print_bind, (runSuite_run args env input _ _ _ Hmvt Hmlt Hs Hge), Hb, IH.
    f_equal. apply World_eq; unfold add_lines, bump;
      cbn [output decodes sum_list_with flat_map].
    + unfold run_lines. by rewrite <- !app_assoc.
    + change (enabled args _ _ _) with (benchmarks_of args env input). lia.
Qed.

(** Without a benchmark, the promise of the first suite stays pending:
    the loop does not get to the tiles after it. *)
Lemma benchmark_loop_pending args env (input : Input TableMeta)
    (inputs : list (Input TableMeta)) w :
  benchmarking args = false →
  for_of (input :: inputs)
    (λ input _, console.log ("Running benchmarks for " +:+ tile input);;
                runSuite args env input) tt w
  = (Pending,
     add_lines w [{| stream := stdout;
                     text := "Running benchmarks for " +:+ tile input |}]).
Proof.
  intros Hb. rewrite for_of_cons, bind_unfold. unfold console.log.
  rewrite print_bind. unfold benchmarking in Hb.
  apply orb_false_elim in Hb as [Hb Hmltjson].
  apply orb_false_elim in Hb as [Hb Hmvtjson].
  apply orb_false_elim in Hb as [Hmvt Hmlt].
  unfold runSuite. by rewrite Hmvt, Hmlt, Hmvtjson, Hmltjson.
Qed.

(** The loop of [runSuites] over the validations, on tiles that are
    matched whenever they are decoded. *)
Lemma validation_loop_run env (inputs : list (Input TableMeta)) w :
  Forall (λ input, ∀ n,
            matched (decodeMlTile env n (mltTile input) (tableMeta input))
                    (VectorTile env (S n) (mvtTile input))) inputs →
  ∃ pres,
    Forall2 (λ _ pre, Forall is_assertion pre) inputs pres
    ∧ for_of inputs
        (λ input _, console.log ("Validating result for " +:+ tile input);;
                    validate env input;;
                    console.log (" " +:+ check_mark +:+ " passed for " +:+ tile input))
        tt w
      = (Return tt,
         add_lines (bump (2 * length inputs) w)
           (flat_map (λ p, validation_lines (tile p.1) p.2) (zip inputs pres))).
Proof.
  intros Hall. revert w.
  induction Hall as [|input inputs Hm _ IH]; intros w.
  - exists []. split; [constructor|]. simpl. by rewrite bump_0, add_lines_nil.
  - set (w1 := add_lines w
                 [{| stream := stdout;
                     text := "Validating result for " +:+ tile input |}]).
    destruct (validate_matched env input w1 (Hm _)) as (pre & Hrun & Hpre).
    destruct (IH (add_lines (add_lines (bump 2 w1) pre)
                    [{| stream := stdout;
                        text := " " +:+ check_mark +:+ " passed for " +:+ tile input |}]))
      as (pres & Hpres & Hloop).
    exists (pre :: pres). split; [by constructor|].
    rewrite for_of_cons.
    rewrite (bind_Return _ _ w tt
               (add_lines (add_lines (bump 2 w1) pre)
                  [{| stream := stdout;
                      text := " " +:+ check_mark +:+ " passed for " +:+ tile input |}])).
    2: { unfold console.log. rewrite print_bind. fold w1.
         by rewrite (bind_Return _ _ _ _ _ Hrun). }
    rewrite Hloop. f_equal. apply World_eq; unfold add_lines, bump, w1;
      cbn [output decodes zip zip_with flat_map length fst snd].
    + unfold validation_lines. simpl. by rewrite <- !app_assoc.
    + simpl. lia.
Qed.

End suites.

(** ** The top level *)

Section top_level.
Import Process Bench Script.
Context {C TableMeta : Type}.
Implicit Types (sh : Shell) (env : Env C TableMeta) (w : World).

Lemma includes_elem_of (args : list string) flag :
  includes args flag = true ↔ flag ∈ args.
Proof. unfold includes. apply bool_decide_eq_true. Qed.

Lemma includes_ext (args args' : list string) flag :
  (flag ∈ args ↔ flag ∈ args') → includes args flag = includes args' flag.
Proof. intros H. unfold includes. by apply bool_decide_ext. Qed.

(** The fixtures of one tile. *)
Lemma generate_cons sh tile (tiles : list string) w :
  generate sh (tile :: tiles) w
  = ((if stale sh tile then
        console.log "Generating MLT tiles & metadata";;
        console.log (encode_command tile);;
        exec sh None (encode_command tile)
      else mret tt) ≫= λ _, generate sh tiles) w.
Proof.
  unfold generate at 1. rewrite for_of_cons. unfold stale.
  rewrite !(bind_unfold _ _ w).
  match goal with
  | |- match ?m with _ => _ end = _ => by destruct m as [[[]| | |] ?]
  end.
Qed.

(** The generation when every command that is run succeeds. *)
Lemma generate_run sh (tiles : list string) w :
  (∀ tile, tile ∈ tiles → stale sh tile = true →
           execSync sh None (encode_command tile) = None) →
  generate sh tiles w
  = (Return tt,
     add_lines w (flat_map generation_lines (List.filter (stale sh) tiles))).
Proof.
  revert w. induction tiles as [|tile tiles IH]; intros w Hok.
  - simpl. by rewrite add_lines_nil.
  - rewrite generate_cons. cbn [List.filter].
    destruct (stale sh tile) eqn:Hstale.
    + unfold console.log, exec.
      rewrite bind_assoc, print_bind, bind_assoc, print_bind.
      rewrite (Hok tile) by (done || by left).
      rewrite ret_bind, IH by (intros; apply Hok; [by right|done]).
      cbn [flat_map]. by rewrite !add_lines_app.
    + by rewrite ret_bind, IH by (intros; apply Hok; [by right|done]).
Qed.

(** The generation up to the first command that fails. *)
Lemma generate_throw sh (before after : list string) tile e w :
  (∀ t, t ∈ before → stale sh t = true →
        execSync sh None (encode_command t) = None) →
  stale sh tile = true →
  execSync sh None (encode_command tile) = Some e →
  generate sh (before ++ tile :: after) w
  = (Throw e,
     add_lines w (flat_map generation_lines (List.filter (stale sh) before)
                  ++ generation_lines tile)).
Proof.
  revert w. induction before as [|t before IH]; intros w Hok Hstale He.
  - simpl app. rewrite generate_cons, Hstale.
    unfold console.log, exec.
    rewrite bind_assoc, print_bind, bind_assoc, print_bind, He.
    by rewrite !add_lines_app.
  - simpl app. rewrite generate_cons. cbn [List.filter].
    destruct (stale sh t) eqn:Ht.
    + unfold console.log, exec.
      rewrite bind_assoc, print_bind, bind_assoc, print_bind.
      rewrite (Hok t) by (done || by left).
      rewrite ret_bind, IH by (done || (intros; apply Hok; [by right|done])).
      cbn [flat_map]. by rewrite !add_lines_app, <- !app_assoc.
    + by rewrite ret_bind, IH by (done || (intros; apply Hok; [by right|done])).
Qed.

(** [main] after the preparation of the fixtures. *)
Lemma main_unfold sh env argv w :
  main sh env argv w
  = ((build_encoder sh ≫= λ _, generate sh (selected argv)) ≫= λ _,
     (if negb (includes (drop 2 argv) "--mlt") && negb (includes (drop 2 argv) "--mvt")
         && negb (includes (drop 2 argv) "--mltjson")
         && negb (includes (drop 2 argv) "--mvtjson")
      then console.error usage;; process.exit 1
      else mret tt);;
     (if truthy (GITHUB_RUN_ID sh) then
        console.log "Running in CI, using smaller maxTime: 2 seconds"
      else mret tt);;
     runSuites
       {| willValidate := includes (drop 2 argv) "--validate";
          willRunMLT := includes (drop 2 argv) "--mlt";
          willRunMVT := includes (drop 2 argv) "--mvt";
          willRunMLTJSON := includes (drop 2 argv) "--mltjson";
          willRunMVTJSON := includes (drop 2 argv) "--mvtjson" |}
       env (selected argv)) w.
Proof.
  unfold main, selected. cbv zeta. rewrite bind_assoc.
  destruct (truthy (GITHUB_RUN_ID sh)); reflexivity.
Qed.

End top_level.

(** ** What a validation establishes *)

Section validation_verdicts.
Import Process Bench Examples.
Context {C TableMeta : Type}.
Implicit Types (env : Env C TableMeta) (input : Input TableMeta) (w : World).

(** X1. [validate] returns normally exactly when every feature of the MLT
    decode has a reference feature at the same layer name and index whose
    keys, [id] apart, are the same. Nothing else is required: not the
    geometry types, not the property values, not the features and layers
    that only the reference decode has. *)
Theorem validate_passes_iff env input w :
  (∃ w', validate env input w = (Return tt, w'))
  ↔ matched (decodeMlTile env (decodes w) (mltTile input) (tableMeta input))
            (VectorTile env (S (decodes w)) (mvtTile input)).
Proof.
  destruct (validate_outcome env input w)
    as [(pre & Hrun & _ & Hm)
       |[(name & i & f & mf & pre & Hpair & Hd & Hrun & _)
        |(name & i & pre & Hun & Hrun & _)]];
    rewrite Hrun; split.
  - done.
  - by eexists.
  - by intros [w' ?].
  - intros Hm. by destruct (matched_pair _ _ _ _ _ _ Hm Hpair).
  - by intros [w' ?].
  - intros Hm. by destruct (matched_paired _ _ name i Hm).
Qed.

(** X2. [validate] ends the process with no other code than 1, and only
    at a pair of features whose key sets differ: the output then ends
    with the four lines of the report of that pair, after the lines of
    failed assertions. *)
Theorem validate_exits_only_on_key_mismatch env input w code w' :
  validate env input w = (Exit code, w') →
  code = 1
  ∧ ∃ name i f mf pre,
      pair_at (decodeMlTile env (decodes w) (mltTile input) (tableMeta input))
              (VectorTile env (S (decodes w)) (mvtTile input)) name i f mf
      ∧ keys_differ f mf
      ∧ w' = add_lines (bump 2 w) (pre ++ keys_report (tile input) i f mf)
      ∧ Forall is_assertion pre.
Proof.
  intros Hexit.
  destruct (validate_outcome env input w)
    as [(pre & Hrun & _ & Hm)
       |[(name & i & f & mf & pre & Hpair & Hd & Hrun & Hpre & _)
        |(name & i & pre & Hun & Hrun & _)]];
    rewrite Hrun in Hexit; [done| |done].
  injection Hexit as <- <-. split; [done|].
  by exists name, i, f, mf, pre.
Qed.

(** X3. [validate] throws only where the MLT decode has a feature and the
    reference decode has none at that layer name and index: a [TypeError]
    when the reference decode lacks the layer, the error [feature index
    out of bounds] when its layer is too short. Only lines of failed
    assertions have been printed by then. *)
Theorem validate_throws_only_without_reference env input w e w' :
  validate env input w = (Throw e, w') →
  ∃ name i pre,
    unpaired (decodeMlTile env (decodes w) (mltTile input) (tableMeta input))
             (VectorTile env (S (decodes w)) (mvtTile input)) name i
    ∧ e = reference_error (VectorTile env (S (decodes w)) (mvtTile input) !! name)
    ∧ w' = add_lines (bump 2 w) pre
    ∧ Forall is_assertion pre.
Proof.
  intros Hthrow.
  destruct (validate_outcome env input w)
    as [(pre & Hrun & _ & Hm)
       |[(name & i & f & mf & pre & Hpair & Hd & Hrun & Hpre & _)
        |(name & i & pre & Hun & Hrun & Hpre & _)]];
    rewrite Hrun in Hthrow; [done..|].
  injection Hthrow as <- <-. by exists name, i, pre.
Qed.

(** X4. A tile whose MLT decode has layers and no feature passes
    validation without a line of output, whatever the reference decode
    is: the counter that [validate] tests counts layers, not features. *)
Theorem validate_silent_on_empty_layers env input w :
  decodeMlTile env (decodes w) (mltTile input) (tableMeta input) ≠ ∅ →
  (∀ name layer,
      decodeMlTile env (decodes w) (mltTile input) (tableMeta input) !! name
      = Some layer → layer = []) →
  validate env input w = (Return tt, bump 2 w).
Proof.
  intros Hne Hempty. rewrite validate_unfold.
  set (decoded := decodeMlTile _ _ _ _) in *.
  change {| output := output w; decodes := S (S (decodes w)) |} with (bump 2 w).
  rewrite bind_unfold, tile_loop_empty_layers.
  - rewrite assert_bind.
    destruct (layerNames decoded) as [|name names] eqn:Hnames; [|done].
    destruct (map_choose decoded Hne) as (name & layer & Hlayer).
    assert (Hin : name ∈ layerNames decoded)
      by (apply elem_of_layerNames; by exists layer).
    rewrite Hnames in Hin. by apply elem_of_nil in Hin.
  - intros name [layer Hlayer]%elem_of_layerNames.
    by rewrite Hlayer, (Hempty name layer Hlayer).
Qed.

(** X5. For an MLT feature whose geometry is a bare coordinate pair (it
    has no [toGeoJSON] of its own), the geometry assertion of [validate]
    compares the reference feature's GeoJSON type with [Point]: whatever
    [project] returns, the pair passes, and the line [Geometry type
    mismatch] is printed exactly when that type is not [Point]. *)
Theorem bare_point_compared_as_Point env input
    (layer : list (Feature.t C)) (mvtLayer : list (VectorTile.Feature C))
    (i : nat) (f : Feature.t C) (mf : VectorTile.Feature C) w :
  layer !! i = Some f → mvtLayer !! i = Some mf → ¬ keys_differ f mf →
  (∀ g, Feature.Geometry.toGeoJSON (Feature.geometry f) ≠ Feature.function g) →
  validate_feature env input layer (Some mvtLayer) i w
  = (Return tt,
     if String.eqb "Point"
          (GeoJSON.Geometry.type
             (VectorTile.geometry
                (VectorTile.toGeoJSON mf (x input) (y input) (z input))))
     then w
     else add_lines w
            [assertion_failed
               ("Geometry type mismatch for " +:+ tile input +:+ " " +:+ pretty i)]).
Proof.
  intros Hf Hmf Hagree Hbare.
  rewrite (validate_feature_agree env input _ _ _ _ _ w Hf Hmf Hagree).
  unfold geometry_line, Feature.toGeoJSON.
  destruct (Feature.Geometry.toGeoJSON (Feature.geometry f)) as [| |g];
    [| |by destruct (Hbare g)];
    cbn [GeoJSON.Feature.geometry GeoJSON.Geometry.type];
    by case_match; rewrite ?add_lines_nil.
Qed.

End validation_verdicts.

Section validation_verdicts_witnesses.
Import Process Bench Examples.

Lemma validate_exits_only_on_key_mismatch_witness :
  ∃ name i f mf pre,
    pair_at (decodeMlTile env_building 0 [] tt) (VectorTile env_building 1 [])
      name i f mf
    ∧ keys_differ f mf
    ∧ add_lines (bump 2 start)
        (assertion_failed "Feature keys mismatch for bing/4-8-5"
         :: keys_report "bing/4-8-5" 3 (mlt_point 3 ["height"])
              (reference_feature "Point" []))
      = add_lines (bump 2 start) (pre ++ keys_report "bing/4-8-5" i f mf)
    ∧ Forall is_assertion pre.
Proof.
  apply (validate_exits_only_on_key_mismatch env_building input_4_8_5 start 1).
  vm_compute. reflexivity.
Defined.

Lemma validate_throws_only_without_reference_witness :
  ∃ name i pre,
    unpaired (decodeMlTile env_short_reference 0 [] tt)
      (VectorTile env_short_reference 1 []) name i
    ∧ Error "feature index out of bounds"
      = reference_error (VectorTile env_short_reference 1 [] !! name)
    ∧ bump 2 start = add_lines (bump 2 start) pre
    ∧ Forall is_assertion pre.
Proof.
  apply (validate_throws_only_without_reference env_short_reference input_4_8_5 start).
  vm_compute. reflexivity.
Defined.

Lemma validate_silent_on_empty_layers_witness :
  validate env_empty_layer input_4_8_5 start = (Return tt, bump 2 start).
Proof.
  apply (validate_silent_on_empty_layers env_empty_layer input_4_8_5 start).
  - intros Heq. apply (f_equal (λ m : Layers (Feature.t Coord), m !! "a")) in Heq.
    vm_compute in Heq. discriminate Heq.
  - intros name layer Hlayer. simpl in Hlayer.
    by apply lookup_singleton_Some in Hlayer as [_ <-].
Defined.

Lemma bare_point_compared_as_Point_witness :
  validate_feature env_polygon input_4_8_5 [mlt_point 1 ["k"]]
    (Some [reference_feature "Polygon" ["k"]]) 0 start
  = (Return tt,
     add_lines start
       [assertion_failed "Geometry type mismatch for bing/4-8-5 0"]).
Proof.
  apply (bare_point_compared_as_Point env_polygon input_4_8_5
           [mlt_point 1 ["k"]] [reference_feature "Polygon" ["k"]] 0
           (mlt_point 1 ["k"]) (reference_feature "Polygon" ["k"]) start).
  - reflexivity.
  - reflexivity.
  - intros Hd. apply Hd. vm_compute. reflexivity.
  - intros g. discriminate.
Defined.

End validation_verdicts_witnesses.

(** ** Loading, and the passes of the benchmarks *)

Section loading_and_benchmarks.
Import Process Bench Examples.
Context {C TableMeta : Type}.
Implicit Types (env : Env C TableMeta) (input : Input TableMeta) (w : World).

(** X6. [load] reads the metadata file, the MVT fixture and the MLT file
    of the tile, in this order, before it looks at the identifier: it
    throws the error of the first of them that cannot be read, also for
    an identifier that it could not have parsed, and once the three are
    read it throws no file error. It prints nothing and calls no
    decoder. *)
Theorem load_reads_three_files env (tile : string) w :
  let metadata := "../test/expected/" +:+ tile +:+ ".mlt.meta.pbf" in
  let mvt := "../test/fixtures/" +:+ tile +:+ ".mvt" in
  let mlt := "../test/expected/" +:+ tile +:+ ".mlt" in
  (readFileSync env metadata = None →
   load env tile w = (Throw (ENOENT metadata), w))
  ∧ (is_Some (readFileSync env metadata) → readFileSync env mvt = None →
     load env tile w = (Throw (ENOENT mvt), w))
  ∧ (is_Some (readFileSync env metadata) → is_Some (readFileSync env mvt) →
     readFileSync env mlt = None →
     load env tile w = (Throw (ENOENT mlt), w))
  ∧ (is_Some (readFileSync env metadata) → is_Some (readFileSync env mvt) →
     is_Some (readFileSync env mlt) →
     ∀ path w', load env tile w ≠ (Throw (ENOENT path), w'))
  ∧ (load env tile w).2 = w.
Proof.
  intros metadata mvt mlt. split_and!.
  - intros Hmeta. unfold load, readFile. fold metadata. by rewrite Hmeta.
  - intros [b Hmeta] Hmvt. unfold load, readFile. fold metadata mvt.
    by rewrite Hmeta, ret_bind, Hmvt.
  - intros [b Hmeta] [b' Hmvt] Hmlt. unfold load, readFile. fold metadata mvt mlt.
    by rewrite Hmeta, ret_bind, Hmvt, ret_bind, Hmlt.
  - intros [b Hmeta] [b' Hmvt] [b'' Hmlt] path w'.
    unfold load, readFile. fold metadata mvt mlt.
    rewrite Hmeta, ret_bind, Hmvt, ret_bind, Hmlt, ret_bind.
    by case_match.
  - apply load_world.
Qed.

(** X7. [runSuites] loads every tile before it validates or benchmarks
    any: when a tile cannot be loaded and the tiles before it can, the
    run ends with the error of that tile, nothing has been printed and no
    decoder has been called, whatever the flags are and whatever the
    validation of the earlier tiles would have found. *)
Theorem runSuites_loads_before_anything args env
    (before after : list string) (tile : string) (e : JsError) w :
  (∀ t, t ∈ before → ∃ input, load env t w = (Return input, w)) →
  load env tile w = (Throw e, w) →
  runSuites args env (before ++ tile :: after) w = (Throw e, w).
Proof.
  intros Hbefore Htile. unfold runSuites.
  by rewrite bind_unfold, (load_loop_throw env before after tile e).
Qed.

(** X8. The traversal of a pass returns the number of features of the
    decoded tile, the sum of the lengths of its layers, whatever the
    operation applied to each feature returns; it prints nothing and
    throws nothing. *)
Theorem traverse_counts_features {F R} (op : F → R) (decoded : Layers F) w :
  traverse op decoded w
  = (Return (sum_list_with (λ layer, length layer) (map_to_list decoded).*2), w).
Proof.
  rewrite traverse_count. do 2 f_equal. unfold feature_count.
  induction (map_to_list decoded) as [|[name layer] l IH]; [done|].
  simpl. by rewrite IH.
Qed.

(** X9. A benchmark on a tile in which the first pass finds no feature
    never completes: the first pass records the count 0 untested, and the
    second pass ends the process with code 1 after the line [Feature
    count mismatch], whether it finds 0 features again or not. *)
Theorem empty_tile_ends_benchmark {F R} env (name tile : string)
    (decoder : nat → Layers F) (op : F → R) w :
  (1 ≤ samples env name)%nat →
  feature_count (decoder (decodes w)) = 0%nat →
  run_benchmark env name (fn (decode_with decoder) op tile) w
  = (Exit 1, add_lines (bump 2 w) [count_mismatch tile]).
Proof. apply empty_first_pass. Qed.

(** X10. When the decoders find the same number of features at every
    call, at least one in the tiles that the enabled benchmarks decode,
    the benchmarks of [runSuite] run in the order MVT loadGeometry, MLT
    loadGeometry, MVT GeoJSON, MLT GeoJSON: the output is the throughput
    line of each enabled benchmark, then the [Total] line of each in the
    same order, and the number a [Total] line shows is the number of
    features of one decode of the tile, not the number of features
    processed over the passes. The promise of [runSuite] is resolved, by
    the [complete] listeners, when some benchmark is enabled; with none
    enabled nothing is printed and the promise stays pending. *)
Theorem runSuite_steady_totals args env input (mvt mlt : nat) w :
  (∀ n, feature_count (VectorTile env n (mvtTile input)) = mvt) →
  (∀ n, feature_count (decodeMlTile env n (mltTile input) (tableMeta input)) = mlt) →
  (∀ name, 1 ≤ samples env name)%nat →
  Forall (λ b, 1 ≤ b.2)%nat (enabled args (tile input) mvt mlt) →
  runSuite args env input w
  = (if benchmarking args then Return tt else Pending,
     add_lines (bump (suite_passes env (enabled args (tile input) mvt mlt)) w)
       (suite_lines env (enabled args (tile input) mvt mlt))).
Proof. apply runSuite_run. Qed.

(** X11. Without [--validate] and with some benchmark enabled, when
    every tile loads and the decoders are steady on every tile,
    [runSuites] returns, and the output is, tile after tile in the order
    of the list, the line [Running benchmarks for <tile>] followed by the
    lines of the suite of the tile. *)
Theorem runSuites_steady_output args env (tiles : list string)
    (inputs : list (Input TableMeta)) w :
  willValidate args = false →
  benchmarking args = true →
  (∀ name, 1 ≤ samples env name)%nat →
  Forall2 (λ t input, load env t w = (Return input, w)) tiles inputs →
  Forall (steady_counts args env) inputs →
  runSuites args env tiles w
  = (Return tt,
     add_lines
       (bump (sum_list_with (λ input, suite_passes env (benchmarks_of args env input))
                inputs) w)
       (flat_map (run_lines args env) inputs)).
Proof.
  intros Hv Hb Hs Hload Hsteady. unfold runSuites.
  rewrite bind_unfold, (load_loop_return env tiles [] inputs w Hload), Hv.
  rewrite ret_bind. simpl app. by apply benchmark_loop_run.
Qed.

(** X12. With [--validate] and some benchmark enabled, when every tile
    loads, is matched whenever it is decoded and the decoders are steady
    on it, [runSuites] returns: the
    tiles are validated one after the other, each between its lines
    [Validating result for <tile>] and [passed for <tile>] with lines of
    failed assertions at most in between, and only then are the suites
    run, so that the lines of all validations come before the first line
    [Running benchmarks]. *)
Theorem runSuites_validates_then_benchmarks args env (tiles : list string)
    (inputs : list (Input TableMeta)) w :
  willValidate args = true →
  benchmarking args = true →
  (∀ name, 1 ≤ samples env name)%nat →
  Forall2 (λ t input, load env t w = (Return input, w)) tiles inputs →
  Forall (λ input, ∀ n,
            matched (decodeMlTile env n (mltTile input) (tableMeta input))
                    (VectorTile env (S n) (mvtTile input))) inputs →
  Forall (steady_counts args env) inputs →
  ∃ pres,
    Forall2 (λ _ pre, Forall is_assertion pre) inputs pres
    ∧ runSuites args env tiles w
      = (Return tt,
         add_lines
           (bump (2 * length inputs
                  + sum_list_with
                      (λ input, suite_passes env (benchmarks_of args env input)) inputs)
              w)
           (flat_map (λ p, validation_lines (tile p.1) p.2) (zip inputs pres)
            ++ flat_map (run_lines args env) inputs)).
Proof.
  intros Hv Hb Hs Hload Hmatched Hsteady.
  destruct (validation_loop_run env inputs w Hmatched) as (pres & Hpres & Hloop).
  exists pres. split; [done|]. unfold runSuites.
  rewrite bind_unfold, (load_loop_return env tiles [] inputs w Hload), Hv.
  simpl app. rewrite bind_unfold, Hloop.
  rewrite (benchmark_loop_run args env inputs _ Hb Hs Hsteady).
  by rewrite add_lines_bump_merge.
Qed.

(** X18. With no benchmark enabled, [runSuites] does not get past the
    first tile: after the loading and, with [--validate], the validation
    of all tiles, it prints [Running benchmarks for <tile>] for the first
    tile and then awaits the promise of [runSuite], which no [complete]
    listener resolves; the tiles after the first are not announced. *)
Theorem runSuites_pends_without_benchmark args env (tiles : list string)
    (input : Input TableMeta) (inputs : list (Input TableMeta)) w w2 :
  benchmarking args = false →
  Forall2 (λ t input, load env t w = (Return input, w)) tiles (input :: inputs) →
  (if willValidate args then
     for_of (input :: inputs) (λ input _,
       console.log ("Validating result for " +:+ tile input);;
       validate env input;;
       console.log (" " +:+ check_mark +:+ " passed for " +:+ tile input)) tt
   else mret tt) w = (Return tt, w2) →
  runSuites args env tiles w
  = (Pending,
     add_lines w2 [{| stream := stdout;
                      text := "Running benchmarks for " +:+ tile input |}]).
Proof.
  intros Hb Hload Hvalidate. unfold runSuites.
  rewrite bind_unfold, (load_loop_return env tiles [] (input :: inputs) w Hload).
  simpl app. rewrite bind_unfold, Hvalidate.
  by apply benchmark_loop_pending.
Qed.

End loading_and_benchmarks.

Section loading_and_benchmarks_witnesses.
Import Process Bench Examples.

Lemma load_reads_three_files_witness :
  load env_unreadable "bing/4-12-6" start
  = (Throw (ENOENT "../test/expected/bing/4-12-6.mlt"), start).
Proof.
  destruct (load_reads_three_files env_unreadable "bing/4-12-6" start)
    as (_ & _ & Hmlt & _).
  apply Hmlt; [by eexists|by eexists|reflexivity].
Defined.

(** The MLT file of the second tile is missing: the first tile, whose
    validation would end the process, is not validated. *)
Lemma runSuites_loads_before_anything_witness :
  runSuites validate_and_mlt env_unreadable tiles start
  = (Throw (ENOENT "../test/expected/bing/4-12-6.mlt"), start).
Proof.
  apply (runSuites_loads_before_anything validate_and_mlt env_unreadable
           ["bing/4-8-5"] (drop 2 tiles) "bing/4-12-6").
  - intros t ->%list_elem_of_singleton. eexists. vm_compute. reflexivity.
  - vm_compute. reflexivity.
Defined.

Lemma empty_tile_ends_benchmark_witness :
  run_benchmark env_empty "MLT -> loadGeo bing/4-8-5"
    (fn (decode_with (λ _ : nat, (∅ : Layers (Feature.t Coord))))
        Feature.loadGeometry "bing/4-8-5") start
  = (Exit 1, add_lines (bump 2 start) [count_mismatch "bing/4-8-5"]).
Proof.
  apply (empty_tile_ends_benchmark env_empty "MLT -> loadGeo bing/4-8-5"
           "bing/4-8-5" (λ _ : nat, (∅ : Layers (Feature.t Coord)))
           Feature.loadGeometry start).
  - simpl. lia.
  - reflexivity.
Defined.

Lemma runSuite_steady_totals_witness :
  runSuite all_benchmarks env_steady input_4_8_5 start
  = (Return tt,
     add_lines (bump 40 start)
       ((λ s, {| stream := stdout; text := s |}) <$>
        [ "MVT -> loadGeo bing/4-8-5 x 1,000 ops/sec";
          "MLT -> loadGeo bing/4-8-5 x 1,000 ops/sec";
          "MVT -> GeoJSON bing/4-8-5 x 1,000 ops/sec";
          "MLT -> GeoJSON bing/4-8-5 x 1,000 ops/sec";
          "  Total MVT features(loadGeometry) processed: 2";
          "  Total MLT features(loadGeometry) processed: 3";
          "  Total MVT features(json) processed: 2";
          "  Total MLT features(json) processed: 3" ])).
Proof.
  apply (runSuite_steady_totals all_benchmarks env_steady input_4_8_5 2 3 start).
  - intros n. vm_compute. reflexivity.
  - intros n. vm_compute. reflexivity.
  - intros name. simpl. lia.
  - repeat constructor.
Defined.

Lemma runSuites_steady_output_witness :
  runSuites only_mlt env_steady ["bing/4-8-5"; "bing/4-12-6"] start
  = (Return tt,
     add_lines (bump 20 start)
       ((λ s, {| stream := stdout; text := s |}) <$>
        [ "Running benchmarks for bing/4-8-5";
          "MLT -> loadGeo bing/4-8-5 x 1,000 ops/sec";
          "  Total MLT features(loadGeometry) processed: 3";
          "Running benchmarks for bing/4-12-6";
          "MLT -> loadGeo bing/4-12-6 x 1,000 ops/sec";
          "  Total MLT features(loadGeometry) processed: 3" ])).
Proof.
  apply (runSuites_steady_output only_mlt env_steady
           ["bing/4-8-5"; "bing/4-12-6"]
           [ input_4_8_5;
             {| tile := "bing/4-12-6"; x := Some (of_Z 12); y := Some (of_Z 6);
                z := Some (of_Z 4); mltTile := []; mvtTile := [];
                tableMeta := tt |} ] start).
  - reflexivity.
  - reflexivity.
  - intros name. simpl. lia.
  - repeat constructor; vm_compute; reflexivity.
  - repeat constructor; intros n; vm_compute; reflexivity.
Defined.

Lemma runSuites_validates_then_benchmarks_witness :
  ∃ pres,
    Forall2 (λ _ pre, Forall is_assertion pre) [input_4_8_5] pres
    ∧ runSuites validate_and_mlt env_agree ["bing/4-8-5"] start
      = (Return tt,
         add_lines (bump 7 start)
           (flat_map (λ p, validation_lines (tile p.1) p.2) (zip [input_4_8_5] pres)
            ++ [ {| stream := stdout; text := "Running benchmarks for bing/4-8-5" |};
                 {| stream := stdout;
                    text := "MLT -> loadGeo bing/4-8-5 x 1,000 ops/sec" |};
                 {| stream := stdout;
                    text := "  Total MLT features(loadGeometry) processed: 2" |} ])).
Proof.
  apply (runSuites_validates_then_benchmarks validate_and_mlt env_agree
           ["bing/4-8-5"] [input_4_8_5] start).
  - reflexivity.
  - reflexivity.
  - intros name. simpl. lia.
  - repeat constructor.
  - repeat constructor. intros n name layer i f Hlayer Hf. simpl in Hlayer.
    apply lookup_singleton_Some in Hlayer as [<- <-].
    destruct i as [|[|i]]; [| |done]; injection Hf as <-.
    + exists (reference_feature "Point" ["id"; "k"]). split.
      * eexists _, _. split_and!; reflexivity.
      * intros Hd. apply Hd. vm_compute. reflexivity.
    + exists (reference_feature "LineString" ["k"]). split.
      * eexists _, _. split_and!; reflexivity.
      * intros Hd. apply Hd. vm_compute. reflexivity.
  - repeat constructor; intros n; vm_compute; reflexivity.
Defined.

(** Two tiles and no flag: the second tile is not reached. *)
Lemma runSuites_pends_without_benchmark_witness :
  runSuites no_benchmark env_steady ["bing/4-8-5"; "bing/4-12-6"] start
  = (Pending,
     add_lines start
       [{| stream := stdout; text := "Running benchmarks for bing/4-8-5" |}]).
Proof.
  apply (runSuites_pends_without_benchmark no_benchmark env_steady
           ["bing/4-8-5"; "bing/4-12-6"] input_4_8_5
           [ {| tile := "bing/4-12-6"; x := Some (of_Z 12); y := Some (of_Z 6);
                z := Some (of_Z 4); mltTile := []; mvtTile := [];
                tableMeta := tt |} ] start start).
  - reflexivity.
  - repeat constructor; vm_compute; reflexivity.
  - reflexivity.
Defined.

End loading_and_benchmarks_witnesses.

(** ** The top level of the script *)

Section script_top_level.
Import Process Bench Script Examples.
Context {C TableMeta : Type}.
Implicit Types (sh : Shell) (env : Env C TableMeta) (w : World).

(** X13. The fixtures are generated for the tiles whose metadata file is
    missing, and for no other tile: when the commands of those tiles
    succeed, the loop returns having printed, tile after tile, the line
    [Generating MLT tiles & metadata] and the command. The command of a
    tile whose metadata file is there is not run, so it does not matter
    whether it would fail, nor whether the other files of the tile
    exist. *)
Theorem generate_only_stale_tiles sh (tiles : list string) w :
  (∀ tile, tile ∈ tiles → stale sh tile = true →
           execSync sh None (encode_command tile) = None) →
  generate sh tiles w
  = (Return tt,
     add_lines w (flat_map generation_lines (List.filter (stale sh) tiles))).
Proof. apply generate_run. Qed.

(** X14. The generation stops at the first command that fails: the
    error of [execSync] is thrown, the last two lines printed are those
    that announce the command, and the tiles after it are not looked
    at. *)
Theorem generate_stops_at_failed_command sh (before after : list string)
    (tile : string) (e : JsError) w :
  (∀ t, t ∈ before → stale sh t = true →
        execSync sh None (encode_command t) = None) →
  stale sh tile = true →
  execSync sh None (encode_command tile) = Some e →
  generate sh (before ++ tile :: after) w
  = (Throw e,
     add_lines w (flat_map generation_lines (List.filter (stale sh) before)
                  ++ generation_lines tile)).
Proof. apply generate_throw. Qed.

(** X15. Without any of the flags [--mlt], [--mvt], [--mltjson] and
    [--mvtjson] after the first two entries of [process.argv], the script
    ends with code 1 and the usage line on stderr, with [--validate] as
    well: no tile is loaded or validated. The usage test comes after the
    build of the encoder and the generation of the fixtures, which have
    run by then. *)
Theorem no_benchmark_flag_is_usage_error sh env (argv : list string) w w1 :
  Forall (λ flag, includes (drop 2 argv) flag = false) run_flags →
  (build_encoder sh ≫= λ _, generate sh (selected argv)) w = (Return tt, w1) →
  main sh env argv w
  = (Exit 1, add_lines w1 [{| stream := stderr; text := usage |}]).
Proof.
  intros Hflags Hprepare. rewrite main_unfold, bind_unfold, Hprepare.
  unfold run_flags in Hflags.
  apply Forall_cons in Hflags as [-> Hflags].
  apply Forall_cons in Hflags as [-> Hflags].
  apply Forall_cons in Hflags as [-> Hflags].
  apply Forall_cons in Hflags as [-> _].
  reflexivity.
Qed.

(** X16. When the jar of the encoder and the metadata file of every tile
    of the run are there and a benchmark is asked for, the script runs no
    command and prints nothing of its own but the line of the CI, if
    [GITHUB_RUN_ID] is set: it is [runSuites] on the tiles of the run,
    which are the first tile alone with [--one], with the flags found
    among the arguments. *)
Theorem main_with_fixtures_in_place sh env (argv : list string) w :
  existsSync sh "../java/build/libs/encode.jar" = true →
  Forall (λ tile, stale sh tile = false) (selected argv) →
  Exists (λ flag, includes (drop 2 argv) flag = true) run_flags →
  main sh env argv w
  = runSuites (flags_of argv) env (selected argv) (add_lines w (ci_lines sh)).
Proof.
  intros Hjar Hfresh Hflag. rewrite main_unfold, bind_assoc.
  unfold build_encoder. rewrite Hjar. simpl negb. cbv iota. rewrite ret_bind.
  rewrite bind_unfold, generate_run.
  2: { intros tile Hin Hstale. rewrite Forall_forall in Hfresh.
       by rewrite (Hfresh tile Hin) in Hstale. }
  assert (Hnone : List.filter (stale sh) (selected argv) = []).
  { induction Hfresh as [|tile tiles Htile _ IH]; [done|].
    simpl. by rewrite Htile. }
  rewrite Hnone. cbn [flat_map]. rewrite add_lines_nil.
  assert (Hrun : negb (includes (drop 2 argv) "--mlt")
                 && negb (includes (drop 2 argv) "--mvt")
                 && negb (includes (drop 2 argv) "--mltjson")
                 && negb (includes (drop 2 argv) "--mvtjson") = false).
  { unfold run_flags in Hflag. rewrite !Exists_cons, Exists_nil in Hflag.
    destruct Hflag as [->|[->|[->|[->|[]]]]]; simpl;
      rewrite ?andb_false_r; reflexivity. }
  rewrite Hrun, ret_bind. unfold ci_lines, flags_of.
  destruct (truthy (GITHUB_RUN_ID sh)).
  - unfold console.log. by rewrite print_bind.
  - by rewrite ret_bind, add_lines_nil.
Qed.

(** X17. The arguments are read by membership only: two argument lists
    in which the same ones of the six flags occur after the first two
    entries give the same run, so that the order of the flags, their
    repetition and any other argument make no difference, and an
    argument that the script does not know is not reported. *)
Theorem main_reads_flags_by_membership sh env (argv argv' : list string) w :
  Forall (λ flag, includes (drop 2 argv) flag = includes (drop 2 argv') flag)
    ("--one" :: "--validate" :: run_flags) →
  main sh env argv w = main sh env argv' w.
Proof.
  intros Hflags. unfold run_flags in Hflags.
  apply Forall_cons in Hflags as [Hone Hflags].
  apply Forall_cons in Hflags as [Hvalidate Hflags].
  apply Forall_cons in Hflags as [Hmlt Hflags].
  apply Forall_cons in Hflags as [Hmvt Hflags].
  apply Forall_cons in Hflags as [Hmltjson Hflags].
  apply Forall_cons in Hflags as [Hmvtjson _].
  rewrite !main_unfold. unfold selected.
  by rewrite Hone, Hvalidate, Hmlt, Hmvt, Hmltjson, Hmvtjson.
Qed.

End script_top_level.

Section script_top_level_witnesses.
Import Process Bench Script Examples.

(** Two of the eight metadata files are missing. *)
Lemma generate_only_stale_tiles_witness :
  generate shell_stale tiles start
  = (Return tt,
     add_lines start
       (generation_lines "bing/4-12-6" ++ generation_lines "bing/5-16-9")).
Proof.
  apply (generate_only_stale_tiles shell_stale tiles start).
  intros tile _ _. reflexivity.
Defined.

Lemma generate_stops_at_failed_command_witness :
  generate shell_broken tiles start
  = (Throw (Error ("Command failed: " +:+ encode_command "bing/4-13-6")),
     add_lines start (generation_lines "bing/4-13-6")).
Proof.
  apply (generate_stops_at_failed_command shell_broken
           ["bing/4-8-5"; "bing/4-12-6"] (drop 3 tiles) "bing/4-13-6").
  - intros t Hin Hstale. exfalso.
    apply elem_of_cons in Hin as [->|Hin]; [discriminate Hstale|].
    apply list_elem_of_singleton in Hin as ->. discriminate Hstale.
  - reflexivity.
  - reflexivity.
Defined.

(** [--validate] and [--one] alone. *)
Lemma no_benchmark_flag_is_usage_error_witness :
  main shell_ready env_building ["node"; "decode.js"; "--validate"; "--one"] start
  = (Exit 1, add_lines start [{| stream := stderr; text := usage |}]).
Proof.
  apply (no_benchmark_flag_is_usage_error shell_ready env_building
           ["node"; "decode.js"; "--validate"; "--one"] start start).
  - repeat constructor.
  - vm_compute. reflexivity.
Defined.

Lemma main_with_fixtures_in_place_witness :
  main shell_ready env_steady ["node"; "decode.js"; "--one"; "--mlt"] start
  = runSuites only_mlt env_steady ["bing/4-8-5"] start.
Proof.
  apply (main_with_fixtures_in_place shell_ready env_steady
           ["node"; "decode.js"; "--one"; "--mlt"] start).
  - reflexivity.
  - repeat constructor.
  - left. reflexivity.
Defined.

Lemma main_reads_flags_by_membership_witness :
  main shell_ready env_steady ["node"; "decode.js"; "--one"; "--mlt"] start
  = main shell_ready env_steady
      ["/usr/bin/node"; "--mvt"; "--mlt"; "--verbose"; "--one"; "--mlt"] start.
Proof.
  apply (main_reads_flags_by_membership shell_ready env_steady
           ["node"; "decode.js"; "--one"; "--mlt"]
           ["/usr/bin/node"; "--mvt"; "--mlt"; "--verbose"; "--one"; "--mlt"] start).
  repeat constructor.
Defined.

End script_top_level_witnesses.
